(** * Pendant firmware (Teensy LC, Pendant.ino): indicator manager,
      RFID frame decoder and raw HID host link.

    The sketch is embedded as functions over an explicit machine state
    [world].  Calls into the board libraries (digital pins, the Timer
    library, the two serial lines, the encoder, RawHID) are recorded as
    [effect]s, in call order; what those libraries hand back to the sketch
    (timer event ids, received bytes and packets, the send result) is an
    input of the model.  The target is a 32-bit ARM: [int] and
    [unsigned int] are 32 bits wide, [byte] is 8 bits wide. *)

From Stdlib Require Import ZArith Lia List Bool.
From stdpp Require Import base list.
Import ListNotations.

Local Open Scope Z_scope.

(** ** Pins and enumerations *)

Definition PIN_BEACON_BLUE : Z := 0.
Definition PIN_BEACON_GREEN : Z := 1.
Definition PIN_BEACON_AMBER : Z := 2.
Definition PIN_BEACON_RED : Z := 3.

Definition PIN_BTN_START : Z := 4.
Definition PIN_BTN_STOP : Z := 6.
Definition PIN_BTN_FEED : Z := 7.
Definition PIN_BTN_M1 : Z := 8.

Definition PIN_LED_START : Z := 5.
Definition PIN_LED_FEED : Z := 16.
Definition PIN_LED_M1 : Z := 17.
Definition PIN_LED_RFID : Z := 21.

(** [enum indicator_t]: the values index [g_indicators]. *)
Definition ALERT_BEEPER : nat := 0.
Definition INDICATOR_BEACON_GREEN : nat := 1.
Definition INDICATOR_BEACON_AMBER : nat := 2.
Definition INDICATOR_BEACON_RED : nat := 3.
Definition INDICATOR_LED_START : nat := 4.
Definition INDICATOR_LED_FEED : nat := 5.
Definition INDICATOR_LED_M1 : nat := 6.
Definition INDICATOR_LED_RFID : nat := 7.
Definition INDICATOR_COUNT : nat := 8.

(** [enum indicator_INDICATOR_t]: stored in the [int state] field. *)
Definition INDICATOR_OFF : Z := 0.
Definition INDICATOR_ON : Z := 1.
Definition INDICATOR_BLINK : Z := 2.
Definition INDICATOR_PULSE : Z := 3.

(** States of the RFID decoder, kept in the [byte rfid_state]. *)
Definition RFID_STATE_WAIT_STX : Z := 0.
Definition RFID_STATE_GET_BYTES : Z := 1.
Definition RFID_STATE_GET_CKSUM : Z := 2.
Definition RFID_STATE_WAIT_ETX : Z := 3.

(** Arduino constants used by the sketch. *)
Definition LOW : bool := false.
Definition OUTPUT : Z := 1.
Definition INPUT_PULLUP : Z := 2.

(** [struct s_indicator] *)
Record s_indicator : Type := mk_indicator {
  event_id : Z;
  io_pin : Z;
  active_level : bool;
  state : Z
}.

Definition with_event_id (i : s_indicator) (v : Z) : s_indicator :=
  mk_indicator v (io_pin i) (active_level i) (state i).
Definition with_state (i : s_indicator) (v : Z) : s_indicator :=
  mk_indicator (event_id i) (io_pin i) (active_level i) v.

(** ** Integer helpers *)

(** Conversion to [uint8_t] / [byte]. *)
Definition u8 (z : Z) : Z := z mod 256.
(** Conversion to [unsigned int]. *)
Definition u32 (z : Z) : Z := z mod 4294967296.
(** Conversion to [int32_t], two's complement. *)
Definition s32 (z : Z) : Z := (z + 2147483648) mod 4294967296 - 2147483648.
(** Arduino's [highByte(w)] is [(uint8_t)((w) >> 8)], [lowByte(w)] is
    [(uint8_t)((w) & 0xff)]. *)
Definition highByte (w : Z) : Z := u8 (Z.shiftr w 8).
Definition lowByte (w : Z) : Z := u8 (Z.land w 255).

(** ** Calls into the board libraries *)

Inductive callback : Type := cb_alert_off.

Inductive effect : Type :=
| Serial_begin (baud : Z)
| Serial2_begin (baud : Z)
| pinMode (pin mode : Z)
| digitalWrite (pin val : Z)
| t_stop (id : Z)
| t_oscillate (pin period startingValue ret : Z)
| t_pulseImmediate (pin period pulseValue ret : Z)
| alert_t_after (period : Z) (cb : callback)
| Serial_print (b : Z)
| encoder_maxvel_write (v : Z)
| RawHID_send (buf : list Z) (timeout ret : Z).

(** The number of calls of a kind in a log. *)
Fixpoint count (f : effect -> bool) (l : list effect) : nat :=
  match l with
  | [] => 0%nat
  | e :: l' => ((if f e then 1 else 0) + count f l')%nat
  end.

(** ** Machine state *)

(** Statics of [rfid_poll]. *)
Record rfid_statics : Type := mk_rfid {
  rfid_state : Z;
  rfid_byte_count : Z;
  rfid_buffer : list Z;
  rfid_cksum : list Z
}.

(** Statics of [rawhid_poll]. *)
Record rawhid_statics : Type := mk_rawhid {
  packetCount : Z;
  run_state : Z;
  last_run_state : Z
}.

(** The globals of the sketch.  [encoder_maxvel] is the position held by
    the Encoder object.  The Timer library is not part of the sketch: the
    ids its registration calls return are an input, [timer_ids k] being
    what the [k]-th registration call on [t] returns; [timer_calls]
    counts the calls made so far. *)
Record world : Type := mk_world {
  g_indicators : list s_indicator;
  buffer : list Z;
  encoder_maxvel : Z;
  rfid : rfid_statics;
  hid : rawhid_statics;
  timer_ids : nat -> Z;
  timer_calls : nat
}.

Definition with_indicators (w : world) (g : list s_indicator) : world :=
  mk_world g (buffer w) (encoder_maxvel w) (rfid w) (hid w)
           (timer_ids w) (timer_calls w).
Definition with_buffer (w : world) (b : list Z) : world :=
  mk_world (g_indicators w) b (encoder_maxvel w) (rfid w) (hid w)
           (timer_ids w) (timer_calls w).
Definition with_encoder (w : world) (v : Z) : world :=
  mk_world (g_indicators w) (buffer w) v (rfid w) (hid w)
           (timer_ids w) (timer_calls w).
Definition with_rfid (w : world) (r : rfid_statics) : world :=
  mk_world (g_indicators w) (buffer w) (encoder_maxvel w) r (hid w)
           (timer_ids w) (timer_calls w).
Definition with_hid (w : world) (h : rawhid_statics) : world :=
  mk_world (g_indicators w) (buffer w) (encoder_maxvel w) (rfid w) h
           (timer_ids w) (timer_calls w).
Definition with_timer_calls (w : world) (n : nat) : world :=
  mk_world (g_indicators w) (buffer w) (encoder_maxvel w) (rfid w) (hid w)
           (timer_ids w) n.

(** ** A state-and-log monad for the sketch's procedures *)

Record outcome (A : Type) : Type := mk_outcome {
  val : A;
  wld : world;
  eff : list effect
}.
Arguments mk_outcome {A} _ _ _.
Arguments val {A} _.
Arguments wld {A} _.
Arguments eff {A} _.

Definition M (A : Type) : Type := world -> outcome A.

Definition ret {A} (a : A) : M A := fun w => mk_outcome a w [].
Definition bind {A B} (m : M A) (f : A -> M B) : M B :=
  fun w =>
    let r1 := m w in
    let r2 := f (val r1) (wld r1) in
    mk_outcome (val r2) (wld r2) (eff r1 ++ eff r2).

Declare Scope fw_scope.
Delimit Scope fw_scope with fw.
Notation "x <- m ;; k" := (bind m (fun x => k))
  (at level 100, m at next level, right associativity) : fw_scope.
Notation "m ;;; k" := (bind m (fun _ => k))
  (at level 100, right associativity) : fw_scope.

Definition gets {A} (f : world -> A) : M A := fun w => mk_outcome (f w) w [].
Definition modify (f : world -> world) : M unit :=
  fun w => mk_outcome tt (f w) [].
Definition emit (e : effect) : M unit := fun w => mk_outcome tt w [e].
Definition skip : M unit := ret tt.

(** The world after, and the library calls made by, a procedure. *)
Definition exec {A} (m : M A) (w : world) : world := wld (m w).
Definition calls {A} (m : M A) (w : world) : list effect := eff (m w).

(** ** Indicator manager *)

(** [init_indicator]: fills [g_indicators[idx]], makes the pin an output
    and drives it with [~active_level]. *)
Definition init_indicator (idx : nat) (pin : Z) (al : bool) : M unit :=
  (modify (fun w =>
     with_indicators w
       (<[idx := mk_indicator (-1) pin al INDICATOR_OFF]> (g_indicators w))) ;;;
   emit (pinMode pin OUTPUT) ;;;
   emit (digitalWrite pin (Z.lnot (Z.b2z al))))%fw.

(** The [switch] of [set_indicator], run on the element [i] that the
    reference [s_indicator& i = g_indicators[idx]] designates.  [h] is the
    value the Timer library returns if a registration call is made.  The
    arguments of library calls are recorded as the sketch computes them. *)
Definition set_indicator_switch (h : Z) (i : s_indicator)
    (new_state period : Z) : s_indicator * list effect :=
  if new_state =? INDICATOR_OFF then
    if negb (state i =? INDICATOR_OFF) then
      let stopped :=
        if negb (event_id i =? -1)
        then (with_event_id i (-1), [t_stop (event_id i)])
        else (i, []) in
      (with_state stopped.1 INDICATOR_OFF,
       stopped.2 ++ [digitalWrite (io_pin i) (Z.lnot (Z.b2z (active_level i)))])
    else (i, [])
  else if new_state =? INDICATOR_ON then
    if negb (state i =? INDICATOR_ON) then
      let stopped :=
        if negb (event_id i =? -1)
        then (with_event_id i (-1), [t_stop (event_id i)])
        else (i, []) in
      (with_state stopped.1 INDICATOR_ON,
       stopped.2 ++ [digitalWrite (io_pin i) (Z.b2z (active_level i))])
    else (i, [])
  else if new_state =? INDICATOR_BLINK then
    if negb (state i =? INDICATOR_BLINK) && (event_id i =? -1) then
      (with_state (with_event_id i h) INDICATOR_BLINK,
       [t_oscillate (io_pin i) period (Z.b2z (active_level i)) h])
    else (i, [])
  else if new_state =? INDICATOR_PULSE then
    if event_id i =? -1 then
      (with_state (with_event_id i h) INDICATOR_PULSE,
       [t_pulseImmediate (io_pin i) period (Z.b2z (active_level i)) h])
    else (i, [])
  else (i, []).

(** A call of [t.oscillate] or [t.pulseImmediate]. *)
Definition is_timer_call (e : effect) : bool :=
  match e with
  | t_oscillate _ _ _ _ | t_pulseImmediate _ _ _ _ => true
  | _ => false
  end.

(** [set_indicator(idx, state, period)].  An [idx] outside the array is
    undefined behaviour in the sketch (every call site passes an
    enumerator); the model leaves the machine unchanged there. *)
Definition set_indicator (idx : nat) (new_state period : Z) : M unit :=
  fun w =>
    match g_indicators w !! idx with
    | Some i =>
        let r := set_indicator_switch (timer_ids w (timer_calls w)) i
                                      new_state period in
        mk_outcome tt
          (with_timer_calls
             (with_indicators w (<[idx := r.1]> (g_indicators w)))
             (timer_calls w + count is_timer_call r.2)%nat)
          r.2
    | None => mk_outcome tt w []
    end.

(** [setup] *)
Definition setup : M unit :=
  (emit (Serial_begin 9600) ;;;
   emit (Serial2_begin 9600) ;;;
   emit (pinMode PIN_BTN_START INPUT_PULLUP) ;;;
   emit (pinMode PIN_BTN_STOP INPUT_PULLUP) ;;;
   emit (pinMode PIN_BTN_FEED INPUT_PULLUP) ;;;
   emit (pinMode PIN_BTN_M1 INPUT_PULLUP) ;;;
   init_indicator ALERT_BEEPER PIN_BEACON_BLUE LOW ;;;
   init_indicator INDICATOR_BEACON_GREEN PIN_BEACON_GREEN LOW ;;;
   init_indicator INDICATOR_BEACON_AMBER PIN_BEACON_AMBER LOW ;;;
   init_indicator INDICATOR_BEACON_RED PIN_BEACON_RED LOW ;;;
   init_indicator INDICATOR_LED_START PIN_LED_START LOW ;;;
   init_indicator INDICATOR_LED_FEED PIN_LED_FEED LOW ;;;
   init_indicator INDICATOR_LED_M1 PIN_LED_M1 LOW ;;;
   init_indicator INDICATOR_LED_RFID PIN_LED_RFID LOW ;;;
   modify (fun w => with_encoder w 1) ;;;
   emit (encoder_maxvel_write 1))%fw.

(** The machine before [setup]: zero-initialised globals, the statics with
    their initialisers ([-1] stored in an [unsigned int] is [2^32 - 1]). *)
Definition power_on (ids : nat -> Z) : world :=
  mk_world (replicate INDICATOR_COUNT (mk_indicator 0 0 false 0))
           (replicate 64%nat 0)
           0
           (mk_rfid RFID_STATE_WAIT_STX 0 (replicate 10%nat 0) (replicate 2%nat 0))
           (mk_rawhid 0 (u32 (-1)) (u32 (-1)))
           ids 0%nat.

(** The machine when [loop] first runs. *)
Definition booted (ids : nat -> Z) : world := exec setup (power_on ids).

(** ** RFID frame decoder *)

(** Store into a C array: [a[idx] = v].  Every index the decoder computes
    from a reachable state is in range; outside the array (undefined
    behaviour in C) the model stores nothing. *)
Definition array_set (a : list Z) (idx : Z) (v : Z) : list Z :=
  if (0 <=? idx) && (idx <? Z.of_nat (length a))
  then <[Z.to_nat idx := v]> a else a.

(** The [for] loop that prints [rfid_buffer[0..9]]. *)
Definition print_rfid_buffer (buf : list Z) : list effect :=
  (fun n => Serial_print (default 0 (buf !! n))) <$> seq 0 10.

(** The [switch (rfid_state)] of [rfid_poll], run on the byte [b] read from
    [Serial2]; the statics are passed and returned explicitly. *)
Definition rfid_switch (b : Z) (r : rfid_statics) : rfid_statics * list effect :=
  if rfid_state r =? RFID_STATE_WAIT_STX then
    if b =? 2 then
      (mk_rfid RFID_STATE_GET_BYTES 10 (rfid_buffer r) (rfid_cksum r), [])
    else (r, [])
  else if rfid_state r =? RFID_STATE_GET_BYTES then
    let buf := array_set (rfid_buffer r) (10 - rfid_byte_count r) b in
    let cnt := u8 (rfid_byte_count r - 1) in
    if cnt =? 0 then
      (mk_rfid RFID_STATE_GET_CKSUM 2 buf (rfid_cksum r), [])
    else (mk_rfid (rfid_state r) cnt buf (rfid_cksum r), [])
  else if rfid_state r =? RFID_STATE_GET_CKSUM then
    let ck := array_set (rfid_cksum r) (2 - rfid_byte_count r) b in
    let cnt := u8 (rfid_byte_count r - 1) in
    if cnt =? 0 then
      (mk_rfid RFID_STATE_WAIT_ETX cnt (rfid_buffer r) ck, [])
    else (mk_rfid (rfid_state r) cnt (rfid_buffer r) ck, [])
  else if rfid_state r =? RFID_STATE_WAIT_ETX then
    (mk_rfid RFID_STATE_WAIT_STX (rfid_byte_count r) (rfid_buffer r) (rfid_cksum r),
     if b =? 3 then
       [Serial_print 2] ++ print_rfid_buffer (rfid_buffer r) ++ [Serial_print 3]
     else [])
  else (r, []).

(** [rfid_poll].  [host] is the byte waiting on [Serial] (the host-facing
    line), [reader] the byte waiting on [Serial2] (the RFID reader), [None]
    when [available()] is zero. *)
Definition rfid_poll (host reader : option Z) : M unit :=
  (match host with
   | Some b =>
       if b =? 50 then set_indicator INDICATOR_LED_RFID INDICATOR_BLINK 500
       else if b =? 49 then set_indicator INDICATOR_LED_RFID INDICATOR_ON 0
       else if b =? 48 then set_indicator INDICATOR_LED_RFID INDICATOR_OFF 0
       else skip
   | None => skip
   end ;;;
   match reader with
   | Some b =>
       fun w => let s := rfid_switch b (rfid w) in
                mk_outcome tt (with_rfid w s.1) s.2
   | None => skip
   end)%fw.

(** ** Host link *)

(** [alert_off], the callback handed to [alert_t.after]. *)
Definition alert_off : M unit := set_indicator ALERT_BEEPER INDICATOR_OFF 0.

(** What [alert_t.update] runs when a registered callback falls due. *)
Definition run_callback (cb : callback) : M unit :=
  match cb with cb_alert_off => alert_off end.

Definition maxvel_lut : list Z :=
  [0; 1; 2; 3; 4; 5; 6; 7; 8; 9; 10; 15; 25; 50; 75; 100].

Definition buffer_get (i : nat) : M Z :=
  gets (fun w => default 0 (buffer w !! i)).
Definition buffer_set (i : nat) (v : Z) : M unit :=
  modify (fun w => with_buffer w (<[i := v]> (buffer w))).

(** [for (int i = first; i < first + count; i++) body(i)] *)
Fixpoint for_loop (first count : nat) (body : nat -> M unit) : M unit :=
  match count with
  | O => skip
  | S c => (body first ;;; for_loop (S first) c body)%fw
  end.

(** [RawHID.recv(buffer, 0)]: [Some pkt] when a packet is waiting (it is
    copied into [buffer], the call returns 64), [None] when none is (the
    call returns 0). *)
Definition RawHID_recv (rx : option (list Z)) : M Z :=
  match rx with
  | Some pkt => (modify (fun w => with_buffer w pkt) ;;; ret 64)%fw
  | None => ret 0
  end.

(** [RawHID.send(buffer, timeout)]: the call is logged with the bytes of
    [buffer] at that moment; [tx] is what it returns. *)
Definition RawHID_send_buffer (timeout tx : Z) : M Z :=
  fun w => mk_outcome tx w [RawHID_send (buffer w) timeout tx].

Definition encoder_write (v : Z) : M unit :=
  (modify (fun w => with_encoder w v) ;;; emit (encoder_maxvel_write v))%fw.

Definition set_run_state (v : Z) : M unit :=
  modify (fun w => with_hid w
    (mk_rawhid (packetCount (hid w)) v (last_run_state (hid w)))).

(** [rawhid_poll] is embedded block by block, one definition for each
    commented block of its body, in source order. *)

(** "state-run": the run-state byte, the alert on the edge into RUNNING,
    and [last_run_state = run_state]. *)
Definition rawhid_state_run : M unit :=
  (b0 <- buffer_get 0 ;;
   (if b0 =? 1 then
      set_indicator INDICATOR_BEACON_GREEN INDICATOR_ON 0 ;;;
      set_indicator INDICATOR_LED_START INDICATOR_ON 0 ;;;
      set_run_state 1
    else if b0 =? 2 then
      set_indicator INDICATOR_BEACON_GREEN INDICATOR_BLINK 500 ;;;
      set_indicator INDICATOR_LED_START INDICATOR_BLINK 500 ;;;
      set_run_state 2
    else
      set_indicator INDICATOR_BEACON_GREEN INDICATOR_OFF 0 ;;;
      set_indicator INDICATOR_LED_START INDICATOR_OFF 0 ;;;
      set_run_state 0) ;;;
   last <- gets (fun w => last_run_state (hid w)) ;;
   cur <- gets (fun w => run_state (hid w)) ;;
   (if negb (last =? 1) && (cur =? 1) then
      (* turn on alert for 5 seconds if going from paused or stopped to
         running *)
      set_indicator ALERT_BEEPER INDICATOR_ON 0 ;;;
      emit (alert_t_after 5000 cb_alert_off)
    else skip) ;;;
   modify (fun w => with_hid w
     (mk_rawhid (packetCount (hid w)) (run_state (hid w)) (run_state (hid w)))))%fw.

(** "state-alarm" *)
Definition rawhid_state_alarm : M unit :=
  (b1 <- buffer_get 1 ;;
   if b1 =? 1 then set_indicator INDICATOR_BEACON_RED INDICATOR_ON 0
   else if b1 =? 2 then set_indicator INDICATOR_BEACON_RED INDICATOR_BLINK 250
   else set_indicator INDICATOR_BEACON_RED INDICATOR_OFF 0)%fw.

(** "state-m1" *)
Definition rawhid_state_m1 : M unit :=
  (b5 <- buffer_get 5 ;;
   if b5 =? 1 then set_indicator INDICATOR_LED_M1 INDICATOR_ON 0
   else set_indicator INDICATOR_LED_M1 INDICATOR_OFF 0)%fw.

(** "state-feed-hold" *)
Definition rawhid_state_feed_hold : M unit :=
  (b6 <- buffer_get 6 ;;
   if b6 =? 1 then set_indicator INDICATOR_LED_FEED INDICATOR_ON 0
   else set_indicator INDICATOR_LED_FEED INDICATOR_OFF 0)%fw.

(** "send packet in response to the poll": the buffer is cleared and
    refilled, the knob is read and clamped, the amber beacon follows the
    mapped value, and the packet is sent.  [tx] is what [RawHID.send]
    returns. *)
Definition rawhid_send_response (tx : Z) : M unit :=
  (for_loop 0 63 (fun i => buffer_set i 0) ;;;
   buffer_set 0 66 ;;;
   buffer_set 1 66 ;;;
   (* maxvel knob *)
   maxvel <- gets encoder_maxvel ;;
   maxvel <- (if maxvel <? 0 then encoder_write 0 ;;; ret 0 else ret maxvel) ;;
   maxvel <- (if maxvel >? 15 then encoder_write 15 ;;; ret 15 else ret maxvel) ;;
   let new_maxvel := default 0 (maxvel_lut !! Z.to_nat maxvel) in
   buffer_set 2 (highByte new_maxvel) ;;;
   buffer_set 3 (lowByte new_maxvel) ;;;
   (if new_maxvel =? 0 then
      set_indicator INDICATOR_BEACON_AMBER INDICATOR_BLINK 100
    else if new_maxvel =? 100 then
      set_indicator INDICATOR_BEACON_AMBER INDICATOR_OFF 0
    else set_indicator INDICATOR_BEACON_AMBER INDICATOR_ON 0) ;;;
   (* and put a count of packets sent at the end *)
   count <- gets (fun w => packetCount (hid w)) ;;
   buffer_set 62 (highByte count) ;;;
   buffer_set 63 (lowByte count) ;;;
   sent <- RawHID_send_buffer 100 tx ;;
   if sent >? 0 then
     modify (fun w => with_hid w
       (mk_rawhid (u32 (packetCount (hid w) + 1)) (run_state (hid w))
                  (last_run_state (hid w))))
   else skip)%fw.

(** [rawhid_poll].  [rx] is what [RawHID.recv] delivers, [tx] what
    [RawHID.send] returns.  The byte read into [pathpilot_maxvel]
    ("state-maxvel-override") is not used afterwards. *)
Definition rawhid_poll (rx : option (list Z)) (tx : Z) : M unit :=
  (n <- RawHID_recv rx ;;
   if n =? 64 then
     rawhid_state_run ;;;
     rawhid_state_alarm ;;;
     pathpilot_maxvel <- buffer_get 4 ;;
     rawhid_state_m1 ;;;
     rawhid_state_feed_hold ;;;
     rawhid_send_response tx
   else skip)%fw.

(** ** Buttons *)

(** The arguments the sketch passes to the keyboard object: [0] or
    [MODIFIERKEY_ALT] as modifier, [0] or one of four key codes as key. *)
Inductive modifier : Type := MODIFIER_NONE | MODIFIERKEY_ALT.
Inductive keycode : Type := KEY_NONE | KEY_R | KEY_ESC | KEY_SPACE | KEY_K.

Inductive keyboard_call : Type :=
| Keyboard_set_modifier (m : modifier)
| Keyboard_set_key1 (k : keycode)
| Keyboard_send_now.

(** What the four Bounce objects report after their [update()]. *)
Record button_edges : Type := mk_edges {
  start_rising : bool;
  stop_falling : bool;
  feed_falling : bool;
  m1_falling : bool
}.

(** [button_poll]: the keyboard calls it makes, in order. *)
Definition button_poll (e : button_edges) : list keyboard_call :=
  (if start_rising e then
     [Keyboard_set_modifier MODIFIERKEY_ALT; Keyboard_send_now;
      Keyboard_set_key1 KEY_R; Keyboard_send_now;
      Keyboard_set_key1 KEY_NONE; Keyboard_send_now;
      Keyboard_set_modifier MODIFIER_NONE; Keyboard_send_now]
   else [])
  ++ (if stop_falling e then
        [Keyboard_set_modifier MODIFIER_NONE; Keyboard_set_key1 KEY_ESC;
         Keyboard_send_now;
         Keyboard_set_modifier MODIFIER_NONE; Keyboard_set_key1 KEY_NONE;
         Keyboard_send_now]
      else [])
  ++ (if feed_falling e then
        [Keyboard_set_modifier MODIFIER_NONE; Keyboard_set_key1 KEY_SPACE;
         Keyboard_send_now;
         Keyboard_set_modifier MODIFIER_NONE; Keyboard_set_key1 KEY_NONE;
         Keyboard_send_now]
      else [])
  ++ (if m1_falling e then
        [Keyboard_set_modifier MODIFIERKEY_ALT; Keyboard_send_now;
         Keyboard_set_key1 KEY_K; Keyboard_send_now;
         Keyboard_set_key1 KEY_NONE; Keyboard_send_now;
         Keyboard_set_modifier MODIFIER_NONE; Keyboard_send_now]
      else []).

(** ** The main loop *)

(** What one iteration of [loop] receives from outside the sketch: how many
    [alert_off] callbacks [alert_t.update()] finds due, how far the
    encoder's interrupt handler has moved the position since the last
    iteration, the bytes waiting on the two serial lines, the button edges,
    and what [RawHID.recv] and [RawHID.send] deliver. *)
Record loop_input : Type := mk_loop_input {
  alert_due : nat;
  knob_steps : Z;
  host_byte : option Z;
  reader_byte : option Z;
  edges : button_edges;
  hid_rx : option (list Z);
  hid_tx : Z
}.

Fixpoint repeat_proc (n : nat) (m : M unit) : M unit :=
  match n with
  | O => skip
  | S n' => (m ;;; repeat_proc n' m)%fw
  end.

(** The Encoder library keeps the position in an [int32_t], and its
    interrupt handler adds the movement of the knob to it, wrapping around
    at the ends of that range.  Without movement the handler does not run
    and the position stays as it is. *)
Definition encoder_moved (pos steps : Z) : Z :=
  if steps =? 0 then pos else s32 (pos + steps).

(** The part of [loop] before [button_poll]: the movement of the knob
    since the last iteration takes effect; [t.update()] runs no code of the
    sketch (the library toggles the blinking pins itself);
    [alert_t.update()] runs the callbacks that are due; then
    [rfid_poll()]. *)
Definition loop_before (i : loop_input) : M unit :=
  (modify (fun w =>
     with_encoder w (encoder_moved (encoder_maxvel w) (knob_steps i))) ;;;
   repeat_proc (alert_due i) (run_callback cb_alert_off) ;;;
   rfid_poll (host_byte i) (reader_byte i))%fw.

(** [loop].  The result is the machine afterwards and the calls made, in
    order, board calls and keyboard calls together. *)
Definition loop (i : loop_input) (w : world)
  : world * list (effect + keyboard_call) :=
  let before := loop_before i w in
  let keys := button_poll (edges i) in
  let after := rawhid_poll (hid_rx i) (hid_tx i) (wld before) in
  (wld after, (inl <$> eff before) ++ (inr <$> keys) ++ (inl <$> eff after)).

(** Successive iterations of [loop]. *)
Fixpoint run_loop (ins : list loop_input) (w : world)
  : world * list (effect + keyboard_call) :=
  match ins with
  | [] => (w, [])
  | i :: ins' =>
      let r := loop i w in
      let t := run_loop ins' r.1 in
      (t.1, r.2 ++ t.2)
  end.

(** ** Vocabulary of the properties *)

(** A pin driven by the sketch itself. *)
Definition is_pin_drive (e : effect) : bool :=
  match e with digitalWrite _ _ => true | _ => false end.

(** A registration made by the Timer library: the library answers -1 (its
    [NO_TIMER_AVAILABLE]) when it has no free slot and registers nothing,
    and the id of the new event otherwise.  -1 is also the value the
    sketch keeps in [event_id] for "no handle". *)
Definition is_registration (e : effect) : bool :=
  match e with
  | t_oscillate _ _ _ r | t_pulseImmediate _ _ _ r => negb (r =? -1)
  | _ => false
  end.

Fixpoint remove_first (x : Z) (l : list Z) : list Z :=
  match l with
  | [] => []
  | y :: l' => if y =? x then l' else y :: remove_first x l'
  end.

(** The handles registered and not yet cancelled with [t.stop], along a
    log of library calls. *)
Definition outstanding_step (acc : list Z) (e : effect) : list Z :=
  match e with
  | t_oscillate _ _ _ r | t_pulseImmediate _ _ _ r =>
      if r =? -1 then acc else acc ++ [r]
  | t_stop id => remove_first id acc
  | _ => acc
  end.
Definition outstanding (log : list effect) : list Z :=
  fold_left outstanding_step log [].

(** A sequence of [set_indicator] calls, each [(idx, state, period)]. *)
Fixpoint set_indicator_seq (cs : list (nat * Z * Z)) : M unit :=
  match cs with
  | [] => skip
  | c :: cs' => (set_indicator c.1.1 c.1.2 c.2 ;;; set_indicator_seq cs')%fw
  end.

(** The library calls that the calls of [cs] aimed at indicator [idx] make,
    when [cs] runs from [w]. *)
Fixpoint calls_on (idx : nat) (cs : list (nat * Z * Z)) (w : world)
  : list effect :=
  match cs with
  | [] => []
  | c :: cs' =>
      (if Nat.eqb c.1.1 idx then calls (set_indicator c.1.1 c.1.2 c.2) w else [])
      ++ calls_on idx cs' (exec (set_indicator c.1.1 c.1.2 c.2) w)
  end.

(** What [event_id] says is outstanding. *)
Definition recorded (i : s_indicator) : list Z :=
  if event_id i =? -1 then [] else [event_id i].

(** Mode and handle agree: no handle while OFF or ON. *)
Definition handle_consistent (i : s_indicator) : Prop :=
  state i = INDICATOR_OFF \/ state i = INDICATOR_ON -> event_id i = -1.

(** Successive iterations of [loop], as far as [rfid_poll] goes: each
    element is the pair of bytes waiting on the two serial lines. *)
Fixpoint rfid_polls (ins : list (option Z * option Z)) : M unit :=
  match ins with
  | [] => skip
  | x :: ins' => (rfid_poll x.1 x.2 ;;; rfid_polls ins')%fw
  end.

(** The bytes the RFID reader delivered during those iterations. *)
Definition reader_bytes (ins : list (option Z * option Z)) : list Z :=
  omap snd ins.

(** The decoder alone, fed a byte sequence. *)
Fixpoint rfid_run (bs : list Z) (r : rfid_statics) : rfid_statics * list effect :=
  match bs with
  | [] => (r, [])
  | b :: bs' =>
      let s := rfid_switch b r in
      let t := rfid_run bs' s.1 in
      (t.1, s.2 ++ t.2)
  end.

(** The bytes printed on the host-facing serial line. *)
Definition serial_out (log : list effect) : list Z :=
  omap (fun e => match e with Serial_print b => Some b | _ => None end) log.

(** The packets handed to [RawHID.send]. *)
Definition sent_packets (log : list effect) : list (list Z) :=
  omap (fun e => match e with RawHID_send buf _ _ => Some buf | _ => None end) log.

Definition is_alert_after (e : effect) : bool :=
  match e with alert_t_after _ _ => true | _ => false end.

(** The calls [set_indicator] can make. *)
Definition is_indicator_call (e : effect) : bool :=
  match e with
  | digitalWrite _ _ | t_stop _ | t_oscillate _ _ _ _
  | t_pulseImmediate _ _ _ _ => true
  | _ => false
  end.

(** A raw knob position clamped into [0, 15]. *)
Definition clamp15 (r : Z) : Z := Z.max 0 (Z.min 15 r).

(** The 64-byte device status packet for a mapped knob value and a send
    counter: marker, value, zero fill, counter. *)
Definition device_packet (new_maxvel count : Z) : list Z :=
  [66; 66; highByte new_maxvel; lowByte new_maxvel]
  ++ replicate 58%nat 0 ++ [highByte count; lowByte count].

(** The mode of an indicator in a machine state. *)
Definition mode_of (w : world) (idx : nat) : option Z :=
  state <$> g_indicators w !! idx.

(** The handles indicator [idx] has outstanding are those its [event_id]
    records, and mode and handle agree. *)
Definition tracked (idx : nat) (w : world) (acc : list Z) : Prop :=
  match g_indicators w !! idx with
  | Some i => acc = recorded i /\ handle_consistent i
  | None => acc = []
  end.

(** The value the knob position [r] maps to. *)
Definition lut_value (r : Z) : Z :=
  default 0 (maxvel_lut !! Z.to_nat (clamp15 r)).

(** The run state [rawhid_poll] records for a run-state byte. *)
Definition run_state_of (b0 : Z) : Z :=
  if b0 =? 1 then 1 else if b0 =? 2 then 2 else 0.

(** [wp m w Q]: running [m] from [w] gives a result, a machine and a log of
    calls that satisfy [Q]. *)
Definition wp {A} (m : M A) (w : world)
    (Q : A -> world -> list effect -> Prop) : Prop :=
  Q (val (m w)) (wld (m w)) (eff (m w)).

(** The pin each indicator is wired to in [setup]. *)
Definition pin_of (idx : nat) : Z :=
  nth idx [PIN_BEACON_BLUE; PIN_BEACON_GREEN; PIN_BEACON_AMBER; PIN_BEACON_RED;
           PIN_LED_START; PIN_LED_FEED; PIN_LED_M1; PIN_LED_RFID] 0.

(** How the running sketch keeps an indicator: wired as in [setup], active
    low, in one of the modes OFF, ON, BLINK (PULSE is never requested), and
    without a handle while OFF or ON. *)
Definition indicator_ok (idx : nat) (i : s_indicator) : Prop :=
  io_pin i = pin_of idx /\ active_level i = LOW
  /\ (state i = INDICATOR_OFF \/ state i = INDICATOR_ON
      \/ state i = INDICATOR_BLINK)
  /\ (state i = INDICATOR_OFF \/ state i = INDICATOR_ON -> event_id i = -1).

Definition indicators_ok (g : list s_indicator) : Prop :=
  length g = INDICATOR_COUNT
  /\ forall idx i, g !! idx = Some i -> indicator_ok idx i.

(** A mode the sketch requests somewhere. *)
Definition requested_mode (s : Z) : Prop :=
  s = INDICATOR_OFF \/ s = INDICATOR_ON \/ s = INDICATOR_BLINK.

(** What the decoder keeps true of its statics: the two arrays have their
    declared lengths, and the remaining-byte count fits the state. *)
Definition rfid_ok (r : rfid_statics) : Prop :=
  length (rfid_buffer r) = 10%nat /\ length (rfid_cksum r) = 2%nat
  /\ (rfid_state r = RFID_STATE_WAIT_STX
      \/ (rfid_state r = RFID_STATE_GET_BYTES /\ 1 <= rfid_byte_count r <= 10)
      \/ (rfid_state r = RFID_STATE_GET_CKSUM /\ 1 <= rfid_byte_count r <= 2)
      \/ rfid_state r = RFID_STATE_WAIT_ETX).

(** How many bytes of the current frame the decoder has taken. *)
Definition rfid_pos (r : rfid_statics) : Z :=
  if rfid_state r =? RFID_STATE_WAIT_STX then 0
  else if rfid_state r =? RFID_STATE_GET_BYTES then 11 - rfid_byte_count r
  else if rfid_state r =? RFID_STATE_GET_CKSUM then 13 - rfid_byte_count r
  else 13.

(** A stream of frames from the reader, each preceded by bytes that are
    not STX: an element is (bytes before the frame, payload, checksum). *)
Fixpoint frame_stream (fs : list (list Z * list Z * list Z)) : list Z :=
  match fs with
  | [] => []
  | f :: fs' => f.1.1 ++ ([2] ++ f.1.2 ++ f.2 ++ [3]) ++ frame_stream fs'
  end.

(** What the decoder is to forward for such a stream. *)
Fixpoint forwarded (fs : list (list Z * list Z * list Z)) : list Z :=
  match fs with
  | [] => []
  | f :: fs' => ([2] ++ f.1.2 ++ [3]) ++ forwarded fs'
  end.

Definition frames_ok (fs : list (list Z * list Z * list Z)) : Prop :=
  Forall (fun f => Forall (fun b => b <> 2) f.1.1
                   /\ length f.1.2 = 10%nat /\ length f.2 = 2%nat) fs.

(** The keyboard object as the sketch uses it: [set_modifier] and
    [set_key1] store into the report under construction, [send_now]
    transmits that report.  A report is the modifier and the first key. *)
Definition keyboard_report : Type := modifier * keycode.

Definition released : keyboard_report := (MODIFIER_NONE, KEY_NONE).

(** The reports a sequence of keyboard calls transmits, and the report
    left under construction, from the report [st]. *)
Fixpoint keyboard_reports (st : keyboard_report) (cs : list keyboard_call)
  : keyboard_report * list keyboard_report :=
  match cs with
  | [] => (st, [])
  | Keyboard_set_modifier m :: cs' => keyboard_reports (m, st.2) cs'
  | Keyboard_set_key1 k :: cs' => keyboard_reports (st.1, k) cs'
  | Keyboard_send_now :: cs' =>
      let r := keyboard_reports st cs' in (r.1, st :: r.2)
  end.

(** The modes [rawhid_poll] requests: for a run-state or alarm-state byte,
    for a flag byte, and for the mapped knob value. *)
Definition state_mode (b : Z) : Z :=
  if b =? 1 then INDICATOR_ON
  else if b =? 2 then INDICATOR_BLINK else INDICATOR_OFF.
Definition flag_mode (b : Z) : Z :=
  if b =? 1 then INDICATOR_ON else INDICATOR_OFF.
Definition amber_mode (v : Z) : Z :=
  if v =? 0 then INDICATOR_BLINK
  else if v =? 100 then INDICATOR_OFF else INDICATOR_ON.

(** What [rawhid_poll] keeps true of its statics: the counter is an
    [unsigned int], and between polls [last_run_state] equals
    [run_state], which is still at its initialiser or one of 0, 1, 2. *)
Definition hid_ok (h : rawhid_statics) : Prop :=
  0 <= packetCount h < 4294967296
  /\ last_run_state h = run_state h
  /\ (run_state h = u32 (-1) \/ run_state h = 0 \/ run_state h = 1
      \/ run_state h = 2).

(** The invariant of the running sketch. *)
Definition machine_ok (w : world) : Prop :=
  indicators_ok (g_indicators w) /\ rfid_ok (rfid w) /\ hid_ok (hid w)
  /\ length (buffer w) = 64%nat.

(** [RawHID.recv] delivers packets of 64 bytes. *)
Definition inputs_ok (ins : list loop_input) : Prop :=
  Forall (fun i => forall pkt, hid_rx i = Some pkt -> length pkt = 64%nat) ins.

(** The board calls and the keyboard calls in a log of [loop]. *)
Definition board_calls (l : list (effect + keyboard_call)) : list effect :=
  omap (fun c => match c with inl e => Some e | inr _ => None end) l.
Definition key_calls (l : list (effect + keyboard_call)) : list keyboard_call :=
  omap (fun c => match c with inr k => Some k | inl _ => None end) l.

(** The iterations in which a packet was received and its answer sent
    successfully. *)
Definition sends_ok (ins : list loop_input) : nat :=
  length (List.filter
            (fun i => match hid_rx i with
                      | Some _ => hid_tx i >? 0
                      | None => false
                      end) ins).

(** A procedure that leaves the decoder's statics alone and prints nothing
    on the host-facing serial line. *)
Definition decoder_untouched {A} (m : M A) : Prop :=
  forall w, rfid (exec m w) = rfid w /\ serial_out (calls m w) = [].

(** An iteration of [loop] in which nothing arrives and nothing is due. *)
Definition idle_input : loop_input :=
  mk_loop_input 0 0 None None (mk_edges false false false false) None 0.

(** Two buffers of 64 bytes that agree at the indices in [P]. *)
Definition buffers_agree (P : nat -> Prop) (b1 b2 : list Z) : Prop :=
  length b1 = 64%nat /\ length b2 = 64%nat
  /\ forall i, P i -> b1 !! i = b2 !! i.

(** A procedure that neither reads nor writes [buffer]. *)
Definition buffer_blind {A} (m : M A) : Prop :=
  forall w b,
    m (with_buffer w b)
    = mk_outcome (val (m w)) (with_buffer (wld (m w)) b) (eff (m w)).

(** Run on two machines that differ in [buffer] only, and there only at
    indices outside [P], the procedure returns the same value, makes the
    same calls, and leaves two machines that differ in [buffer] only, at
    indices outside [P']. *)
Definition lockstep {A} (P P' : nat -> Prop) (m : M A) : Prop :=
  forall w b1 b2,
    buffers_agree P b1 b2 ->
    val (m (with_buffer w b1)) = val (m (with_buffer w b2))
    /\ eff (m (with_buffer w b1)) = eff (m (with_buffer w b2))
    /\ exists w' b1' b2',
         wld (m (with_buffer w b1)) = with_buffer w' b1'
         /\ wld (m (with_buffer w b2)) = with_buffer w' b2'
         /\ buffers_agree P' b1' b2'.


(** The indicators the sketch switches ON and OFF and never blinks. *)
Definition never_blinks (idx : nat) : Prop :=
  idx = ALERT_BEEPER \/ idx = INDICATOR_LED_M1 \/ idx = INDICATOR_LED_FEED.

Definition steady_only (w : world) : Prop :=
  forall idx, never_blinks idx ->
    mode_of w idx = Some INDICATOR_OFF \/ mode_of w idx = Some INDICATOR_ON.

(** The timer handles the indicator array records. *)
Definition recorded_handles (w : world) : list Z :=
  flat_map recorded (g_indicators w).


(** The knob position after an iteration of [loop]: the movement since the
    last iteration is added in the library's 32-bit counter, and the result
    is clamped when a packet is processed. *)
Definition knob_step (pos : Z) (i : loop_input) : Z :=
  match hid_rx i with
  | Some _ => clamp15 (encoder_moved pos (knob_steps i))
  | None => encoder_moved pos (knob_steps i)
  end.


(** The number of times a run of [loop] processes a packet that takes the
    run state to RUNNING from another state; [last] is [last_run_state]
    when the run begins. *)
Fixpoint edges_into_running (last : Z) (ins : list loop_input) : nat :=
  match ins with
  | [] => 0
  | i :: ins' =>
      match hid_rx i with
      | Some pkt =>
          let cur := run_state_of (default 0 (pkt !! 0%nat)) in
          let edge := negb (last =? 1) && (cur =? 1) in
          ((if edge then 1 else 0) + edges_into_running cur ins')%nat
      | None => edges_into_running last ins'
      end
  end.


(** Case analysis on every integer comparison in the goal. *)
Ltac split_eqb :=
  repeat (simpl in *;
          match goal with
          | |- context [Z.eqb ?a ?b] =>
              destruct (Z.eqb_spec a b); try subst; try lia
          end).

(** ** The monad and the frame of [set_indicator] *)

Lemma exec_bind {A B} (m : M A) (f : A -> M B) w :
  exec (bind m f) w = exec (f (val (m w))) (exec m w).
Proof. reflexivity. Qed.

Lemma calls_bind {A B} (m : M A) (f : A -> M B) w :
  calls (bind m f) w = calls m w ++ calls (f (val (m w))) (exec m w).
Proof. reflexivity. Qed.

Lemma world_eta w :
  mk_world (g_indicators w) (buffer w) (encoder_maxvel w) (rfid w) (hid w)
           (timer_ids w) (timer_calls w) = w.
Proof. destruct w; reflexivity. Qed.

Section SetIndicatorFrame.
Variables (idx : nat) (s p : Z) (w : world).

Lemma set_indicator_buffer : buffer (wld (set_indicator idx s p w)) = buffer w.
Proof. unfold set_indicator; destruct (g_indicators w !! idx); reflexivity. Qed.

Lemma set_indicator_encoder :
  encoder_maxvel (wld (set_indicator idx s p w)) = encoder_maxvel w.
Proof. unfold set_indicator; destruct (g_indicators w !! idx); reflexivity. Qed.

Lemma set_indicator_rfid : rfid (wld (set_indicator idx s p w)) = rfid w.
Proof. unfold set_indicator; destruct (g_indicators w !! idx); reflexivity. Qed.

Lemma set_indicator_hid : hid (wld (set_indicator idx s p w)) = hid w.
Proof. unfold set_indicator; destruct (g_indicators w !! idx); reflexivity. Qed.

Lemma set_indicator_timer_ids :
  timer_ids (wld (set_indicator idx s p w)) = timer_ids w.
Proof. unfold set_indicator; destruct (g_indicators w !! idx); reflexivity. Qed.

Lemma set_indicator_length :
  length (g_indicators (wld (set_indicator idx s p w))) = length (g_indicators w).
Proof.
  unfold set_indicator; destruct (g_indicators w !! idx); simpl;
    [apply length_insert | reflexivity].
Qed.

Lemma set_indicator_other j :
  j <> idx ->
  g_indicators (wld (set_indicator idx s p w)) !! j = g_indicators w !! j.
Proof.
  intros Hne. unfold set_indicator; destruct (g_indicators w !! idx); simpl;
    [apply list_lookup_insert_ne; congruence | reflexivity].
Qed.

Lemma set_indicator_same i :
  g_indicators w !! idx = Some i ->
  g_indicators (wld (set_indicator idx s p w)) !! idx
    = Some (set_indicator_switch (timer_ids w (timer_calls w)) i s p).1
  /\ eff (set_indicator idx s p w)
    = (set_indicator_switch (timer_ids w (timer_calls w)) i s p).2.
Proof.
  intros Hi. unfold set_indicator. rewrite Hi. simpl. split; [|reflexivity].
  apply list_lookup_insert_eq. eapply lookup_lt_Some, Hi.
Qed.

Lemma set_indicator_absent :
  g_indicators w !! idx = None -> set_indicator idx s p w = mk_outcome tt w [].
Proof. intros Hi. unfold set_indicator. rewrite Hi. reflexivity. Qed.
End SetIndicatorFrame.

(** ** Indicator manager: PULSE requests *)

(** C1, as the sketch has it.  [set_indicator(idx, INDICATOR_PULSE, period)]
    registers a one-shot pulse timer exactly when no handle is recorded on
    the indicator ([event_id] is -1): the call made is
    [t.pulseImmediate(io_pin, period, active_level)], its result is
    recorded and the mode becomes PULSE.  While a handle is still recorded
    (from an earlier PULSE or from a BLINK) the call does nothing: no timer
    is registered and the machine is unchanged. *)
Theorem set_indicator_pulse_guarded (w : world) (idx : nat) (i : s_indicator)
    (period : Z) :
  g_indicators w !! idx = Some i ->
  let h := timer_ids w (timer_calls w) in
  (event_id i = -1 ->
     calls (set_indicator idx INDICATOR_PULSE period) w
       = [t_pulseImmediate (io_pin i) period (Z.b2z (active_level i)) h]
     /\ g_indicators (exec (set_indicator idx INDICATOR_PULSE period) w) !! idx
       = Some (mk_indicator h (io_pin i) (active_level i) INDICATOR_PULSE))
  /\ (event_id i <> -1 ->
     calls (set_indicator idx INDICATOR_PULSE period) w = []
     /\ exec (set_indicator idx INDICATOR_PULSE period) w = w).
Proof.
  intros Hi h. unfold calls, exec.
  destruct (set_indicator_same idx INDICATOR_PULSE period w i Hi) as [Hg He].
  split; intros Hev.
  - rewrite He, Hg. unfold set_indicator_switch. simpl.
    rewrite Hev. simpl. split; reflexivity.
  - split.
    + rewrite He. unfold set_indicator_switch. simpl.
      destruct (Z.eqb_spec (event_id i) (-1)); [contradiction | reflexivity].
    + unfold set_indicator. rewrite Hi. unfold set_indicator_switch. simpl.
      destruct (Z.eqb_spec (event_id i) (-1)); [contradiction |]. simpl.
      rewrite (list_insert_id _ _ _ Hi), Nat.add_0_r.
      unfold with_timer_calls, with_indicators. simpl. apply world_eta.
Qed.

Lemma set_indicator_pulse_guarded_witness :
  let w := exec (set_indicator INDICATOR_LED_RFID INDICATOR_PULSE 100)
                (booted (fun _ => 4)) in
  calls (set_indicator INDICATOR_LED_RFID INDICATOR_PULSE 100) w = []
  /\ exec (set_indicator INDICATOR_LED_RFID INDICATOR_PULSE 100) w = w.
Proof.
  intros w.
  refine (proj2 (set_indicator_pulse_guarded w INDICATOR_LED_RFID
                   (mk_indicator 4 PIN_LED_RFID LOW INDICATOR_PULSE) 100 _) _).
  - reflexivity.
  - simpl. lia.
Defined.

(** C1 as stated fails: after a first PULSE on the RFID LED the handle 4 it
    got is still recorded, and a second PULSE request registers nothing. *)
Lemma pulse_blocked_by_stale_handle :
  let w := exec (set_indicator INDICATOR_LED_RFID INDICATOR_PULSE 100)
                (booted (fun _ => 4)) in
  g_indicators w !! INDICATOR_LED_RFID
    = Some (mk_indicator 4 PIN_LED_RFID LOW INDICATOR_PULSE)
  /\ count is_timer_call
       (calls (set_indicator INDICATOR_LED_RFID INDICATOR_PULSE 100) w) = 0%nat.
Proof. split; reflexivity. Qed.

(** ** Indicator manager: idempotence *)

Lemma set_indicator_switch_twice h1 h2 i s p1 p2 :
  let r1 := set_indicator_switch h1 i s p1 in
  let r2 := set_indicator_switch h2 r1.1 s p2 in
  (count is_registration (r1.2 ++ r2.2) <= 1)%nat
  /\ (count is_pin_drive (r1.2 ++ r2.2) <= 1)%nat
  /\ (count (fun e => is_pin_drive e || is_registration e) (r1.2 ++ r2.2) <= 1)%nat
  /\ ((count is_timer_call (r1.2 ++ r2.2) <= 1)%nat
      \/ (s = INDICATOR_PULSE /\ event_id i = -1 /\ h1 = -1)).
Proof.
  unfold set_indicator_switch, INDICATOR_OFF, INDICATOR_ON,
    INDICATOR_BLINK, INDICATOR_PULSE.
  destruct i as [ev pin al st].
  split_eqb; simpl; repeat split; try lia; auto.
Qed.

(** C8.  Two calls of [set_indicator] in a row with the same indicator and
    the same mode, with any two periods, make, together, at most one timer
    registration and drive the pin at most once, from every machine state
    and whatever the Timer library answers; the two together make at most
    one call of either kind (a registration drives the pin inside the
    library).  A second registration call is made only for PULSE after the
    library refused the first one (answered -1), in which case the first
    call registered nothing. *)
Theorem set_indicator_idempotent (w : world) (idx : nat)
    (new_state period1 period2 : Z) :
  let m1 := set_indicator idx new_state period1 in
  let m2 := set_indicator idx new_state period2 in
  let log := calls m1 w ++ calls m2 (exec m1 w) in
  (count is_registration log <= 1)%nat
  /\ (count is_pin_drive log <= 1)%nat
  /\ (count (fun e => is_pin_drive e || is_registration e) log <= 1)%nat
  /\ ((count is_timer_call log <= 1)%nat
      \/ (new_state = INDICATOR_PULSE /\ timer_ids w (timer_calls w) = -1)).
Proof.
  intros m1 m2 log. subst log m1 m2. unfold calls, exec.
  destruct (g_indicators w !! idx) as [i|] eqn:Hi.
  - destruct (set_indicator_same idx new_state period1 w i Hi) as [Hg He].
    destruct (set_indicator_same idx new_state period2 _ _ Hg) as [_ He2].
    rewrite He, He2.
    destruct (set_indicator_switch_twice (timer_ids w (timer_calls w))
      (timer_ids (wld (set_indicator idx new_state period1 w))
         (timer_calls (wld (set_indicator idx new_state period1 w))))
      i new_state period1 period2) as (H1 & H2 & H12 & H3).
    repeat split; try assumption.
    destruct H3 as [H3 | (H3 & _ & H4)]; [left | right]; auto.
  - rewrite (set_indicator_absent idx new_state period1 w Hi). simpl.
    rewrite (set_indicator_absent idx new_state period2 w Hi). simpl.
    repeat split; lia.
Qed.

(** ** Indicator manager: the handle invariant *)

Lemma set_indicator_switch_outstanding h i s p acc :
  acc = recorded i -> handle_consistent i ->
  fold_left outstanding_step (set_indicator_switch h i s p).2 acc
    = recorded (set_indicator_switch h i s p).1
  /\ handle_consistent (set_indicator_switch h i s p).1.
Proof.
  unfold recorded, handle_consistent, set_indicator_switch, INDICATOR_OFF,
    INDICATOR_ON, INDICATOR_BLINK, INDICATOR_PULSE.
  destruct i as [ev pin al st]. simpl. intros -> Hc.
  split_eqb; simpl; rewrite ?Z.eqb_refl; split; try reflexivity; try lia;
    try (intros; assumption); auto.
  all: try (exfalso; lia).
  all: split_eqb; try reflexivity.
Qed.

Lemma tracked_step idx j s p w acc :
  tracked idx w acc ->
  tracked idx (exec (set_indicator j s p) w)
    (fold_left outstanding_step
       ((if Nat.eqb j idx then calls (set_indicator j s p) w else [])) acc).
Proof.
  unfold tracked, exec, calls. intros Ht.
  destruct (Nat.eqb_spec j idx) as [->|Hne].
  - destruct (g_indicators w !! idx) as [i|] eqn:Hi.
    + destruct Ht as [Hacc Hc].
      destruct (set_indicator_same idx s p w i Hi) as [Hg He].
      rewrite Hg, He. apply set_indicator_switch_outstanding; assumption.
    + rewrite (set_indicator_absent idx s p w Hi). simpl. rewrite Hi. exact Ht.
  - rewrite set_indicator_other by congruence. exact Ht.
Qed.

Lemma tracked_seq idx cs : forall w acc,
  tracked idx w acc ->
  tracked idx (exec (set_indicator_seq cs) w)
    (fold_left outstanding_step (calls_on idx cs w) acc).
Proof.
  induction cs as [|c cs IH]; intros w acc Ht; simpl.
  - exact Ht.
  - rewrite fold_left_app. rewrite exec_bind. apply IH.
    apply tracked_step. exact Ht.
Qed.

Lemma tracked_booted ids idx : tracked idx (booted ids) [].
Proof.
  unfold tracked.
  change (g_indicators (booted ids)) with
    [mk_indicator (-1) PIN_BEACON_BLUE LOW INDICATOR_OFF;
     mk_indicator (-1) PIN_BEACON_GREEN LOW INDICATOR_OFF;
     mk_indicator (-1) PIN_BEACON_AMBER LOW INDICATOR_OFF;
     mk_indicator (-1) PIN_BEACON_RED LOW INDICATOR_OFF;
     mk_indicator (-1) PIN_LED_START LOW INDICATOR_OFF;
     mk_indicator (-1) PIN_LED_FEED LOW INDICATOR_OFF;
     mk_indicator (-1) PIN_LED_M1 LOW INDICATOR_OFF;
     mk_indicator (-1) PIN_LED_RFID LOW INDICATOR_OFF].
  do 8 (destruct idx as [|idx]; [split; [reflexivity | intros _; reflexivity]|]).
  reflexivity.
Qed.

(** C9.  From the machine that [setup] leaves, after any sequence of
    [set_indicator] calls (on any indicators, in any modes, whatever the
    Timer library answers), every indicator has at most one handle
    registered and not cancelled, and records no handle ([event_id] is -1)
    whenever its mode is OFF or ON.  The empty sequence is the state right
    after initialisation. *)
Theorem indicator_handle_invariant (ids : nat -> Z) (cs : list (nat * Z * Z))
    (idx : nat) (i : s_indicator) :
  g_indicators (exec (set_indicator_seq cs) (booted ids)) !! idx = Some i ->
  (length (outstanding (calls_on idx cs (booted ids))) <= 1)%nat
  /\ (state i = INDICATOR_OFF \/ state i = INDICATOR_ON -> event_id i = -1).
Proof.
  intros Hi.
  pose proof (tracked_seq idx cs (booted ids) [] (tracked_booted ids idx)) as Ht.
  unfold tracked in Ht. rewrite Hi in Ht. destruct Ht as [Hacc Hc].
  split; [|exact Hc].
  unfold outstanding. rewrite Hacc. unfold recorded.
  destruct (event_id i =? -1); simpl; lia.
Qed.

Lemma indicator_handle_invariant_witness :
  let cs := [(INDICATOR_LED_RFID, INDICATOR_BLINK, 500);
             (INDICATOR_BEACON_RED, INDICATOR_PULSE, 100);
             (INDICATOR_LED_RFID, INDICATOR_ON, 0)] in
  (length (outstanding (calls_on INDICATOR_LED_RFID cs (booted (fun k => Z.of_nat k))))
     <= 1)%nat
  /\ (INDICATOR_ON = INDICATOR_OFF \/ INDICATOR_ON = INDICATOR_ON -> -1 = -1).
Proof.
  intros cs.
  apply (indicator_handle_invariant (fun k => Z.of_nat k) cs INDICATOR_LED_RFID
           (mk_indicator (-1) PIN_LED_RFID LOW INDICATOR_ON)).
  reflexivity.
Defined.

(** ** What [set_indicator] never does *)

Lemma set_indicator_switch_calls h i s p :
  forallb is_indicator_call (set_indicator_switch h i s p).2 = true.
Proof.
  unfold set_indicator_switch. destruct i as [ev pin al st].
  split_eqb; reflexivity.
Qed.

Lemma set_indicator_calls idx s p w :
  forallb is_indicator_call (eff (set_indicator idx s p w)) = true.
Proof.
  unfold set_indicator. destruct (g_indicators w !! idx); simpl;
    [apply set_indicator_switch_calls | reflexivity].
Qed.

Lemma indicator_calls_serial_out l :
  forallb is_indicator_call l = true -> serial_out l = [].
Proof.
  induction l as [|e l IH]; simpl; [reflexivity|].
  intros H. apply andb_prop in H as [He Hl].
  destruct e; try discriminate; simpl; auto.
Qed.

Lemma indicator_calls_sent_packets l :
  forallb is_indicator_call l = true -> sent_packets l = [].
Proof.
  induction l as [|e l IH]; simpl; [reflexivity|].
  intros H. apply andb_prop in H as [He Hl].
  destruct e; try discriminate; simpl; auto.
Qed.

Lemma indicator_calls_alert l :
  forallb is_indicator_call l = true -> List.filter is_alert_after l = [].
Proof.
  induction l as [|e l IH]; simpl; [reflexivity|].
  intros H. apply andb_prop in H as [He Hl].
  destruct e; try discriminate; simpl; auto.
Qed.

Lemma serial_out_app l1 l2 : serial_out (l1 ++ l2) = serial_out l1 ++ serial_out l2.
Proof. apply omap_app. Qed.

Lemma sent_packets_app l1 l2 :
  sent_packets (l1 ++ l2) = sent_packets l1 ++ sent_packets l2.
Proof. apply omap_app. Qed.

(** ** RFID frame decoder *)

(** One poll: the host byte only moves the RFID LED; the reader byte goes
    through the decoder. *)
Lemma rfid_poll_decode host reader w :
  rfid (exec (rfid_poll host reader) w)
    = match reader with Some b => (rfid_switch b (rfid w)).1 | None => rfid w end
  /\ serial_out (calls (rfid_poll host reader) w)
    = match reader with Some b => serial_out (rfid_switch b (rfid w)).2 | None => [] end.
Proof.
  unfold rfid_poll, exec, calls. cbn [bind wld eff].
  set (led := match host with Some b => _ | None => _ end).
  assert (Hr : rfid (wld (led w)) = rfid w).
  { subst led. destruct host as [b|]; [|reflexivity].
    repeat (case (_ =? _)); try reflexivity; apply set_indicator_rfid. }
  assert (Hs : serial_out (eff (led w)) = []).
  { subst led. destruct host as [b|]; [|reflexivity].
    repeat (case (_ =? _)); try reflexivity;
      apply indicator_calls_serial_out, set_indicator_calls. }
  rewrite serial_out_app, Hs. destruct reader as [b|]; simpl; rewrite Hr; auto.
Qed.

Lemma reader_bytes_cons host reader ins :
  reader_bytes ((host, reader) :: ins)
    = match reader with Some b => b :: reader_bytes ins | None => reader_bytes ins end.
Proof. destruct reader; reflexivity. Qed.

(** A run of polls decodes exactly the bytes the reader delivered. *)
Lemma rfid_polls_decode ins : forall w,
  rfid (exec (rfid_polls ins) w) = (rfid_run (reader_bytes ins) (rfid w)).1
  /\ serial_out (calls (rfid_polls ins) w)
     = serial_out (rfid_run (reader_bytes ins) (rfid w)).2.
Proof.
  induction ins as [|[host reader] ins IH]; intros w; [split; reflexivity|].
  cbn [rfid_polls]. rewrite exec_bind, calls_bind, serial_out_app.
  destruct (rfid_poll_decode host reader w) as [Hr Hs].
  destruct (IH (exec (rfid_poll host reader) w)) as [IHr IHs].
  cbn [fst snd]. rewrite IHr, IHs, Hr, Hs, reader_bytes_cons.
  destruct reader as [b|]; cbn [rfid_run fst snd].
  - rewrite serial_out_app. split; reflexivity.
  - split; reflexivity.
Qed.

Lemma rfid_run_frame r p c :
  rfid_state r = RFID_STATE_WAIT_STX -> length (rfid_buffer r) = 10%nat ->
  length p = 10%nat -> length c = 2%nat ->
  serial_out (rfid_run ([2] ++ p ++ c ++ [3]) r).2 = [2] ++ p ++ [3]
  /\ rfid_state (rfid_run ([2] ++ p ++ c ++ [3]) r).1 = RFID_STATE_WAIT_STX.
Proof.
  destruct r as [st cnt buf ck]. cbn [rfid_state rfid_buffer]. intros -> Hb Hp Hc.
  do 11 (destruct buf as [|? buf]; try discriminate Hb).
  do 11 (destruct p as [|? p]; try discriminate Hp).
  do 3 (destruct c as [|? c]; try discriminate Hc).
  split; vm_compute; reflexivity.
Qed.

(** C3.  Starting with the decoder in WAIT_STX, when over some iterations
    of [loop] the reader delivers 0x02, a 10-byte payload [p], a 2-byte
    checksum [c] and 0x03 (whatever arrives on the host line meanwhile),
    the bytes printed on the host-facing serial line are exactly 0x02, [p],
    0x03, and the decoder is back in WAIT_STX. *)
Theorem rfid_frame_forwarded (w : world) (ins : list (option Z * option Z))
    (p c : list Z) :
  rfid_state (rfid w) = RFID_STATE_WAIT_STX ->
  length (rfid_buffer (rfid w)) = 10%nat ->
  length p = 10%nat -> length c = 2%nat ->
  reader_bytes ins = [2] ++ p ++ c ++ [3] ->
  serial_out (calls (rfid_polls ins) w) = [2] ++ p ++ [3]
  /\ rfid_state (rfid (exec (rfid_polls ins) w)) = RFID_STATE_WAIT_STX.
Proof.
  intros Hst Hb Hp Hc Hins.
  destruct (rfid_polls_decode ins w) as [Hr Hs].
  rewrite Hr, Hs, Hins.
  destruct (rfid_run_frame (rfid w) p c Hst Hb Hp Hc) as [H1 H2].
  split; assumption.
Qed.

Lemma rfid_frame_forwarded_witness :
  let ins := [(None, Some 2); (Some 49, Some 48); (None, None); (None, Some 49);
              (None, Some 48); (None, Some 48); (None, Some 55); (None, Some 69);
              (Some 50, Some 2); (None, Some 3); (None, Some 65); (None, Some 66);
              (None, Some 13); (None, Some 10); (None, Some 3)] in
  serial_out (calls (rfid_polls ins) (booted (fun _ => 0)))
    = [2] ++ [48; 49; 48; 48; 55; 69; 2; 3; 65; 66] ++ [3]
  /\ rfid_state (rfid (exec (rfid_polls ins) (booted (fun _ => 0))))
     = RFID_STATE_WAIT_STX.
Proof.
  intros ins.
  apply (rfid_frame_forwarded (booted (fun _ => 0)) ins
           [48; 49; 48; 48; 55; 69; 2; 3; 65; 66] [13; 10]); reflexivity.
Defined.

(** Bytes other than 0x02 are discarded while the decoder waits for STX. *)
Lemma rfid_run_idle bs : forall r,
  rfid_state r = RFID_STATE_WAIT_STX -> Forall (fun b => b <> 2) bs ->
  rfid_run bs r = (r, []).
Proof.
  induction bs as [|b bs IH]; intros r Hst Hbs; [reflexivity|].
  inversion Hbs as [|? ? Hb Hbs']; subst.
  assert (Hsw : rfid_switch b r = (r, [])).
  { unfold rfid_switch. rewrite Hst. cbn [Z.eqb RFID_STATE_WAIT_STX].
    destruct (Z.eqb_spec b 2); [contradiction | reflexivity]. }
  cbn [rfid_run]. rewrite Hsw. cbn [fst snd].
  rewrite (IH r Hst Hbs'). reflexivity.
Qed.

Lemma rfid_run_app bs1 : forall bs2 r,
  rfid_run (bs1 ++ bs2) r
    = ((rfid_run bs2 (rfid_run bs1 r).1).1,
       (rfid_run bs1 r).2 ++ (rfid_run bs2 (rfid_run bs1 r).1).2).
Proof.
  induction bs1 as [|b bs1 IH]; intros bs2 r.
  - simpl. destruct (rfid_run bs2 r); reflexivity.
  - cbn [app rfid_run fst snd]. rewrite IH. cbn [fst snd].
    rewrite app_assoc. reflexivity.
Qed.

(** After STX and twelve bytes the decoder waits for ETX, having printed
    nothing. *)
Lemma rfid_run_body r body :
  rfid_state r = RFID_STATE_WAIT_STX -> length body = 12%nat ->
  (rfid_run (2 :: body) r).2 = []
  /\ rfid_state (rfid_run (2 :: body) r).1 = RFID_STATE_WAIT_ETX.
Proof.
  destruct r as [st cnt buf ck]. cbn [rfid_state]. intros -> Hbody.
  do 13 (destruct body as [|? body]; try discriminate Hbody).
  split; vm_compute; reflexivity.
Qed.

(** A frame whose 14th byte is not 0x03. *)
Lemma rfid_run_missing_etx r body b :
  rfid_state r = RFID_STATE_WAIT_STX -> length body = 12%nat -> b <> 3 ->
  serial_out (rfid_run (2 :: body ++ [b]) r).2 = []
  /\ rfid_state (rfid_run (2 :: body ++ [b]) r).1 = RFID_STATE_WAIT_STX.
Proof.
  intros Hst Hbody Hb.
  destruct (rfid_run_body r body Hst Hbody) as [Hout Hetx].
  change (2 :: body ++ [b]) with ((2 :: body) ++ [b]).
  rewrite rfid_run_app, Hout.
  set (t := (rfid_run (2 :: body) r).1) in *.
  cbn [fst snd rfid_run app].
  unfold rfid_switch. rewrite Hetx. cbn [Z.eqb RFID_STATE_WAIT_ETX].
  destruct (Z.eqb_spec b 3); [contradiction|]. split; reflexivity.
Qed.

(** A frame cut short: STX and fewer than 13 further bytes. *)
Lemma rfid_run_truncated r body :
  rfid_state r = RFID_STATE_WAIT_STX -> (length body < 13)%nat ->
  serial_out (rfid_run (2 :: body) r).2 = []
  /\ rfid_state (rfid_run (2 :: body) r).1 <> RFID_STATE_WAIT_STX.
Proof.
  destruct r as [st cnt buf ck]. cbn [rfid_state]. intros -> Hbody.
  do 13 (destruct body as [|? body];
         [split; [reflexivity | vm_compute; discriminate]|]).
  simpl in Hbody. lia.
Qed.

(** C4, as the sketch has it.  With the decoder in WAIT_STX: (1) bytes
    other than 0x02 (an ETX out of place among them) produce no output and
    leave it in WAIT_STX; (2) a frame whose ETX is missing (0x02, twelve
    bytes, then a byte other than 0x03) produces no output and returns it
    to WAIT_STX; (3) a truncated frame (0x02 and fewer than thirteen
    further bytes) produces no output, and the decoder stays inside the
    frame: it is not in WAIT_STX, and takes the bytes that follow, framing
    markers included, as the rest of that frame. *)
Theorem rfid_malformed_frames (w : world) (ins : list (option Z * option Z)) :
  rfid_state (rfid w) = RFID_STATE_WAIT_STX ->
  let out := serial_out (calls (rfid_polls ins) w) in
  let st := rfid_state (rfid (exec (rfid_polls ins) w)) in
  (Forall (fun b => b <> 2) (reader_bytes ins) ->
     out = [] /\ st = RFID_STATE_WAIT_STX)
  /\ (forall body b, length body = 12%nat -> b <> 3 ->
        reader_bytes ins = 2 :: body ++ [b] ->
        out = [] /\ st = RFID_STATE_WAIT_STX)
  /\ (forall body, (length body < 13)%nat ->
        reader_bytes ins = 2 :: body ->
        out = [] /\ st <> RFID_STATE_WAIT_STX).
Proof.
  intros Hst out st. subst out st.
  destruct (rfid_polls_decode ins w) as [Hr Hs]. rewrite Hr, Hs.
  split; [|split].
  - intros Hbs. rewrite (rfid_run_idle _ _ Hst Hbs). split; [reflexivity | exact Hst].
  - intros body b Hbody Hb ->. apply rfid_run_missing_etx; assumption.
  - intros body Hbody ->. apply rfid_run_truncated; assumption.
Qed.

Lemma rfid_malformed_frames_witness :
  let ins := [(None, Some 2); (Some 49, Some 65); (None, None); (None, Some 3)] in
  serial_out (calls (rfid_polls ins) (booted (fun _ => 0))) = []
  /\ rfid_state (rfid (exec (rfid_polls ins) (booted (fun _ => 0))))
     <> RFID_STATE_WAIT_STX.
Proof.
  intros ins.
  refine (proj2 (proj2 (rfid_malformed_frames (booted (fun _ => 0)) ins _))
            [65; 3] _ _).
  - reflexivity.
  - simpl. lia.
  - reflexivity.
Defined.

(** C4 as stated fails on a truncated frame: after 0x02 and one payload
    byte nothing is printed, but the decoder is in GET_BYTES, not back in
    WAIT_STX. *)
Lemma truncated_frame_not_reset :
  let ins := [(None, Some 2); (None, Some 65)] in
  reader_bytes ins = [2; 65]
  /\ serial_out (calls (rfid_polls ins) (booted (fun _ => 0))) = []
  /\ rfid_state (rfid (exec (rfid_polls ins) (booted (fun _ => 0))))
     = RFID_STATE_GET_BYTES
  /\ RFID_STATE_GET_BYTES <> RFID_STATE_WAIT_STX.
Proof. repeat split. discriminate. Qed.

(** ** Stepping through procedures *)

Lemma wp_bind {A B} (m : M A) (f : A -> M B) w Q :
  wp m w (fun a w1 e1 => wp (f a) w1 (fun b w2 e2 => Q b w2 (e1 ++ e2))) ->
  wp (bind m f) w Q.
Proof. exact (fun H => H). Qed.

Lemma wp_ret {A} (a : A) w Q : Q a w [] -> wp (ret a) w Q.
Proof. exact (fun H => H). Qed.

Lemma wp_gets {A} (f : world -> A) w Q : Q (f w) w [] -> wp (gets f) w Q.
Proof. exact (fun H => H). Qed.

Lemma wp_modify f w Q : Q tt (f w) [] -> wp (modify f) w Q.
Proof. exact (fun H => H). Qed.

Lemma wp_emit e w Q : Q tt w [e] -> wp (emit e) w Q.
Proof. exact (fun H => H). Qed.

Lemma wp_send timeout tx w Q :
  Q tx w [RawHID_send (buffer w) timeout tx] ->
  wp (RawHID_send_buffer timeout tx) w Q.
Proof. exact (fun H => H). Qed.

(** [set_indicator] changes the indicator array and the count of timer
    calls, nothing else, and makes indicator calls only. *)
Lemma wp_set_indicator idx s p w Q :
  (forall g' n' es,
     length g' = length (g_indicators w) ->
     (forall j, j <> idx -> g' !! j = g_indicators w !! j) ->
     forallb is_indicator_call es = true ->
     (forall i, g_indicators w !! idx = Some i ->
        g' !! idx = Some (set_indicator_switch (timer_ids w (timer_calls w)) i s p).1
        /\ es = (set_indicator_switch (timer_ids w (timer_calls w)) i s p).2) ->
     Q tt (mk_world g' (buffer w) (encoder_maxvel w) (rfid w) (hid w)
                    (timer_ids w) n') es) ->
  wp (set_indicator idx s p) w Q.
Proof.
  intros H. unfold wp.
  pose proof (set_indicator_length idx s p w) as Hlen.
  pose proof (set_indicator_other idx s p w) as Hoth.
  pose proof (set_indicator_calls idx s p w) as Hcalls.
  pose proof (set_indicator_same idx s p w) as Hsame.
  unfold set_indicator in *.
  destruct (g_indicators w !! idx) as [i|];
    cbn [val wld eff g_indicators with_timer_calls with_indicators] in *.
  - apply H; auto.
  - rewrite <- (world_eta w) at 1. apply H; auto; discriminate.
Qed.

(** The loop that clears [buffer[0..62]]. *)
Lemma zero_loop count : forall first w,
  for_loop first count (fun i => buffer_set i 0) w
  = mk_outcome tt
      (with_buffer w
         (fold_left (fun b i => <[i:=0]> b) (seq first count) (buffer w))) [].
Proof.
  induction count as [|c IH]; intros first w.
  - destruct w; reflexivity.
  - cbn [for_loop seq fold_left]. unfold bind. rewrite IH. reflexivity.
Qed.

Lemma wp_zero_loop first count w Q :
  Q tt (with_buffer w
          (fold_left (fun b i => <[i:=0]> b) (seq first count) (buffer w))) [] ->
  wp (for_loop first count (fun i => buffer_set i 0)) w Q.
Proof. unfold wp. rewrite zero_loop. exact (fun H => H). Qed.

Ltac wp_simpl :=
  cbv beta;
  unfold with_buffer, with_encoder, with_hid, with_indicators, with_rfid,
    with_timer_calls;
  cbn [buffer encoder_maxvel hid g_indicators rfid timer_ids timer_calls
       packetCount run_state last_run_state app].

Ltac wp_step :=
  lazymatch goal with
  | |- wp (bind _ _) _ _ => apply wp_bind
  | |- wp (ret _) _ _ => apply wp_ret
  | |- wp skip _ _ => apply wp_ret
  | |- wp (gets _) _ _ => apply wp_gets
  | |- wp (modify _) _ _ => apply wp_modify
  | |- wp (emit _) _ _ => apply wp_emit
  | |- wp (buffer_get _) _ _ => apply wp_gets
  | |- wp (buffer_set _ _) _ _ => apply wp_modify
  | |- wp (set_run_state _) _ _ => apply wp_modify
  | |- wp (encoder_write _) _ _ => unfold encoder_write
  | |- wp (RawHID_send_buffer _ _) _ _ => apply wp_send
  | |- wp (for_loop _ _ _) _ _ => apply wp_zero_loop
  | |- wp (set_indicator _ _ _) _ _ =>
      apply wp_set_indicator;
      let g := fresh "g" in
      let n := fresh "n" in
      let es := fresh "es" in
      let Hl := fresh "Hlen" in
      let Ho := fresh "Hoth" in
      let Hc := fresh "Hcalls" in
      let Hs := fresh "Hsame" in
      intros g n es Hl Ho Hc Hs;
      cbn [g_indicators timer_ids timer_calls] in Hl, Ho, Hs
  | |- wp (if ?c then _ else _) _ _ =>
      destruct c eqn:?;
      try match goal with H : _ = _ |- _ => discriminate H end
  end; wp_simpl.

(** ** Host link: the blocks of [rawhid_poll] *)

Lemma set_indicator_switch_on h i p :
  state (set_indicator_switch h i INDICATOR_ON p).1 = INDICATOR_ON
  /\ (state i <> INDICATOR_ON ->
      In (digitalWrite (io_pin i) (Z.b2z (active_level i)))
         (set_indicator_switch h i INDICATOR_ON p).2).
Proof.
  unfold set_indicator_switch, INDICATOR_ON, INDICATOR_OFF.
  destruct i as [ev pin al st]. split_eqb; split; try reflexivity;
    try (intros; contradiction); intros _; simpl; auto.
Qed.

Lemma set_indicator_switch_off h i p :
  state (set_indicator_switch h i INDICATOR_OFF p).1 = INDICATOR_OFF.
Proof.
  unfold set_indicator_switch, INDICATOR_OFF.
  destruct i as [ev pin al st]. split_eqb; reflexivity.
Qed.

Lemma forallb_indicator_app l1 l2 :
  forallb is_indicator_call l1 = true -> forallb is_indicator_call l2 = true ->
  forallb is_indicator_call (l1 ++ l2) = true.
Proof. intros H1 H2. rewrite forallb_app, H1, H2. reflexivity. Qed.

Lemma alert_filter_app l1 l2 :
  List.filter is_alert_after (l1 ++ l2)
    = List.filter is_alert_after l1 ++ List.filter is_alert_after l2.
Proof. apply List.filter_app. Qed.

(** Follow an indicator untouched by a chain of [set_indicator] calls. *)
Ltac chain_lookup :=
  repeat match goal with
  | Hx : forall j, j <> _ -> ?ga !! j = _ |- context [?ga !! _] =>
      rewrite Hx by (assumption || discriminate)
  end; try reflexivity.

(** Drop the indicator calls from a log that is searched for packets or
    alerts. *)
Ltac indicator_log :=
  rewrite ?sent_packets_app, ?alert_filter_app;
  repeat match goal with
  | Hc : forallb is_indicator_call ?es = true |- _ =>
      first [ rewrite (indicator_calls_sent_packets es Hc)
            | rewrite (indicator_calls_alert es Hc) ]
  end.

(** "state-run": the block touches the green beacon, the start LED and the
    beeper, records the run state, and calls [alert_t.after] exactly on the
    edge into RUNNING. *)
Lemma wp_rawhid_state_run w Q :
  let b0 := default 0 (buffer w !! 0%nat) in
  (forall g' n' es,
     length g' = length (g_indicators w) ->
     (forall j, j <> INDICATOR_BEACON_GREEN -> j <> INDICATOR_LED_START ->
                j <> ALERT_BEEPER -> g' !! j = g_indicators w !! j) ->
     sent_packets es = [] ->
     List.filter is_alert_after es
       = (if negb (last_run_state (hid w) =? 1) && (run_state_of b0 =? 1)
          then [alert_t_after 5000 cb_alert_off] else []) ->
     (run_state_of b0 = 1 -> last_run_state (hid w) <> 1 ->
      forall i, g_indicators w !! ALERT_BEEPER = Some i ->
        state <$> g' !! ALERT_BEEPER = Some INDICATOR_ON
        /\ (state i <> INDICATOR_ON ->
            In (digitalWrite (io_pin i) (Z.b2z (active_level i))) es)) ->
     Q tt (mk_world g' (buffer w) (encoder_maxvel w) (rfid w)
             (mk_rawhid (packetCount (hid w)) (run_state_of b0) (run_state_of b0))
             (timer_ids w) n') es) ->
  wp rawhid_state_run w Q.
Proof.
  destruct w as [g buf enc rf hd ids n]. intros b0 H. subst b0.
  cbn [buffer encoder_maxvel rfid hid timer_ids g_indicators] in H.
  unfold rawhid_state_run, run_state_of in *.
  repeat wp_step.
  all: repeat match goal with
         | Hc : (_ =? _) = _ |- _ => rewrite Hc in H
         end.
  all: try match goal with
         | Hc : negb _ && (_ =? _) = true |- _ =>
             simpl in Hc; rewrite andb_false_r in Hc; discriminate Hc
         end.
  all: match goal with
       | Hc : negb _ && _ = _ |- _ =>
           cbn [Z.eqb Pos.eqb] in H, Hc; try rewrite Hc in H
       end.
  all: apply H; clear H.
  all: try congruence.
  all: try solve [intros j ? ? ?; chain_lookup].
  all: try solve [indicator_log; reflexivity].
  all: try solve [intros Hrs; discriminate Hrs].
  - intros _ _ i Hi.
    match goal with
    | Hs : forall i, ?gp !! ALERT_BEEPER = Some i -> ?gn !! ALERT_BEEPER = Some _ /\ _
      |- _ => destruct (Hs i) as [Hg He]; [chain_lookup; exact Hi|]
    end.
    rewrite Hg. cbn [fmap option_fmap option_map].
    match type of Hg with
    | _ = Some (set_indicator_switch ?h _ _ _).1 =>
        destruct (set_indicator_switch_on h i 0) as [Hst Hin]
    end.
    split; [f_equal; exact Hst|].
    intros Hne. rewrite He, !in_app_iff. auto.
  - intros _ Hlast. exfalso.
    rewrite andb_true_r in *.
    match goal with
    | Hc : negb (?l =? 1) = false |- _ =>
        destruct (Z.eqb_spec l 1); [contradiction | discriminate Hc]
    end.
Qed.

(** "state-alarm": only the red beacon is touched. *)
Lemma wp_rawhid_state_alarm w Q :
  (forall g' n' es,
     length g' = length (g_indicators w) ->
     (forall j, j <> INDICATOR_BEACON_RED -> g' !! j = g_indicators w !! j) ->
     forallb is_indicator_call es = true ->
     Q tt (mk_world g' (buffer w) (encoder_maxvel w) (rfid w) (hid w)
             (timer_ids w) n') es) ->
  wp rawhid_state_alarm w Q.
Proof.
  destruct w as [g buf enc rf hd ids n]. intros H.
  cbn [buffer encoder_maxvel rfid hid timer_ids g_indicators] in H.
  unfold rawhid_state_alarm. repeat wp_step; apply H; assumption.
Qed.

(** "state-m1": the M1 LED is ON afterwards when byte 5 is 0x01 and OFF
    otherwise; nothing else is touched. *)
Lemma wp_rawhid_state_m1 w Q :
  let b5 := default 0 (buffer w !! 5%nat) in
  (forall g' n' es,
     length g' = length (g_indicators w) ->
     (forall j, j <> INDICATOR_LED_M1 -> g' !! j = g_indicators w !! j) ->
     forallb is_indicator_call es = true ->
     (forall i, g_indicators w !! INDICATOR_LED_M1 = Some i ->
        state <$> g' !! INDICATOR_LED_M1
          = Some (if b5 =? 1 then INDICATOR_ON else INDICATOR_OFF)) ->
     Q tt (mk_world g' (buffer w) (encoder_maxvel w) (rfid w) (hid w)
             (timer_ids w) n') es) ->
  wp rawhid_state_m1 w Q.
Proof.
  destruct w as [g buf enc rf hd ids n]. intros b5 H. subst b5.
  cbn [buffer encoder_maxvel rfid hid timer_ids g_indicators] in H.
  unfold rawhid_state_m1. repeat wp_step.
  all: try match goal with Hc : (_ =? _) = _ |- _ => rewrite Hc in H end.
  all: apply H; try assumption.
  all: intros i Hi; destruct (Hsame i Hi) as [Hg _]; rewrite Hg;
    cbn [fmap option_fmap option_map]; f_equal.
  - apply set_indicator_switch_on.
  - apply set_indicator_switch_off.
Qed.

(** "state-feed-hold": the same for the feed LED and byte 6. *)
Lemma wp_rawhid_state_feed_hold w Q :
  let b6 := default 0 (buffer w !! 6%nat) in
  (forall g' n' es,
     length g' = length (g_indicators w) ->
     (forall j, j <> INDICATOR_LED_FEED -> g' !! j = g_indicators w !! j) ->
     forallb is_indicator_call es = true ->
     (forall i, g_indicators w !! INDICATOR_LED_FEED = Some i ->
        state <$> g' !! INDICATOR_LED_FEED
          = Some (if b6 =? 1 then INDICATOR_ON else INDICATOR_OFF)) ->
     Q tt (mk_world g' (buffer w) (encoder_maxvel w) (rfid w) (hid w)
             (timer_ids w) n') es) ->
  wp rawhid_state_feed_hold w Q.
Proof.
  destruct w as [g buf enc rf hd ids n]. intros b6 H. subst b6.
  cbn [buffer encoder_maxvel rfid hid timer_ids g_indicators] in H.
  unfold rawhid_state_feed_hold. repeat wp_step.
  all: try match goal with Hc : (_ =? _) = _ |- _ => rewrite Hc in H end.
  all: apply H; try assumption.
  all: intros i Hi; destruct (Hsame i Hi) as [Hg _]; rewrite Hg;
    cbn [fmap option_fmap option_map]; f_equal.
  - apply set_indicator_switch_on.
  - apply set_indicator_switch_off.
Qed.

(** The bytes of [buffer] after the response block has filled it. *)
Lemma response_buffer b v c :
  length b = 64%nat ->
  <[63%nat:=lowByte c]> (<[62%nat:=highByte c]>
    (<[3%nat:=lowByte v]> (<[2%nat:=highByte v]>
      (<[1%nat:=66]> (<[0%nat:=66]>
        (fold_left (fun b i => <[i:=0]> b) (seq 0 63) b))))))
  = device_packet v c.
Proof.
  intros Hb. do 65 (destruct b as [|? b]; try discriminate Hb). reflexivity.
Qed.

Lemma clamp15_low r : r < 0 -> clamp15 r = 0.
Proof. unfold clamp15. lia. Qed.
Lemma clamp15_high r : 15 < r -> clamp15 r = 15.
Proof. unfold clamp15. lia. Qed.
Lemma clamp15_mid r : 0 <= r <= 15 -> clamp15 r = r.
Proof. unfold clamp15. lia. Qed.

(** "send packet in response to the poll". *)
Lemma wp_rawhid_send_response tx w Q :
  length (buffer w) = 64%nat ->
  let r := encoder_maxvel w in
  let count := packetCount (hid w) in
  (forall g' n' es,
     length g' = length (g_indicators w) ->
     (forall j, j <> INDICATOR_BEACON_AMBER -> g' !! j = g_indicators w !! j) ->
     sent_packets es = [device_packet (lut_value r) count] ->
     List.filter is_alert_after es = [] ->
     (r < 0 \/ 15 < r -> In (encoder_maxvel_write (clamp15 r)) es) ->
     Q tt (mk_world g' (device_packet (lut_value r) count) (clamp15 r) (rfid w)
             (mk_rawhid (if tx >? 0 then u32 (count + 1) else count)
                        (run_state (hid w)) (last_run_state (hid w)))
             (timer_ids w) n') es) ->
  wp (rawhid_send_response tx) w Q.
Proof.
  destruct w as [g buf enc rf [pc rs lrs] ids n]. intros Hb r count H.
  subst r count.
  cbn [buffer encoder_maxvel rfid hid timer_ids g_indicators packetCount
       run_state last_run_state] in *.
  unfold rawhid_send_response.
  repeat wp_step.
  all: try match goal with Hc : (_ >? 0) = _ |- _ => rewrite Hc in H end.
  all: unfold lut_value in H.
  all: repeat match goal with
         | Hc : (_ >? _) = _ |- _ => rewrite Z.gtb_ltb in Hc
         | Hc : (_ <? _) = true |- _ => apply Z.ltb_lt in Hc
         | Hc : (_ <? _) = false |- _ => apply Z.ltb_ge in Hc
         end.
  all: first [ rewrite (clamp15_low enc) in H by lia
             | rewrite (clamp15_high enc) in H by lia
             | rewrite (clamp15_mid enc) in H by lia ].
  all: rewrite response_buffer by assumption.
  all: apply H; clear H.
  all: try assumption.
  all: try solve [intros _; simpl; auto].
  all: try solve [intros; exfalso; lia].
  all: try match goal with
         | |- context [?e :: (?l1 ++ ?l2)] =>
             change (e :: (l1 ++ l2)) with ([e] ++ (l1 ++ l2))
         end.
  all: indicator_log; reflexivity.
Qed.

Ltac wp_block :=
  lazymatch goal with
  | |- wp rawhid_state_run _ _ =>
      apply wp_rawhid_state_run;
      let g := fresh "g" in
      let n := fresh "n" in
      let es := fresh "es" in
      intros g n es ?Hlen ?Hoth ?Hsent ?Halert ?Hbeep
  | |- wp rawhid_state_alarm _ _ =>
      apply wp_rawhid_state_alarm;
      let g := fresh "g" in
      let n := fresh "n" in
      let es := fresh "es" in
      intros g n es ?Hlen ?Hoth ?Hcalls
  | |- wp rawhid_state_m1 _ _ =>
      apply wp_rawhid_state_m1;
      let g := fresh "g" in
      let n := fresh "n" in
      let es := fresh "es" in
      intros g n es ?Hlen ?Hoth ?Hcalls ?Hm1
  | |- wp rawhid_state_feed_hold _ _ =>
      apply wp_rawhid_state_feed_hold;
      let g := fresh "g" in
      let n := fresh "n" in
      let es := fresh "es" in
      intros g n es ?Hlen ?Hoth ?Hcalls ?Hfeed
  | |- wp (rawhid_send_response _) _ _ =>
      apply wp_rawhid_send_response;
      [ try assumption
      | let g := fresh "g" in
        let n := fresh "n" in
        let es := fresh "es" in
        intros g n es ?Hlen ?Hoth ?Hsent ?Halert ?Hwrite ]
  | _ => wp_step
  end;
  cbn [buffer encoder_maxvel hid g_indicators rfid timer_ids timer_calls
       packetCount run_state last_run_state] in *.

(** ** Host link: one processed packet *)

(** What processing a received 64-byte packet does, from any machine
    state. *)
Lemma wp_rawhid_poll pkt tx w Q :
  length pkt = 64%nat ->
  let b0 := default 0 (pkt !! 0%nat) in
  let b5 := default 0 (pkt !! 5%nat) in
  let b6 := default 0 (pkt !! 6%nat) in
  let r := encoder_maxvel w in
  let count := packetCount (hid w) in
  (forall g' n' es,
     length g' = length (g_indicators w) ->
     sent_packets es = [device_packet (lut_value r) count] ->
     List.filter is_alert_after es
       = (if negb (last_run_state (hid w) =? 1) && (run_state_of b0 =? 1)
          then [alert_t_after 5000 cb_alert_off] else []) ->
     (run_state_of b0 = 1 -> last_run_state (hid w) <> 1 ->
      forall i, g_indicators w !! ALERT_BEEPER = Some i ->
        state <$> g' !! ALERT_BEEPER = Some INDICATOR_ON
        /\ (state i <> INDICATOR_ON ->
            In (digitalWrite (io_pin i) (Z.b2z (active_level i))) es)) ->
     (forall i, g_indicators w !! INDICATOR_LED_M1 = Some i ->
        state <$> g' !! INDICATOR_LED_M1
          = Some (if b5 =? 1 then INDICATOR_ON else INDICATOR_OFF)) ->
     (forall i, g_indicators w !! INDICATOR_LED_FEED = Some i ->
        state <$> g' !! INDICATOR_LED_FEED
          = Some (if b6 =? 1 then INDICATOR_ON else INDICATOR_OFF)) ->
     (r < 0 \/ 15 < r -> In (encoder_maxvel_write (clamp15 r)) es) ->
     Q tt (mk_world g' (device_packet (lut_value r) count) (clamp15 r) (rfid w)
             (mk_rawhid (if tx >? 0 then u32 (count + 1) else count)
                        (run_state_of b0) (run_state_of b0))
             (timer_ids w) n') es) ->
  wp (rawhid_poll (Some pkt) tx) w Q.
Proof.
  destruct w as [g buf enc rf [pc rs lrs] ids n].
  intros Hpkt b0 b5 b6 r count H. subst b0 b5 b6 r count.
  cbn [buffer encoder_maxvel rfid hid timer_ids g_indicators packetCount
       run_state last_run_state] in H.
  unfold rawhid_poll, RawHID_recv.
  repeat wp_block.
  apply H; clear H.
  - congruence.
  - indicator_log.
    repeat match goal with
           | Hx : sent_packets _ = _ |- _ => rewrite Hx; clear Hx
           end.
    reflexivity.
  - indicator_log.
    repeat match goal with
           | Hx : List.filter is_alert_after _ = _ |- _ => rewrite Hx; clear Hx
           end.
    rewrite !app_nil_r. reflexivity.
  - intros Hrs Hl i Hi. destruct (Hbeep Hrs Hl i Hi) as [Hst Hin].
    split; [chain_lookup; exact Hst|].
    intros Hne. rewrite in_app_iff. left. exact (Hin Hne).
  - intros i Hi. chain_lookup. apply (Hm1 i).
    chain_lookup. rewrite Hoth by discriminate. exact Hi.
  - intros i Hi. chain_lookup. apply (Hfeed i).
    chain_lookup. rewrite Hoth by discriminate. exact Hi.
  - intros Hr. rewrite !in_app_iff. do 4 right. exact (Hwrite Hr).
Qed.

(** The scheduled callback switches the beeper off. *)
Lemma alert_off_mode w i :
  g_indicators w !! ALERT_BEEPER = Some i ->
  mode_of (exec (run_callback cb_alert_off) w) ALERT_BEEPER = Some INDICATOR_OFF.
Proof.
  intros Hi. unfold mode_of, exec, run_callback, alert_off.
  destruct (set_indicator_same ALERT_BEEPER INDICATOR_OFF 0 w i Hi) as [Hg _].
  rewrite Hg. cbn [fmap option_fmap option_map]. f_equal.
  apply set_indicator_switch_off.
Qed.

(** C2.  Processing a received packet whose run-state byte is 0x01:
    when the recorded run state is not RUNNING, the beeper is in mode ON
    afterwards (its pin is driven to the active level unless it was ON
    already), [alert_t.after(5000, alert_off)] is called exactly once, and
    that callback, when it runs, puts the beeper in mode OFF; when the
    recorded run state is RUNNING, [alert_t.after] is not called.  In both
    cases RUNNING is the run state recorded for the next packet.  This
    holds from every machine state, hence after every sequence of
    packets. *)
Theorem alert_on_edge_into_running (w : world) (pkt : list Z) (tx : Z)
    (i : s_indicator) :
  length pkt = 64%nat ->
  pkt !! 0%nat = Some 1 ->
  g_indicators w !! ALERT_BEEPER = Some i ->
  (last_run_state (hid w) <> 1 ->
     mode_of (exec (rawhid_poll (Some pkt) tx) w) ALERT_BEEPER = Some INDICATOR_ON
     /\ (state i <> INDICATOR_ON ->
         In (digitalWrite (io_pin i) (Z.b2z (active_level i)))
            (calls (rawhid_poll (Some pkt) tx) w))
     /\ List.filter is_alert_after (calls (rawhid_poll (Some pkt) tx) w)
        = [alert_t_after 5000 cb_alert_off]
     /\ mode_of (exec (run_callback cb_alert_off)
                      (exec (rawhid_poll (Some pkt) tx) w)) ALERT_BEEPER
        = Some INDICATOR_OFF)
  /\ (last_run_state (hid w) = 1 ->
      List.filter is_alert_after (calls (rawhid_poll (Some pkt) tx) w) = [])
  /\ last_run_state (hid (exec (rawhid_poll (Some pkt) tx) w)) = 1.
Proof.
  intros Hpkt Hb0 Hi. unfold exec at 1 3 4, calls.
  apply (wp_rawhid_poll pkt tx w
           (fun _ w' log =>
              (last_run_state (hid w) <> 1 ->
               mode_of w' ALERT_BEEPER = Some INDICATOR_ON
               /\ (state i <> INDICATOR_ON ->
                   In (digitalWrite (io_pin i) (Z.b2z (active_level i))) log)
               /\ List.filter is_alert_after log = [alert_t_after 5000 cb_alert_off]
               /\ mode_of (exec (run_callback cb_alert_off) w') ALERT_BEEPER
                  = Some INDICATOR_OFF)
              /\ (last_run_state (hid w) = 1 -> List.filter is_alert_after log = [])
              /\ last_run_state (hid w') = 1) Hpkt).
  rewrite Hb0. cbn [default run_state_of Z.eqb Pos.eqb].
  intros g' n' es _ _ Halert Hbeep _ _ _.
  cbn [hid last_run_state].
  split; [|split; [|reflexivity]].
  - intros Hl. destruct (Hbeep eq_refl Hl i Hi) as [Hst Hin].
    split; [exact Hst | split; [exact Hin | split]].
    + rewrite Halert. destruct (Z.eqb_spec (last_run_state (hid w)) 1);
        [contradiction | reflexivity].
    + destruct (g' !! ALERT_BEEPER) as [i'|] eqn:Hi'; [|discriminate Hst].
      apply (alert_off_mode _ i'). exact Hi'.
  - intros Hl. rewrite Halert, Hl. reflexivity.
Qed.

Lemma alert_on_edge_into_running_witness :
  let pkt := [1; 0; 0; 0; 0; 0; 0] ++ replicate 57%nat 0 in
  let w := booted (fun _ => 0) in
  List.filter is_alert_after (calls (rawhid_poll (Some pkt) 1) w)
    = [alert_t_after 5000 cb_alert_off]
  /\ List.filter is_alert_after
       (calls (rawhid_poll (Some pkt) 1) (exec (rawhid_poll (Some pkt) 1) w)) = [].
Proof.
  intros pkt w. split.
  - refine (proj1 (proj2 (proj2 (proj1
      (alert_on_edge_into_running w pkt 1
         (mk_indicator (-1) PIN_BEACON_BLUE LOW INDICATOR_OFF)
         eq_refl eq_refl eq_refl) _)))).
    vm_compute. discriminate.
  - refine (proj1 (proj2
      (alert_on_edge_into_running (exec (rawhid_poll (Some pkt) 1) w) pkt 1
         (mk_indicator (-1) PIN_BEACON_BLUE LOW INDICATOR_ON)
         eq_refl eq_refl eq_refl)) _).
    reflexivity.
Defined.

(** ** Host link: the velocity override *)

Lemma lut_value_cases r :
  maxvel_lut !! Z.to_nat (clamp15 r) = Some (lut_value r)
  /\ highByte (lut_value r) = 0 /\ lowByte (lut_value r) = lut_value r.
Proof.
  unfold lut_value.
  assert (Hc : 0 <= clamp15 r <= 15) by (unfold clamp15; lia).
  assert (Hk : exists k, (k < 16)%nat /\ clamp15 r = Z.of_nat k).
  { exists (Z.to_nat (clamp15 r)). lia. }
  destruct Hk as (k & Hk & ->). rewrite Nat2Z.id.
  do 16 (destruct k as [|k]; [repeat split; reflexivity|]). lia.
Qed.

(** C5.  For every raw encoder reading [r], the one packet sent in answer
    to a received packet carries in bytes 2-3, high byte first, the entry
    of the table 0,1,2,3,4,5,6,7,8,9,10,15,25,50,75,100 at index [r]
    clamped into [0, 15]; the encoder holds the clamped value afterwards,
    and when [r] is out of range that value is written back with
    [encoder_maxvel.write]. *)
Theorem velocity_override_lookup (w : world) (pkt : list Z) (tx : Z) :
  length pkt = 64%nat ->
  exists v out,
    [0; 1; 2; 3; 4; 5; 6; 7; 8; 9; 10; 15; 25; 50; 75; 100]
      !! Z.to_nat (clamp15 (encoder_maxvel w)) = Some v
    /\ sent_packets (calls (rawhid_poll (Some pkt) tx) w) = [out]
    /\ out !! 2%nat = Some (highByte v)
    /\ out !! 3%nat = Some (lowByte v)
    /\ 256 * highByte v + lowByte v = v
    /\ encoder_maxvel (exec (rawhid_poll (Some pkt) tx) w)
       = clamp15 (encoder_maxvel w)
    /\ (encoder_maxvel w < 0 \/ 15 < encoder_maxvel w ->
        In (encoder_maxvel_write (clamp15 (encoder_maxvel w)))
           (calls (rawhid_poll (Some pkt) tx) w)).
Proof.
  intros Hpkt. unfold exec, calls.
  destruct (lut_value_cases (encoder_maxvel w)) as (Hlut & Hhi & Hlo).
  exists (lut_value (encoder_maxvel w)),
         (device_packet (lut_value (encoder_maxvel w)) (packetCount (hid w))).
  split; [exact Hlut|].
  apply (wp_rawhid_poll pkt tx w
           (fun _ w' log =>
              sent_packets log
                = [device_packet (lut_value (encoder_maxvel w)) (packetCount (hid w))]
              /\ device_packet (lut_value (encoder_maxvel w)) (packetCount (hid w))
                 !! 2%nat = Some (highByte (lut_value (encoder_maxvel w)))
              /\ device_packet (lut_value (encoder_maxvel w)) (packetCount (hid w))
                 !! 3%nat = Some (lowByte (lut_value (encoder_maxvel w)))
              /\ 256 * highByte (lut_value (encoder_maxvel w))
                 + lowByte (lut_value (encoder_maxvel w))
                 = lut_value (encoder_maxvel w)
              /\ encoder_maxvel w' = clamp15 (encoder_maxvel w)
              /\ (encoder_maxvel w < 0 \/ 15 < encoder_maxvel w ->
                  In (encoder_maxvel_write (clamp15 (encoder_maxvel w))) log))
           Hpkt).
  intros g' n' es _ Hsent _ _ _ _ Hwrite.
  repeat split; try assumption; try reflexivity.
  rewrite Hhi, Hlo. lia.
Qed.

Lemma velocity_override_lookup_witness :
  exists v out,
    [0; 1; 2; 3; 4; 5; 6; 7; 8; 9; 10; 15; 25; 50; 75; 100]
      !! Z.to_nat (clamp15 (encoder_maxvel (with_encoder (booted (fun _ => 0)) 23)))
      = Some v
    /\ sent_packets
         (calls (rawhid_poll (Some (replicate 64%nat 9)) 1)
                (with_encoder (booted (fun _ => 0)) 23)) = [out]
    /\ out !! 2%nat = Some (highByte v)
    /\ out !! 3%nat = Some (lowByte v)
    /\ 256 * highByte v + lowByte v = v
    /\ encoder_maxvel
         (exec (rawhid_poll (Some (replicate 64%nat 9)) 1)
               (with_encoder (booted (fun _ => 0)) 23))
       = clamp15 (encoder_maxvel (with_encoder (booted (fun _ => 0)) 23))
    /\ (encoder_maxvel (with_encoder (booted (fun _ => 0)) 23) < 0
        \/ 15 < encoder_maxvel (with_encoder (booted (fun _ => 0)) 23) ->
        In (encoder_maxvel_write
              (clamp15 (encoder_maxvel (with_encoder (booted (fun _ => 0)) 23))))
           (calls (rawhid_poll (Some (replicate 64%nat 9)) 1)
                  (with_encoder (booted (fun _ => 0)) 23))).
Proof.
  apply (velocity_override_lookup (with_encoder (booted (fun _ => 0)) 23)
           (replicate 64%nat 9) 1).
  reflexivity.
Defined.

(** ** Host link: the flag LEDs *)

(** C6, as the sketch has it.  After a received packet is processed, the
    M1 LED is in mode ON exactly when the program-stop flag byte (byte 5)
    equals 0x01 and in mode OFF for every other value, and the feed LED is
    in mode ON exactly when the feed-hold flag byte (byte 6) equals 0x01
    and in mode OFF for every other value. *)
Theorem flag_leds_follow_bytes (w : world) (pkt : list Z) (tx b5 b6 : Z)
    (i5 i6 : s_indicator) :
  length pkt = 64%nat ->
  pkt !! 5%nat = Some b5 ->
  pkt !! 6%nat = Some b6 ->
  g_indicators w !! INDICATOR_LED_M1 = Some i5 ->
  g_indicators w !! INDICATOR_LED_FEED = Some i6 ->
  mode_of (exec (rawhid_poll (Some pkt) tx) w) INDICATOR_LED_M1
    = Some (if b5 =? 1 then INDICATOR_ON else INDICATOR_OFF)
  /\ mode_of (exec (rawhid_poll (Some pkt) tx) w) INDICATOR_LED_FEED
    = Some (if b6 =? 1 then INDICATOR_ON else INDICATOR_OFF).
Proof.
  intros Hpkt H5 H6 Hi5 Hi6. unfold exec, mode_of.
  apply (wp_rawhid_poll pkt tx w
           (fun _ w' _ =>
              state <$> g_indicators w' !! INDICATOR_LED_M1
                = Some (if b5 =? 1 then INDICATOR_ON else INDICATOR_OFF)
              /\ state <$> g_indicators w' !! INDICATOR_LED_FEED
                = Some (if b6 =? 1 then INDICATOR_ON else INDICATOR_OFF)) Hpkt).
  rewrite H5, H6. cbn [default].
  intros g' n' es _ _ _ _ Hm1 Hfeed _. cbn [g_indicators].
  split; [exact (Hm1 i5 Hi5) | exact (Hfeed i6 Hi6)].
Qed.

Lemma flag_leds_follow_bytes_witness :
  let pkt := [0; 0; 0; 0; 0; 1; 0] ++ replicate 57%nat 0 in
  mode_of (exec (rawhid_poll (Some pkt) 1) (booted (fun _ => 0))) INDICATOR_LED_M1
    = Some INDICATOR_ON
  /\ mode_of (exec (rawhid_poll (Some pkt) 1) (booted (fun _ => 0)))
       INDICATOR_LED_FEED
    = Some INDICATOR_OFF.
Proof.
  intros pkt.
  exact (flag_leds_follow_bytes (booted (fun _ => 0)) pkt 1 1 0
           (mk_indicator (-1) PIN_LED_M1 LOW INDICATOR_OFF)
           (mk_indicator (-1) PIN_LED_FEED LOW INDICATOR_OFF)
           eq_refl eq_refl eq_refl eq_refl eq_refl).
Defined.

(** C6 as stated fails: with both LEDs ON, a packet whose flag bytes are
    0x02 (nonzero) puts both LEDs in mode OFF and drives their pins to the
    inactive level. *)
Lemma nonzero_flag_bytes_switch_leds_off :
  let pkt1 := [0; 0; 0; 0; 0; 1; 1] ++ replicate 57%nat 0 in
  let pkt2 := [0; 0; 0; 0; 0; 2; 2] ++ replicate 57%nat 0 in
  let w1 := exec (rawhid_poll (Some pkt1) 1) (booted (fun _ => 0)) in
  let w2 := exec (rawhid_poll (Some pkt2) 1) w1 in
  pkt2 !! 5%nat = Some 2 /\ pkt2 !! 6%nat = Some 2
  /\ mode_of w1 INDICATOR_LED_M1 = Some INDICATOR_ON
  /\ mode_of w1 INDICATOR_LED_FEED = Some INDICATOR_ON
  /\ mode_of w2 INDICATOR_LED_M1 = Some INDICATOR_OFF
  /\ mode_of w2 INDICATOR_LED_FEED = Some INDICATOR_OFF
  /\ In (digitalWrite PIN_LED_M1 (-1)) (calls (rawhid_poll (Some pkt2) 1) w1)
  /\ In (digitalWrite PIN_LED_FEED (-1)) (calls (rawhid_poll (Some pkt2) 1) w1).
Proof. vm_compute. repeat split; auto 10. Qed.

(** ** Host link: the response packet *)

Lemma byte_pair_value c : 256 * highByte c + lowByte c = c mod 65536.
Proof.
  unfold highByte, lowByte, u8.
  change 255 with (Z.ones 8). rewrite Z.land_ones by lia.
  rewrite Z.shiftr_div_pow2 by lia. change (2 ^ 8) with 256.
  rewrite Z.mod_mod by lia.
  change 65536 with (256 * 256). rewrite Z.rem_mul_r by lia. lia.
Qed.

(** The low 16 bits of an [unsigned int] that is incremented count as a
    16-bit counter does. *)
Lemma u32_succ_low16 c : u32 (c + 1) mod 65536 = (c mod 65536 + 1) mod 65536.
Proof.
  unfold u32. rewrite Z.mod_mod_divide by (exists 65536; reflexivity).
  rewrite Z.add_mod_idemp_l by lia. reflexivity.
Qed.

(** C7.  Processing a received packet makes exactly one [RawHID.send]
    call; the packet sent carries in bytes 62-63, high byte first, the
    16-bit send counter, that is the low 16 bits of [packetCount] as it is
    before the call; afterwards [packetCount] is one more (as an
    [unsigned int], so the 16-bit counter is one more modulo 2^16) when the
    call returned a positive number of bytes, and unchanged when it
    returned zero or less. *)
Theorem send_counter_on_success (w : world) (pkt : list Z) (tx : Z) :
  length pkt = 64%nat ->
  exists out,
    sent_packets (calls (rawhid_poll (Some pkt) tx) w) = [out]
    /\ out !! 62%nat = Some (highByte (packetCount (hid w)))
    /\ out !! 63%nat = Some (lowByte (packetCount (hid w)))
    /\ 256 * highByte (packetCount (hid w)) + lowByte (packetCount (hid w))
       = packetCount (hid w) mod 65536
    /\ (0 < tx ->
        packetCount (hid (exec (rawhid_poll (Some pkt) tx) w))
          = u32 (packetCount (hid w) + 1)
        /\ packetCount (hid (exec (rawhid_poll (Some pkt) tx) w)) mod 65536
          = (packetCount (hid w) mod 65536 + 1) mod 65536)
    /\ (tx <= 0 ->
        packetCount (hid (exec (rawhid_poll (Some pkt) tx) w))
          = packetCount (hid w)).
Proof.
  intros Hpkt. unfold exec, calls.
  exists (device_packet (lut_value (encoder_maxvel w)) (packetCount (hid w))).
  apply (wp_rawhid_poll pkt tx w
           (fun _ w' log =>
              sent_packets log
                = [device_packet (lut_value (encoder_maxvel w)) (packetCount (hid w))]
              /\ device_packet (lut_value (encoder_maxvel w)) (packetCount (hid w))
                 !! 62%nat = Some (highByte (packetCount (hid w)))
              /\ device_packet (lut_value (encoder_maxvel w)) (packetCount (hid w))
                 !! 63%nat = Some (lowByte (packetCount (hid w)))
              /\ 256 * highByte (packetCount (hid w)) + lowByte (packetCount (hid w))
                 = packetCount (hid w) mod 65536
              /\ (0 < tx ->
                  packetCount (hid w') = u32 (packetCount (hid w) + 1)
                  /\ packetCount (hid w') mod 65536
                     = (packetCount (hid w) mod 65536 + 1) mod 65536)
              /\ (tx <= 0 -> packetCount (hid w') = packetCount (hid w)))
           Hpkt).
  intros g' n' es _ Hsent _ _ _ _ _. cbn [hid packetCount].
  split; [exact Hsent|]. split; [reflexivity|]. split; [reflexivity|].
  split; [apply byte_pair_value|]. split.
  - intros Htx. rewrite Z.gtb_ltb. destruct (Z.ltb_spec 0 tx); [|lia].
    split; [reflexivity | apply u32_succ_low16].
  - intros Htx. rewrite Z.gtb_ltb. destruct (Z.ltb_spec 0 tx); [lia | reflexivity].
Qed.

Lemma send_counter_on_success_witness :
  exists out,
    sent_packets (calls (rawhid_poll (Some (replicate 64%nat 9)) 1)
                        (booted (fun _ => 0))) = [out]
    /\ out !! 62%nat = Some (highByte (packetCount (hid (booted (fun _ => 0)))))
    /\ out !! 63%nat = Some (lowByte (packetCount (hid (booted (fun _ => 0)))))
    /\ 256 * highByte (packetCount (hid (booted (fun _ => 0))))
       + lowByte (packetCount (hid (booted (fun _ => 0))))
       = packetCount (hid (booted (fun _ => 0))) mod 65536
    /\ (0 < 1 ->
        packetCount (hid (exec (rawhid_poll (Some (replicate 64%nat 9)) 1)
                               (booted (fun _ => 0))))
          = u32 (packetCount (hid (booted (fun _ => 0))) + 1)
        /\ packetCount (hid (exec (rawhid_poll (Some (replicate 64%nat 9)) 1)
                                  (booted (fun _ => 0)))) mod 65536
          = (packetCount (hid (booted (fun _ => 0))) mod 65536 + 1) mod 65536)
    /\ (1 <= 0 ->
        packetCount (hid (exec (rawhid_poll (Some (replicate 64%nat 9)) 1)
                               (booted (fun _ => 0))))
          = packetCount (hid (booted (fun _ => 0)))).
Proof.
  apply (send_counter_on_success (booted (fun _ => 0)) (replicate 64%nat 9) 1).
  reflexivity.
Defined.

(** C10.  The packet sent in answer to a received 64-byte packet is
    determined by the encoder position and [packetCount] alone: two polls
    that agree on these send the same packet, whatever the two received
    packets, the rest of the two machine states and the send results are.
    It is the packet built from the mapped knob value and the counter, and
    it is what [buffer] holds afterwards: nothing of the received packet is
    left in it. *)
Theorem response_independent_of_request (w1 w2 : world) (pkt1 pkt2 : list Z)
    (tx1 tx2 : Z) :
  length pkt1 = 64%nat -> length pkt2 = 64%nat ->
  encoder_maxvel w1 = encoder_maxvel w2 ->
  packetCount (hid w1) = packetCount (hid w2) ->
  sent_packets (calls (rawhid_poll (Some pkt1) tx1) w1)
    = sent_packets (calls (rawhid_poll (Some pkt2) tx2) w2)
  /\ sent_packets (calls (rawhid_poll (Some pkt1) tx1) w1)
     = [device_packet (lut_value (encoder_maxvel w1)) (packetCount (hid w1))]
  /\ buffer (exec (rawhid_poll (Some pkt1) tx1) w1)
     = device_packet (lut_value (encoder_maxvel w1)) (packetCount (hid w1)).
Proof.
  intros H1 H2 Henc Hcnt.
  assert (Hs : forall w pkt tx, length pkt = 64%nat ->
            sent_packets (calls (rawhid_poll (Some pkt) tx) w)
              = [device_packet (lut_value (encoder_maxvel w)) (packetCount (hid w))]
            /\ buffer (exec (rawhid_poll (Some pkt) tx) w)
              = device_packet (lut_value (encoder_maxvel w)) (packetCount (hid w))).
  { intros w pkt tx Hpkt. unfold exec, calls.
    apply (wp_rawhid_poll pkt tx w
             (fun _ w' log =>
                sent_packets log
                  = [device_packet (lut_value (encoder_maxvel w)) (packetCount (hid w))]
                /\ buffer w'
                  = device_packet (lut_value (encoder_maxvel w)) (packetCount (hid w)))
             Hpkt).
    intros g' n' es _ Hsent _ _ _ _ _. split; [exact Hsent | reflexivity]. }
  destruct (Hs w1 pkt1 tx1 H1) as [Hs1 Hb1].
  destruct (Hs w2 pkt2 tx2 H2) as [Hs2 _].
  rewrite Hs1, Hs2, Henc, Hcnt. repeat split. rewrite <- Henc, <- Hcnt. exact Hb1.
Qed.

Lemma response_independent_of_request_witness :
  let w1 := booted (fun _ => 0) in
  let w2 := exec (set_indicator INDICATOR_BEACON_RED INDICATOR_BLINK 250)
                 (booted (fun _ => 3)) in
  let pkt1 := replicate 64%nat 255 in
  let pkt2 := [1; 2; 0; 0; 77; 1; 1] ++ replicate 57%nat 170 in
  sent_packets (calls (rawhid_poll (Some pkt1) 1) w1)
    = sent_packets (calls (rawhid_poll (Some pkt2) 0) w2)
  /\ sent_packets (calls (rawhid_poll (Some pkt1) 1) w1)
     = [device_packet (lut_value (encoder_maxvel w1)) (packetCount (hid w1))]
  /\ buffer (exec (rawhid_poll (Some pkt1) 1) w1)
     = device_packet (lut_value (encoder_maxvel w1)) (packetCount (hid w1)).
Proof.
  intros w1 w2 pkt1 pkt2.
  apply (response_independent_of_request w1 w2 pkt1 pkt2 1 0); reflexivity.
Defined.

(** ** Indicator manager: further properties *)

(** A call whose switch changes nothing leaves the machine as it is. *)
Lemma set_indicator_noop idx s p w i :
  g_indicators w !! idx = Some i ->
  set_indicator_switch (timer_ids w (timer_calls w)) i s p = (i, []) ->
  set_indicator idx s p w = mk_outcome tt w [].
Proof.
  intros Hi Hsw. unfold set_indicator. rewrite Hi, Hsw. cbn [fst snd count].
  rewrite (list_insert_id _ _ _ Hi), Nat.add_0_r.
  unfold with_timer_calls, with_indicators. cbn. rewrite world_eta. reflexivity.
Qed.

Lemma set_indicator_steady_calls idx target p w i :
  g_indicators w !! idx = Some i ->
  target = INDICATOR_OFF \/ target = INDICATOR_ON ->
  state i <> target ->
  eff (set_indicator idx target p w)
    = (if event_id i =? -1 then [] else [t_stop (event_id i)])
      ++ [digitalWrite (io_pin i)
            (if target =? INDICATOR_ON then Z.b2z (active_level i)
             else Z.lnot (Z.b2z (active_level i)))].
Proof.
  intros Hi Ht Hne.
  destruct (set_indicator_same idx target p w i Hi) as [_ He].
  rewrite He. clear He.
  unfold set_indicator_switch, INDICATOR_OFF, INDICATOR_ON in *.
  destruct i as [ev pin al st]. cbn [state event_id io_pin active_level] in *.
  destruct Ht as [-> | ->]; split_eqb; try contradiction; reflexivity.
Qed.

(** X1.  Switching an indicator to OFF or to ON from any other mode first
    cancels the recorded timer handle with [t.stop], if there is one, then
    drives the pin, and leaves the indicator in the new mode with no handle
    recorded. *)
Theorem set_indicator_cancels_timer (w : world) (idx : nat) (i : s_indicator)
    (target p : Z) :
  g_indicators w !! idx = Some i ->
  target = INDICATOR_OFF \/ target = INDICATOR_ON ->
  state i <> target ->
  calls (set_indicator idx target p) w
    = (if event_id i =? -1 then [] else [t_stop (event_id i)])
      ++ [digitalWrite (io_pin i)
            (if target =? INDICATOR_ON then Z.b2z (active_level i)
             else Z.lnot (Z.b2z (active_level i)))]
  /\ g_indicators (exec (set_indicator idx target p) w) !! idx
     = Some (mk_indicator (-1) (io_pin i) (active_level i) target).
Proof.
  intros Hi Ht Hne. unfold calls, exec.
  split; [apply set_indicator_steady_calls; assumption|].
  destruct (set_indicator_same idx target p w i Hi) as [Hg _].
  rewrite Hg. clear Hg.
  unfold set_indicator_switch, INDICATOR_OFF, INDICATOR_ON in *.
  destruct i as [ev pin al st]. cbn [state event_id io_pin active_level] in *.
  destruct Ht as [-> | ->]; split_eqb; try contradiction; reflexivity.
Qed.

Lemma set_indicator_cancels_timer_witness :
  let w := exec (set_indicator INDICATOR_BEACON_RED INDICATOR_BLINK 250)
                (booted (fun _ => 6)) in
  calls (set_indicator INDICATOR_BEACON_RED INDICATOR_OFF 0) w
    = [t_stop 6; digitalWrite PIN_BEACON_RED (-1)]
  /\ g_indicators (exec (set_indicator INDICATOR_BEACON_RED INDICATOR_OFF 0) w)
       !! INDICATOR_BEACON_RED
     = Some (mk_indicator (-1) PIN_BEACON_RED LOW INDICATOR_OFF).
Proof.
  intros w.
  apply (set_indicator_cancels_timer w INDICATOR_BEACON_RED
           (mk_indicator 6 PIN_BEACON_RED LOW INDICATOR_BLINK) INDICATOR_OFF 0).
  - reflexivity.
  - left; reflexivity.
  - discriminate.
Defined.

(** X2.  When the Timer library refuses a BLINK registration (answers -1),
    the indicator is left in mode BLINK with no handle.  A BLINK request
    that follows directly is not a retry: it makes no call and changes
    nothing, whatever the library would answer.  Once the indicator has
    been switched OFF or ON, the next BLINK request calls [t.oscillate]
    again. *)
Theorem blink_refused_not_retried (w : world) (idx : nat) (i : s_indicator)
    (p p' : Z) :
  g_indicators w !! idx = Some i ->
  state i <> INDICATOR_BLINK ->
  event_id i = -1 ->
  timer_ids w (timer_calls w) = -1 ->
  let w1 := exec (set_indicator idx INDICATOR_BLINK p) w in
  g_indicators w1 !! idx
    = Some (mk_indicator (-1) (io_pin i) (active_level i) INDICATOR_BLINK)
  /\ set_indicator idx INDICATOR_BLINK p' w1 = mk_outcome tt w1 []
  /\ (forall target p1 p2,
        target = INDICATOR_OFF \/ target = INDICATOR_ON ->
        let w2 := exec (set_indicator idx target p1) w1 in
        calls (set_indicator idx INDICATOR_BLINK p2) w2
        = [t_oscillate (io_pin i) p2 (Z.b2z (active_level i))
                       (timer_ids w2 (timer_calls w2))]).
Proof.
  intros Hi Hst Hev Hid w1. subst w1. unfold exec.
  destruct (set_indicator_same idx INDICATOR_BLINK p w i Hi) as [Hg _].
  assert (Hsw : (set_indicator_switch (timer_ids w (timer_calls w)) i
                   INDICATOR_BLINK p).1
                = mk_indicator (-1) (io_pin i) (active_level i) INDICATOR_BLINK).
  { rewrite Hid. unfold set_indicator_switch, INDICATOR_BLINK in *.
    destruct i as [ev pin al st]. cbn [state event_id io_pin active_level] in *.
    subst ev. destruct (Z.eqb_spec st 2); [contradiction | reflexivity]. }
  rewrite Hsw in Hg. split; [exact Hg|]. split.
  - apply (set_indicator_noop _ _ _ _ _ Hg). reflexivity.
  - intros target p1 p2 Ht. cbv zeta. unfold calls, exec.
    destruct (set_indicator_same idx target p1 _ _ Hg) as [Hg2 _].
    destruct (set_indicator_same idx INDICATOR_BLINK p2 _ _ Hg2) as [_ He].
    rewrite He. destruct Ht as [-> | ->]; reflexivity.
Qed.

Lemma blink_refused_not_retried_witness :
  let ids := fun k : nat => if (k <? 1)%nat then -1 else 4 in
  let w1 := exec (set_indicator INDICATOR_LED_RFID INDICATOR_BLINK 500)
                 (booted ids) in
  g_indicators w1 !! INDICATOR_LED_RFID
    = Some (mk_indicator (-1) PIN_LED_RFID LOW INDICATOR_BLINK)
  /\ set_indicator INDICATOR_LED_RFID INDICATOR_BLINK 500 w1
     = mk_outcome tt w1 []
  /\ (forall target p1 p2,
        target = INDICATOR_OFF \/ target = INDICATOR_ON ->
        let w2 := exec (set_indicator INDICATOR_LED_RFID target p1) w1 in
        calls (set_indicator INDICATOR_LED_RFID INDICATOR_BLINK p2) w2
        = [t_oscillate PIN_LED_RFID p2 (Z.b2z LOW)
                       (timer_ids w2 (timer_calls w2))]).
Proof.
  intros ids.
  apply (blink_refused_not_retried (booted ids) INDICATOR_LED_RFID
           (mk_indicator (-1) PIN_LED_RFID LOW INDICATOR_OFF) 500 500);
    try reflexivity. discriminate.
Defined.

Lemma set_indicator_switch_wiring h i s p :
  io_pin (set_indicator_switch h i s p).1 = io_pin i
  /\ active_level (set_indicator_switch h i s p).1 = active_level i.
Proof.
  unfold set_indicator_switch. destruct i as [ev pin al st].
  split_eqb; split; reflexivity.
Qed.

Lemma set_indicator_switch_unknown h i s p :
  s <> INDICATOR_OFF -> s <> INDICATOR_ON -> s <> INDICATOR_BLINK ->
  s <> INDICATOR_PULSE ->
  set_indicator_switch h i s p = (i, []).
Proof.
  unfold set_indicator_switch. intros H0 H1 H2 H3.
  destruct (Z.eqb_spec s INDICATOR_OFF); [contradiction|].
  destruct (Z.eqb_spec s INDICATOR_ON); [contradiction|].
  destruct (Z.eqb_spec s INDICATOR_BLINK); [contradiction|].
  destruct (Z.eqb_spec s INDICATOR_PULSE); [contradiction|]. reflexivity.
Qed.

(** X3.  What [set_indicator] never does: it leaves [buffer], the encoder
    position and the statics of the two polls alone, keeps the length of
    the indicator array, does not touch any other indicator, never changes
    the pin or the polarity of the indicator it is called on, and makes
    only pin and timer calls.  With a mode value outside the enumeration it
    makes no call and changes nothing at all. *)
Theorem set_indicator_confined (w : world) (idx : nat) (s p : Z) :
  buffer (exec (set_indicator idx s p) w) = buffer w
  /\ encoder_maxvel (exec (set_indicator idx s p) w) = encoder_maxvel w
  /\ rfid (exec (set_indicator idx s p) w) = rfid w
  /\ hid (exec (set_indicator idx s p) w) = hid w
  /\ length (g_indicators (exec (set_indicator idx s p) w))
     = length (g_indicators w)
  /\ (forall j, j <> idx ->
        g_indicators (exec (set_indicator idx s p) w) !! j = g_indicators w !! j)
  /\ (forall i, g_indicators w !! idx = Some i ->
        exists i', g_indicators (exec (set_indicator idx s p) w) !! idx = Some i'
                   /\ io_pin i' = io_pin i /\ active_level i' = active_level i)
  /\ forallb is_indicator_call (calls (set_indicator idx s p) w) = true
  /\ (s <> INDICATOR_OFF -> s <> INDICATOR_ON -> s <> INDICATOR_BLINK ->
      s <> INDICATOR_PULSE ->
      set_indicator idx s p w = mk_outcome tt w []).
Proof.
  unfold exec, calls.
  split; [apply set_indicator_buffer|]. split; [apply set_indicator_encoder|].
  split; [apply set_indicator_rfid|]. split; [apply set_indicator_hid|].
  split; [apply set_indicator_length|]. split; [apply set_indicator_other|].
  split; [|split; [apply set_indicator_calls|]].
  - intros i Hi. destruct (set_indicator_same idx s p w i Hi) as [Hg _].
    eexists. split; [exact Hg|]. apply set_indicator_switch_wiring.
  - intros H0 H1 H2 H3.
    destruct (g_indicators w !! idx) as [i|] eqn:Hi.
    + apply (set_indicator_noop _ _ _ _ i Hi).
      apply set_indicator_switch_unknown; assumption.
    + apply set_indicator_absent. exact Hi.
Qed.

(** X5.  The level [set_indicator] passes to [digitalWrite] for OFF is
    [~active_level] taken on the [int] the [bool] promotes to: -1 for an
    active-low indicator and -2 for an active-high one, 255 and 254 as the
    [uint8_t] the call receives, so never 0; for ON it is [active_level]
    itself.  For an active-high indicator OFF and ON therefore both pass a
    nonzero level. *)
Theorem off_level_never_zero (w : world) (idx : nat) (i : s_indicator) (p : Z) :
  g_indicators w !! idx = Some i ->
  state i <> INDICATOR_OFF ->
  In (digitalWrite (io_pin i) (Z.lnot (Z.b2z (active_level i))))
     (calls (set_indicator idx INDICATOR_OFF p) w)
  /\ u8 (Z.lnot (Z.b2z (active_level i))) = (if active_level i then 254 else 255)
  /\ (state i <> INDICATOR_ON ->
      In (digitalWrite (io_pin i) (Z.b2z (active_level i)))
         (calls (set_indicator idx INDICATOR_ON p) w))
  /\ u8 (Z.b2z (active_level i)) = (if active_level i then 1 else 0).
Proof.
  intros Hi Hoff. unfold calls.
  pose proof (set_indicator_steady_calls idx INDICATOR_OFF p w i Hi
                (or_introl eq_refl) Hoff) as Hc.
  split; [rewrite Hc; apply in_or_app; right; left; reflexivity|].
  split; [destruct (active_level i); reflexivity|].
  split; [|destruct (active_level i); reflexivity].
  intros Hon.
  pose proof (set_indicator_steady_calls idx INDICATOR_ON p w i Hi
                (or_intror eq_refl) Hon) as Hc'.
  rewrite Hc'. apply in_or_app; right; left; reflexivity.
Qed.

Lemma off_level_never_zero_witness :
  let i := mk_indicator (-1) 9 true INDICATOR_BLINK in
  let w := with_indicators (booted (fun _ => 0)) [i] in
  In (digitalWrite 9 (-2)) (calls (set_indicator 0 INDICATOR_OFF 0) w)
  /\ u8 (-2) = 254
  /\ (INDICATOR_BLINK <> INDICATOR_ON ->
      In (digitalWrite 9 1) (calls (set_indicator 0 INDICATOR_ON 0) w))
  /\ u8 1 = 1.
Proof.
  intros i w.
  apply (off_level_never_zero w 0 i 0); [reflexivity | discriminate].
Defined.

Lemma set_indicator_switch_ok idx h i s p :
  indicator_ok idx i -> requested_mode s ->
  indicator_ok idx (set_indicator_switch h i s p).1
  /\ state (set_indicator_switch h i s p).1 = s.
Proof.
  unfold indicator_ok, requested_mode, set_indicator_switch, INDICATOR_OFF,
    INDICATOR_ON, INDICATOR_BLINK, INDICATOR_PULSE.
  destruct i as [ev pin al st]. cbn [state event_id io_pin active_level].
  intros (Hpin & Hal & Hst & Hc) Hs.
  destruct Hs as [-> | [-> | ->]]; split_eqb;
    unfold with_state, with_event_id;
    cbn [state event_id io_pin active_level fst];
    repeat split; auto; try lia.
  all: try solve [intros [?|?]; lia].
  all: exfalso; destruct Hst as [? | [? | ?]]; try lia.
  all: match goal with Hn : ?e <> -1 |- _ => apply Hn, Hc; lia end.
Qed.

Lemma set_indicator_keeps_ok idx s p w :
  indicators_ok (g_indicators w) ->
  (idx < INDICATOR_COUNT)%nat ->
  requested_mode s ->
  indicators_ok (g_indicators (exec (set_indicator idx s p) w)).
Proof.
  intros [Hlen Hok] Hidx Hs. unfold exec.
  destruct (lookup_lt_is_Some_2 (g_indicators w) idx) as [i Hi];
    [rewrite Hlen; exact Hidx|].
  destruct (set_indicator_same idx s p w i Hi) as [Hg _].
  destruct (set_indicator_switch_ok idx (timer_ids w (timer_calls w)) i s p
              (Hok idx i Hi) Hs) as [Hok' _].
  split.
  - rewrite set_indicator_length. exact Hlen.
  - intros j ij Hj. destruct (Nat.eq_dec j idx) as [->|Hne].
    + rewrite Hg in Hj. injection Hj as <-. exact Hok'.
    + rewrite set_indicator_other in Hj by exact Hne. exact (Hok j ij Hj).
Qed.

Lemma set_indicator_reaches_mode idx s p w :
  indicators_ok (g_indicators w) ->
  (idx < INDICATOR_COUNT)%nat ->
  requested_mode s ->
  mode_of (exec (set_indicator idx s p) w) idx = Some s.
Proof.
  intros [Hlen Hok] Hidx Hs. unfold mode_of, exec.
  destruct (lookup_lt_is_Some_2 (g_indicators w) idx) as [i Hi];
    [rewrite Hlen; exact Hidx|].
  destruct (set_indicator_same idx s p w i Hi) as [Hg _].
  destruct (set_indicator_switch_ok idx (timer_ids w (timer_calls w)) i s p
              (Hok idx i Hi) Hs) as [_ Hst].
  rewrite Hg. cbn. f_equal. exact Hst.
Qed.

(** X6.  In the running sketch a request is always honoured: when every
    indicator is wired as in [setup], active low, in mode OFF, ON or BLINK
    and without a handle while OFF or ON, a [set_indicator] call for mode
    OFF, ON or BLINK on one of the eight indicators leaves that indicator
    in the requested mode, whatever the Timer library answers, and the
    same holds of all indicators again afterwards. *)
Theorem set_indicator_honoured (w : world) (idx : nat) (s p : Z) :
  indicators_ok (g_indicators w) ->
  (idx < INDICATOR_COUNT)%nat ->
  requested_mode s ->
  indicators_ok (g_indicators (exec (set_indicator idx s p) w))
  /\ mode_of (exec (set_indicator idx s p) w) idx = Some s.
Proof.
  intros Hg Hidx Hs. split.
  - apply set_indicator_keeps_ok; assumption.
  - apply set_indicator_reaches_mode; assumption.
Qed.

(** Check [indicators_ok] on an array that is written out. *)
Ltac explicit_ok :=
  split; [reflexivity|];
  let idx := fresh "idx" in
  let i := fresh "i" in
  let H := fresh "H" in
  intros idx i H;
  do 8 (destruct idx as [|idx];
        [injection H as <-; unfold indicator_ok; cbn;
         repeat split; auto; intros [?|?]; reflexivity || discriminate|]);
  discriminate H.

Lemma set_indicator_honoured_witness :
  indicators_ok
    (g_indicators (exec (set_indicator INDICATOR_LED_RFID INDICATOR_BLINK 500)
                        (booted (fun _ => 2))))
  /\ mode_of (exec (set_indicator INDICATOR_LED_RFID INDICATOR_BLINK 500)
                   (booted (fun _ => 2))) INDICATOR_LED_RFID
     = Some INDICATOR_BLINK.
Proof.
  apply (set_indicator_honoured (booted (fun _ => 2)) INDICATOR_LED_RFID
           INDICATOR_BLINK 500).
  - explicit_ok.
  - unfold INDICATOR_LED_RFID, INDICATOR_COUNT. lia.
  - right; right; reflexivity.
Defined.

Lemma setup_indicators w :
  length (g_indicators w) = INDICATOR_COUNT ->
  g_indicators (exec setup w)
    = (fun idx => mk_indicator (-1) (pin_of idx) LOW INDICATOR_OFF)
        <$> seq 0 INDICATOR_COUNT.
Proof.
  destruct w as [g buf enc rf hd ids n]. cbn [g_indicators]. intros Hlen.
  do 9 (destruct g as [|? g]; try discriminate Hlen). reflexivity.
Qed.

Lemma setup_indicators_ok w :
  length (g_indicators w) = INDICATOR_COUNT ->
  indicators_ok (g_indicators (exec setup w)).
Proof. intros Hlen. rewrite (setup_indicators w Hlen). explicit_ok. Qed.

(** X4.  [setup] initialises all eight indicators whatever the array held
    before: each is in mode OFF with no handle, on its own pin and active
    low; every indicator pin has been made an output and driven with
    [~LOW], that is -1; no timer has been registered; the encoder position
    is 1. *)
Theorem setup_initialises (w : world) :
  length (g_indicators w) = INDICATOR_COUNT ->
  g_indicators (exec setup w)
    = (fun idx => mk_indicator (-1) (pin_of idx) LOW INDICATOR_OFF)
        <$> seq 0 INDICATOR_COUNT
  /\ indicators_ok (g_indicators (exec setup w))
  /\ (forall idx, (idx < INDICATOR_COUNT)%nat ->
        In (pinMode (pin_of idx) OUTPUT) (calls setup w)
        /\ In (digitalWrite (pin_of idx) (-1)) (calls setup w))
  /\ count is_timer_call (calls setup w) = 0%nat
  /\ encoder_maxvel (exec setup w) = 1.
Proof.
  intros Hlen.
  split; [exact (setup_indicators w Hlen)|].
  split; [exact (setup_indicators_ok w Hlen)|].
  destruct w as [g buf enc rf hd ids n]. cbn [g_indicators] in Hlen.
  do 9 (destruct g as [|? g]; try discriminate Hlen). clear Hlen.
  split; [|split; reflexivity].
  intros idx Hidx. unfold INDICATOR_COUNT in Hidx.
  do 8 (destruct idx as [|idx]; [split; cbn; auto 30|]). lia.
Qed.

Lemma setup_initialises_witness :
  g_indicators (exec setup (power_on (fun _ => 0)))
    = (fun idx => mk_indicator (-1) (pin_of idx) LOW INDICATOR_OFF)
        <$> seq 0 INDICATOR_COUNT
  /\ indicators_ok (g_indicators (exec setup (power_on (fun _ => 0))))
  /\ (forall idx, (idx < INDICATOR_COUNT)%nat ->
        In (pinMode (pin_of idx) OUTPUT) (calls setup (power_on (fun _ => 0)))
        /\ In (digitalWrite (pin_of idx) (-1)) (calls setup (power_on (fun _ => 0))))
  /\ count is_timer_call (calls setup (power_on (fun _ => 0))) = 0%nat
  /\ encoder_maxvel (exec setup (power_on (fun _ => 0))) = 1.
Proof.
  apply (setup_initialises (power_on (fun _ => 0))). reflexivity.
Defined.

(** ** RFID frame decoder: further properties *)

Lemma array_set_length a idx v : length (array_set a idx v) = length a.
Proof.
  unfold array_set. destruct (_ && _); [apply length_insert | reflexivity].
Qed.

Lemma print_rfid_buffer_length buf b3 :
  length (serial_out ([Serial_print 2] ++ print_rfid_buffer buf ++ [Serial_print b3]))
  = 12%nat.
Proof. reflexivity. Qed.

(** One byte: the invariant is kept, and either nothing is printed and the
    decoder has moved at most one byte into a frame, or a whole frame of 12
    bytes is printed, which happens on the 14th byte only. *)
Lemma rfid_switch_progress b r :
  rfid_ok r ->
  rfid_ok (rfid_switch b r).1
  /\ 0 <= rfid_pos r <= 13
  /\ ((serial_out (rfid_switch b r).2 = []
       /\ rfid_pos (rfid_switch b r).1 <= rfid_pos r + 1)
      \/ (length (serial_out (rfid_switch b r).2) = 12%nat
          /\ rfid_pos r = 13 /\ rfid_pos (rfid_switch b r).1 = 0)).
Proof.
  destruct r as [st cnt buf ck]. unfold rfid_ok, rfid_pos, rfid_switch.
  cbn [rfid_state rfid_byte_count rfid_buffer rfid_cksum].
  unfold RFID_STATE_WAIT_STX, RFID_STATE_GET_BYTES, RFID_STATE_GET_CKSUM,
    RFID_STATE_WAIT_ETX, u8.
  intros (Hb & Hc & [-> | [[-> Hr] | [[-> Hr] | ->]]]); cbn [Z.eqb Pos.eqb].
  - destruct (Z.eqb_spec b 2);
      cbn [fst snd rfid_state rfid_byte_count rfid_buffer rfid_cksum Z.eqb Pos.eqb];
      repeat split; auto; try lia; left; (split; [reflexivity | lia]).
  - rewrite Z.mod_small by lia.
    destruct (Z.eqb_spec (cnt - 1) 0);
      cbn [fst snd rfid_state rfid_byte_count rfid_buffer rfid_cksum Z.eqb Pos.eqb];
      rewrite ?array_set_length;
      (split; [repeat split; auto; lia|]);
      (split; [lia|]); left; (split; [reflexivity | lia]).
  - rewrite Z.mod_small by lia.
    destruct (Z.eqb_spec (cnt - 1) 0);
      cbn [fst snd rfid_state rfid_byte_count rfid_buffer rfid_cksum Z.eqb Pos.eqb];
      rewrite ?array_set_length;
      (split; [repeat split; auto; lia|]);
      (split; [lia|]); left; (split; [reflexivity | lia]).
  - cbn [fst snd rfid_state rfid_byte_count rfid_buffer rfid_cksum Z.eqb Pos.eqb].
    split; [repeat split; auto|]. split; [lia|].
    destruct (Z.eqb_spec b 3).
    + right. split; [apply print_rfid_buffer_length | split; reflexivity].
    + left. split; [reflexivity | lia].
Qed.

Lemma rfid_run_progress bs : forall r,
  rfid_ok r ->
  rfid_ok (rfid_run bs r).1
  /\ (exists k, length (serial_out (rfid_run bs r).2) = (12 * k)%nat)
  /\ 14 * Z.of_nat (length (serial_out (rfid_run bs r).2))
     + 12 * rfid_pos (rfid_run bs r).1
     <= 12 * (rfid_pos r + Z.of_nat (length bs)).
Proof.
  induction bs as [|b bs IH]; intros r Hr.
  - cbn. split; [exact Hr|]. split; [exists 0%nat; reflexivity | lia].
  - cbn [rfid_run fst snd length].
    destruct (rfid_switch_progress b r Hr) as (Hr1 & Hpos & Hstep).
    destruct (IH _ Hr1) as (Hr2 & [k Hk] & Hle).
    split; [exact Hr2|]. rewrite serial_out_app, length_app.
    destruct Hstep as [[Hout Hp] | (Hout & Hp & Hp0)]; rewrite Hout.
    + split; [exists k; cbn; exact Hk | cbn [length]; lia].
    + split; [exists (S k); lia | lia].
Qed.

Lemma rfid_polls_keep_decoder ins w :
  rfid_ok (rfid w) -> rfid_ok (rfid (exec (rfid_polls ins) w)).
Proof.
  intros Hr. destruct (rfid_polls_decode ins w) as [-> _].
  apply rfid_run_progress. exact Hr.
Qed.

(** X7.  Whatever bytes arrive, from power-on the decoder keeps its two
    arrays at their declared lengths and its remaining-byte count within
    the bounds of the state it is in, so the index it stores at,
    [10 - rfid_byte_count] or [2 - rfid_byte_count], is always inside the
    array. *)
Theorem rfid_decoder_in_bounds (ids : nat -> Z) (ins : list (option Z * option Z)) :
  let r := rfid (exec (rfid_polls ins) (booted ids)) in
  rfid_ok r
  /\ (rfid_state r = RFID_STATE_GET_BYTES ->
      0 <= 10 - rfid_byte_count r < Z.of_nat (length (rfid_buffer r)))
  /\ (rfid_state r = RFID_STATE_GET_CKSUM ->
      0 <= 2 - rfid_byte_count r < Z.of_nat (length (rfid_cksum r))).
Proof.
  intros r.
  assert (Hr : rfid_ok r).
  { apply rfid_polls_keep_decoder. repeat split; auto. }
  split; [exact Hr|].
  destruct Hr as (Hb & Hc & Hst). rewrite Hb, Hc.
  unfold RFID_STATE_WAIT_STX, RFID_STATE_GET_BYTES, RFID_STATE_GET_CKSUM,
    RFID_STATE_WAIT_ETX in *.
  split; intros Hs; rewrite Hs in Hst;
    destruct Hst as [? | [[? ?] | [[? ?] | ?]]]; lia.
Qed.

Lemma rfid_switch_skip b r :
  rfid_state r = RFID_STATE_WAIT_STX -> b <> 2 -> rfid_switch b r = (r, []).
Proof.
  intros Hst Hb. unfold rfid_switch. rewrite Hst.
  cbn [Z.eqb RFID_STATE_WAIT_STX].
  destruct (Z.eqb_spec b 2); [contradiction | reflexivity].
Qed.

(** From WAIT_STX, what the decoder prints is a sequence of frames, each
    the payload of a frame found in the bytes it was fed, and each taking
    14 of these bytes. *)
Lemma rfid_run_frames n : forall bs r,
  (length bs <= n)%nat ->
  rfid_ok r -> rfid_state r = RFID_STATE_WAIT_STX ->
  exists frames,
    serial_out (rfid_run bs r).2
      = concat ((fun p => [2] ++ p ++ [3]) <$> frames)
    /\ Forall (fun p => length p = 10%nat
                 /\ exists pre c post,
                      length c = 2%nat
                      /\ bs = pre ++ [2] ++ p ++ c ++ [3] ++ post) frames
    /\ (14 * length frames <= length bs)%nat.
Proof.
  induction n as [|n IH]; intros bs r Hn Hr Hst.
  { destruct bs; [|cbn [length] in Hn; lia].
    exists []. split; [reflexivity|]. split; [constructor | cbn; lia]. }
  destruct bs as [|b bs].
  { exists []. split; [reflexivity|]. split; [constructor | cbn; lia]. }
  cbn [length] in Hn.
  destruct (Z.eq_dec b 2) as [-> | Hb].
  - destruct (le_lt_dec 13 (length bs)) as [Hlong | Hshort].
    + do 13 (destruct bs as [|? bs]; [cbn [length] in Hlong; lia|]).
      clear Hlong. cbn [length] in Hn.
      change (2 :: z :: z0 :: z1 :: z2 :: z3 :: z4 :: z5 :: z6 :: z7 :: z8
                :: z9 :: z10 :: z11 :: bs)
        with ((2 :: [z; z0; z1; z2; z3; z4; z5; z6; z7; z8; z9; z10] ++ [z11])
              ++ bs).
      rewrite rfid_run_app. cbn [fst snd]. rewrite serial_out_app.
      set (frame := 2 :: [z; z0; z1; z2; z3; z4; z5; z6; z7; z8; z9; z10] ++ [z11]).
      assert (Hf : rfid_ok (rfid_run frame r).1)
        by (apply rfid_run_progress; exact Hr).
      destruct (Z.eq_dec z11 3) as [-> | Hetx].
      * destruct (rfid_run_frame r [z; z0; z1; z2; z3; z4; z5; z6; z7; z8]
                    [z9; z10] Hst (proj1 Hr) eq_refl eq_refl) as [Hout Hst'].
        change ([2] ++ [z; z0; z1; z2; z3; z4; z5; z6; z7; z8]
                    ++ [z9; z10] ++ [3]) with frame in Hout, Hst'.
        destruct (IH bs _ ltac:(lia) Hf Hst') as (frames & Hfr & Hall & Hcnt).
        exists ([z; z0; z1; z2; z3; z4; z5; z6; z7; z8] :: frames).
        split; [rewrite Hout, Hfr; reflexivity|]. split.
        -- constructor.
           ++ split; [reflexivity|]. exists [], [z9; z10], bs.
              split; reflexivity.
           ++ apply (Forall_impl _ _ _ Hall).
              intros q (Hq & pre & c & post & Hc & ->). split; [exact Hq|].
              exists (frame ++ pre), c, post. split; [exact Hc|].
              rewrite <- app_assoc. reflexivity.
        -- subst frame. cbn [length app] in *. lia.
      * destruct (rfid_run_missing_etx r
                    [z; z0; z1; z2; z3; z4; z5; z6; z7; z8; z9; z10] z11
                    Hst eq_refl Hetx) as [Hout Hst'].
        fold frame in Hout, Hst'.
        destruct (IH bs _ ltac:(lia) Hf Hst') as (frames & Hfr & Hall & Hcnt).
        exists frames.
        split; [rewrite Hout, Hfr; reflexivity|]. split.
        -- apply (Forall_impl _ _ _ Hall).
           intros q (Hq & pre & c & post & Hc & ->). split; [exact Hq|].
           exists (frame ++ pre), c, post. split; [exact Hc|].
           rewrite <- app_assoc. reflexivity.
        -- subst frame. cbn [length app] in *. lia.
    + destruct (rfid_run_truncated r bs Hst) as [Hout _]; [lia|].
      exists []. split; [exact Hout|]. split; [constructor | cbn; lia].
  - cbn [rfid_run]. rewrite (rfid_switch_skip b r Hst Hb). cbn [fst snd app].
    destruct (IH bs r ltac:(lia) Hr Hst) as (frames & Hfr & Hall & Hcnt).
    exists frames. split; [exact Hfr|]. split.
    + apply (Forall_impl _ _ _ Hall).
      intros q (Hq & pre & c & post & Hc & ->). split; [exact Hq|].
      exists (b :: pre), c, post. split; [exact Hc | reflexivity].
    + cbn [length]. lia.
Qed.

(** X9.  From WAIT_STX the decoder prints whole frames only: its output is
    a sequence of frames 02, ten payload bytes, 03, each payload one that
    the reader delivered as 02, payload, two bytes, 03.  It prints at most
    one frame for every 14 bytes the reader delivers, so its output is a
    multiple of 12 bytes long, and fewer than 14 bytes, whatever they are,
    print nothing. *)
Theorem rfid_output_rate (w : world) (ins : list (option Z * option Z)) :
  rfid_ok (rfid w) ->
  rfid_state (rfid w) = RFID_STATE_WAIT_STX ->
  (exists frames,
     serial_out (calls (rfid_polls ins) w)
       = concat ((fun p => [2] ++ p ++ [3]) <$> frames)
     /\ Forall (fun p => length p = 10%nat
                  /\ exists pre c post,
                       length c = 2%nat
                       /\ reader_bytes ins = pre ++ [2] ++ p ++ c ++ [3] ++ post)
               frames
     /\ (14 * length frames <= length (reader_bytes ins))%nat)
  /\ (exists k, length (serial_out (calls (rfid_polls ins) w)) = (12 * k)%nat)
  /\ (14 * length (serial_out (calls (rfid_polls ins) w))
      <= 12 * length (reader_bytes ins))%nat
  /\ ((length (reader_bytes ins) < 14)%nat ->
      serial_out (calls (rfid_polls ins) w) = []).
Proof.
  intros Hr Hst.
  destruct (rfid_polls_decode ins w) as [_ ->].
  split; [exact (rfid_run_frames _ _ _ (le_n _) Hr Hst)|].
  destruct (rfid_run_progress (reader_bytes ins) (rfid w) Hr) as (Hr' & [k Hk] & Hle).
  destruct (rfid_switch_progress 0 _ Hr') as (_ & Hpos & _).
  assert (Hp0 : rfid_pos (rfid w) = 0) by (unfold rfid_pos; rewrite Hst; reflexivity).
  split; [exists k; exact Hk|]. split; [lia|].
  intros Hlen. destruct (serial_out _) as [|x l]; [reflexivity|].
  cbn [length] in *. lia.
Qed.

Lemma rfid_output_rate_witness :
  let ins := [(None, Some 3); (None, Some 2);
              (None, Some 48); (None, Some 49); (None, Some 50); (None, Some 51);
              (None, Some 52); (Some 49, Some 2); (None, Some 54); (None, Some 55);
              (None, Some 56); (None, Some 57);
              (None, Some 65); (None, None); (None, Some 66); (None, Some 3)] in
  let w := booted (fun _ => 0) in
  (exists frames,
     serial_out (calls (rfid_polls ins) w)
       = concat ((fun p => [2] ++ p ++ [3]) <$> frames)
     /\ Forall (fun p => length p = 10%nat
                  /\ exists pre c post,
                       length c = 2%nat
                       /\ reader_bytes ins = pre ++ [2] ++ p ++ c ++ [3] ++ post)
               frames
     /\ (14 * length frames <= length (reader_bytes ins))%nat)
  /\ (exists k, length (serial_out (calls (rfid_polls ins) w)) = (12 * k)%nat)
  /\ (14 * length (serial_out (calls (rfid_polls ins) w))
      <= 12 * length (reader_bytes ins))%nat
  /\ ((length (reader_bytes ins) < 14)%nat ->
      serial_out (calls (rfid_polls ins) w) = []).
Proof.
  intros ins w.
  apply (rfid_output_rate w ins).
  - repeat split; auto.
  - reflexivity.
Defined.

Lemma rfid_run_stream fs : forall r,
  rfid_ok r -> rfid_state r = RFID_STATE_WAIT_STX -> frames_ok fs ->
  serial_out (rfid_run (frame_stream fs) r).2 = forwarded fs
  /\ rfid_state (rfid_run (frame_stream fs) r).1 = RFID_STATE_WAIT_STX.
Proof.
  induction fs as [|[[junk p] c] fs IH]; intros r Hr Hst Hfs.
  - split; [reflexivity | exact Hst].
  - inversion Hfs as [|? ? (Hjunk & Hp & Hc) Hfs']; subst.
    cbn [fst snd] in *. cbn [frame_stream forwarded fst snd].
    destruct (rfid_run_frame r p c Hst (proj1 Hr) Hp Hc) as [Hout Hback].
    destruct (rfid_run_progress ([2] ++ p ++ c ++ [3]) r Hr) as (Hr' & _).
    destruct (IH _ Hr' Hback Hfs') as [IHout IHst].
    set (frame := [2] ++ p ++ c ++ [3]) in *.
    rewrite rfid_run_app, (rfid_run_idle junk r Hst Hjunk). cbn [fst snd].
    rewrite rfid_run_app. cbn [fst snd].
    rewrite !serial_out_app, Hout, IHout. split; [reflexivity | exact IHst].
Qed.

(** X8.  A stream of frames is forwarded frame by frame: when the reader
    delivers any number of well-formed frames, each preceded by any bytes
    other than STX, the host-facing line receives STX, payload, ETX of each
    frame, in order, and nothing else, and the decoder ends in WAIT_STX. *)
Theorem rfid_frames_in_sequence (w : world) (ins : list (option Z * option Z))
    (fs : list (list Z * list Z * list Z)) :
  rfid_ok (rfid w) ->
  rfid_state (rfid w) = RFID_STATE_WAIT_STX ->
  frames_ok fs ->
  reader_bytes ins = frame_stream fs ->
  serial_out (calls (rfid_polls ins) w) = forwarded fs
  /\ rfid_state (rfid (exec (rfid_polls ins) w)) = RFID_STATE_WAIT_STX.
Proof.
  intros Hr Hst Hfs Hins.
  destruct (rfid_polls_decode ins w) as [-> ->]. rewrite Hins.
  apply rfid_run_stream; assumption.
Qed.

Lemma rfid_frames_in_sequence_witness :
  let p1 := [48; 49; 50; 51; 52; 53; 54; 55; 56; 57] in
  let p2 := [65; 66; 2; 3; 67; 68; 69; 70; 71; 72] in
  let fs := [([13; 10], p1, [3; 2]); ([], p2, [0; 0])] in
  let ins := (fun b => (None, Some b)) <$> frame_stream fs in
  serial_out (calls (rfid_polls ins) (booted (fun _ => 0))) = forwarded fs
  /\ rfid_state (rfid (exec (rfid_polls ins) (booted (fun _ => 0))))
     = RFID_STATE_WAIT_STX.
Proof.
  intros p1 p2 fs ins.
  apply (rfid_frames_in_sequence (booted (fun _ => 0)) ins fs).
  - repeat split; auto.
  - reflexivity.
  - repeat constructor; cbn; discriminate.
  - reflexivity.
Defined.

(** ** Buttons *)

(** X10.  [button_poll] makes keyboard calls for the edges reported and for
    nothing else.  From a keyboard with nothing held, the reports sent are,
    in the order start, stop, feed, M1: for a start edge ALT, ALT+R, ALT,
    nothing; for a stop edge ESC, nothing; for a feed edge SPACE, nothing;
    for an M1 edge ALT, ALT+K, ALT, nothing.  So every key goes down and up
    again within the poll, R and K only while ALT is held, and nothing is
    held when the poll returns. *)
Theorem button_poll_reports (e : button_edges) :
  keyboard_reports released (button_poll e)
    = (released,
       (if start_rising e then
          [(MODIFIERKEY_ALT, KEY_NONE); (MODIFIERKEY_ALT, KEY_R);
           (MODIFIERKEY_ALT, KEY_NONE); released]
        else [])
       ++ (if stop_falling e then [(MODIFIER_NONE, KEY_ESC); released] else [])
       ++ (if feed_falling e then [(MODIFIER_NONE, KEY_SPACE); released] else [])
       ++ (if m1_falling e then
             [(MODIFIERKEY_ALT, KEY_NONE); (MODIFIERKEY_ALT, KEY_K);
              (MODIFIERKEY_ALT, KEY_NONE); released]
           else []))
  /\ (button_poll e = [] <->
      start_rising e = false /\ stop_falling e = false
      /\ feed_falling e = false /\ m1_falling e = false).
Proof.
  destruct e as [[|] [|] [|] [|]]; (split; [reflexivity|]);
    cbn; split; try discriminate; try (intros (? & ? & ? & ?); discriminate);
    auto.
Qed.

(** X11.  Whatever was held before, a poll in which at least one edge is
    reported leaves no key and no modifier held, and the last report it
    sends is the empty one. *)
Theorem button_poll_releases (st : keyboard_report) (e : button_edges) :
  start_rising e || stop_falling e || feed_falling e || m1_falling e = true ->
  (keyboard_reports st (button_poll e)).1 = released
  /\ last (keyboard_reports st (button_poll e)).2 = Some released.
Proof.
  destruct st as [m k].
  destruct e as [[|] [|] [|] [|]]; cbn; intros H; try discriminate H;
    split; reflexivity.
Qed.

Lemma button_poll_releases_witness :
  (keyboard_reports (MODIFIERKEY_ALT, KEY_K)
     (button_poll (mk_edges false true false false))).1 = released
  /\ last (keyboard_reports (MODIFIERKEY_ALT, KEY_K)
             (button_poll (mk_edges false true false false))).2
     = Some released.
Proof.
  apply (button_poll_releases (MODIFIERKEY_ALT, KEY_K)
           (mk_edges false true false false)).
  reflexivity.
Defined.

(** ** Host link: the indicators in the running sketch *)

Lemma wp_set_indicator_ok idx s p w Q :
  indicators_ok (g_indicators w) ->
  (idx < INDICATOR_COUNT)%nat ->
  requested_mode s ->
  (forall g' n' es,
     indicators_ok g' ->
     (forall j, j <> idx -> g' !! j = g_indicators w !! j) ->
     state <$> g' !! idx = Some s ->
     forallb is_indicator_call es = true ->
     Q tt (mk_world g' (buffer w) (encoder_maxvel w) (rfid w) (hid w)
                    (timer_ids w) n') es) ->
  wp (set_indicator idx s p) w Q.
Proof.
  intros [Hlen Hok] Hidx Hs H.
  destruct (lookup_lt_is_Some_2 (g_indicators w) idx) as [i Hi];
    [rewrite Hlen; exact Hidx|].
  apply wp_set_indicator. intros g' n' es Hlen' Hoth Hcalls Hsame.
  destruct (Hsame i Hi) as [Hg _].
  destruct (set_indicator_switch_ok idx (timer_ids w (timer_calls w)) i s p
              (Hok idx i Hi) Hs) as [Hok' Hst].
  apply H; try assumption.
  - split; [congruence|].
    intros j ij Hj. destruct (Nat.eq_dec j idx) as [->|Hne].
    + rewrite Hg in Hj. injection Hj as <-. exact Hok'.
    + rewrite Hoth in Hj by exact Hne. exact (Hok j ij Hj).
  - rewrite Hg. cbn. f_equal. exact Hst.
Qed.

Ltac wp_step_ok :=
  lazymatch goal with
  | |- wp (set_indicator _ _ _) _ _ =>
      apply wp_set_indicator_ok;
      [ assumption
      | unfold INDICATOR_COUNT, ALERT_BEEPER, INDICATOR_BEACON_GREEN,
          INDICATOR_BEACON_AMBER, INDICATOR_BEACON_RED, INDICATOR_LED_START,
          INDICATOR_LED_FEED, INDICATOR_LED_M1, INDICATOR_LED_RFID; lia
      | unfold requested_mode; auto
      | let g := fresh "g" in
        let n := fresh "n" in
        let es := fresh "es" in
        let Hk := fresh "Hok" in
        let Ho := fresh "Hoth" in
        let Hm := fresh "Hmode" in
        let Hc := fresh "Hcalls" in
        intros g n es Hk Ho Hm Hc;
        cbn [g_indicators] in Ho, Hm; wp_simpl ]
  | _ => wp_step
  end.

(** "state-run" in the running sketch. *)
Lemma wp_ok_rawhid_state_run w Q :
  indicators_ok (g_indicators w) ->
  let b0 := default 0 (buffer w !! 0%nat) in
  (forall g' n' es,
     indicators_ok g' ->
     (forall j, j <> INDICATOR_BEACON_GREEN -> j <> INDICATOR_LED_START ->
                j <> ALERT_BEEPER -> g' !! j = g_indicators w !! j) ->
     state <$> g' !! INDICATOR_BEACON_GREEN = Some (state_mode b0) ->
     state <$> g' !! INDICATOR_LED_START = Some (state_mode b0) ->
     state <$> g' !! ALERT_BEEPER
       = (if negb (last_run_state (hid w) =? 1) && (run_state_of b0 =? 1)
          then Some INDICATOR_ON
          else state <$> g_indicators w !! ALERT_BEEPER) ->
     Q tt (mk_world g' (buffer w) (encoder_maxvel w) (rfid w)
             (mk_rawhid (packetCount (hid w)) (run_state_of b0) (run_state_of b0))
             (timer_ids w) n') es) ->
  wp rawhid_state_run w Q.
Proof.
  destruct w as [g buf enc rf hd ids n]. intros Hg b0 H. subst b0.
  cbn [buffer encoder_maxvel rfid hid timer_ids g_indicators] in *.
  unfold rawhid_state_run, run_state_of, state_mode in *.
  repeat wp_step_ok.
  all: repeat match goal with
         | Hc : (_ =? _) = _ |- _ => rewrite Hc in H
         end.
  all: try match goal with
         | Hc : negb _ && (_ =? _) = true |- _ =>
             simpl in Hc; rewrite andb_false_r in Hc; discriminate Hc
         end.
  all: match goal with
       | Hc : negb _ && _ = _ |- _ =>
           cbn [Z.eqb Pos.eqb] in H, Hc; try rewrite Hc in H
       end.
  all: rewrite ?andb_false_r in H.
  all: apply H; clear H; try assumption.
  all: try solve [intros j ? ? ?; chain_lookup].
  all: try solve [chain_lookup; assumption].
Qed.

Ltac finish_block H :=
  repeat match goal with
         | Hc : (_ =? _) = _ |- _ => rewrite Hc in H
         end;
  apply H; clear H; try assumption;
  try solve [intros j ?; chain_lookup];
  try solve [chain_lookup; assumption].

(** "state-alarm" in the running sketch. *)
Lemma wp_ok_rawhid_state_alarm w Q :
  indicators_ok (g_indicators w) ->
  let b1 := default 0 (buffer w !! 1%nat) in
  (forall g' n' es,
     indicators_ok g' ->
     (forall j, j <> INDICATOR_BEACON_RED -> g' !! j = g_indicators w !! j) ->
     state <$> g' !! INDICATOR_BEACON_RED = Some (state_mode b1) ->
     Q tt (mk_world g' (buffer w) (encoder_maxvel w) (rfid w) (hid w)
             (timer_ids w) n') es) ->
  wp rawhid_state_alarm w Q.
Proof.
  destruct w as [g buf enc rf hd ids n]. intros Hg b1 H. subst b1.
  cbn [buffer encoder_maxvel rfid hid timer_ids g_indicators] in *.
  unfold rawhid_state_alarm, state_mode in *.
  repeat wp_step_ok; finish_block H.
Qed.

(** "state-m1" in the running sketch. *)
Lemma wp_ok_rawhid_state_m1 w Q :
  indicators_ok (g_indicators w) ->
  let b5 := default 0 (buffer w !! 5%nat) in
  (forall g' n' es,
     indicators_ok g' ->
     (forall j, j <> INDICATOR_LED_M1 -> g' !! j = g_indicators w !! j) ->
     state <$> g' !! INDICATOR_LED_M1 = Some (flag_mode b5) ->
     Q tt (mk_world g' (buffer w) (encoder_maxvel w) (rfid w) (hid w)
             (timer_ids w) n') es) ->
  wp rawhid_state_m1 w Q.
Proof.
  destruct w as [g buf enc rf hd ids n]. intros Hg b5 H. subst b5.
  cbn [buffer encoder_maxvel rfid hid timer_ids g_indicators] in *.
  unfold rawhid_state_m1, flag_mode in *.
  repeat wp_step_ok; finish_block H.
Qed.

(** "state-feed-hold" in the running sketch. *)
Lemma wp_ok_rawhid_state_feed_hold w Q :
  indicators_ok (g_indicators w) ->
  let b6 := default 0 (buffer w !! 6%nat) in
  (forall g' n' es,
     indicators_ok g' ->
     (forall j, j <> INDICATOR_LED_FEED -> g' !! j = g_indicators w !! j) ->
     state <$> g' !! INDICATOR_LED_FEED = Some (flag_mode b6) ->
     Q tt (mk_world g' (buffer w) (encoder_maxvel w) (rfid w) (hid w)
             (timer_ids w) n') es) ->
  wp rawhid_state_feed_hold w Q.
Proof.
  destruct w as [g buf enc rf hd ids n]. intros Hg b6 H. subst b6.
  cbn [buffer encoder_maxvel rfid hid timer_ids g_indicators] in *.
  unfold rawhid_state_feed_hold, flag_mode in *.
  repeat wp_step_ok; finish_block H.
Qed.

(** The response block in the running sketch. *)
Lemma wp_ok_rawhid_send_response tx w Q :
  indicators_ok (g_indicators w) ->
  length (buffer w) = 64%nat ->
  let r := encoder_maxvel w in
  let count := packetCount (hid w) in
  (forall g' n' es,
     indicators_ok g' ->
     (forall j, j <> INDICATOR_BEACON_AMBER -> g' !! j = g_indicators w !! j) ->
     state <$> g' !! INDICATOR_BEACON_AMBER = Some (amber_mode (lut_value r)) ->
     Q tt (mk_world g' (device_packet (lut_value r) count) (clamp15 r) (rfid w)
             (mk_rawhid (if tx >? 0 then u32 (count + 1) else count)
                        (run_state (hid w)) (last_run_state (hid w)))
             (timer_ids w) n') es) ->
  wp (rawhid_send_response tx) w Q.
Proof.
  destruct w as [g buf enc rf [pc rs lrs] ids n]. intros Hg Hb r count H.
  subst r count.
  cbn [buffer encoder_maxvel rfid hid timer_ids g_indicators packetCount
       run_state last_run_state] in *.
  unfold rawhid_send_response.
  repeat wp_step_ok.
  all: try match goal with Hc : (_ >? 0) = _ |- _ => rewrite Hc in H end.
  all: unfold lut_value, amber_mode in H.
  all: repeat match goal with
         | Hc : (_ >? _) = _ |- _ => rewrite Z.gtb_ltb in Hc
         | Hc : (_ <? _) = true |- _ => apply Z.ltb_lt in Hc
         | Hc : (_ <? _) = false |- _ => apply Z.ltb_ge in Hc
         end.
  all: first [ rewrite (clamp15_low enc) in H by lia
             | rewrite (clamp15_high enc) in H by lia
             | rewrite (clamp15_mid enc) in H by lia ].
  all: rewrite response_buffer by assumption.
  all: repeat match goal with
         | Hc : (_ =? _) = _ |- _ => rewrite Hc in H
         end.
  all: apply H; clear H; assumption.
Qed.

Ltac wp_block_ok :=
  lazymatch goal with
  | |- wp rawhid_state_run _ _ =>
      apply wp_ok_rawhid_state_run;
      [ assumption
      | let g := fresh "g" in
        let n := fresh "n" in
        let es := fresh "es" in
        intros g n es ?Hok ?Hoth ?Hgreen ?Hstart ?Hbeep ]
  | |- wp rawhid_state_alarm _ _ =>
      apply wp_ok_rawhid_state_alarm;
      [ assumption
      | let g := fresh "g" in
        let n := fresh "n" in
        let es := fresh "es" in
        intros g n es ?Hok ?Hoth ?Hred ]
  | |- wp rawhid_state_m1 _ _ =>
      apply wp_ok_rawhid_state_m1;
      [ assumption
      | let g := fresh "g" in
        let n := fresh "n" in
        let es := fresh "es" in
        intros g n es ?Hok ?Hoth ?Hm1 ]
  | |- wp rawhid_state_feed_hold _ _ =>
      apply wp_ok_rawhid_state_feed_hold;
      [ assumption
      | let g := fresh "g" in
        let n := fresh "n" in
        let es := fresh "es" in
        intros g n es ?Hok ?Hoth ?Hfeed ]
  | |- wp (rawhid_send_response _) _ _ =>
      apply wp_ok_rawhid_send_response;
      [ assumption
      | try assumption
      | let g := fresh "g" in
        let n := fresh "n" in
        let es := fresh "es" in
        intros g n es ?Hok ?Hoth ?Hamber ]
  | _ => wp_step
  end;
  cbn [buffer encoder_maxvel hid g_indicators rfid timer_ids timer_calls
       packetCount run_state last_run_state] in *.

(** A processed packet in the running sketch. *)
Lemma wp_ok_rawhid_poll pkt tx w Q :
  indicators_ok (g_indicators w) ->
  length pkt = 64%nat ->
  let b0 := default 0 (pkt !! 0%nat) in
  let r := encoder_maxvel w in
  let count := packetCount (hid w) in
  (forall g' n' es,
     indicators_ok g' ->
     state <$> g' !! INDICATOR_BEACON_GREEN = Some (state_mode b0) ->
     state <$> g' !! INDICATOR_LED_START = Some (state_mode b0) ->
     state <$> g' !! ALERT_BEEPER
       = (if negb (last_run_state (hid w) =? 1) && (run_state_of b0 =? 1)
          then Some INDICATOR_ON
          else state <$> g_indicators w !! ALERT_BEEPER) ->
     state <$> g' !! INDICATOR_BEACON_RED
       = Some (state_mode (default 0 (pkt !! 1%nat))) ->
     state <$> g' !! INDICATOR_LED_M1
       = Some (flag_mode (default 0 (pkt !! 5%nat))) ->
     state <$> g' !! INDICATOR_LED_FEED
       = Some (flag_mode (default 0 (pkt !! 6%nat))) ->
     state <$> g' !! INDICATOR_BEACON_AMBER = Some (amber_mode (lut_value r)) ->
     g' !! INDICATOR_LED_RFID = g_indicators w !! INDICATOR_LED_RFID ->
     Q tt (mk_world g' (device_packet (lut_value r) count) (clamp15 r) (rfid w)
             (mk_rawhid (if tx >? 0 then u32 (count + 1) else count)
                        (run_state_of b0) (run_state_of b0))
             (timer_ids w) n') es) ->
  wp (rawhid_poll (Some pkt) tx) w Q.
Proof.
  destruct w as [g buf enc rf [pc rs lrs] ids n].
  intros Hg Hpkt b0 r count H. subst b0 r count.
  cbn [buffer encoder_maxvel rfid hid timer_ids g_indicators packetCount
       run_state last_run_state] in *.
  unfold rawhid_poll, RawHID_recv.
  repeat wp_block_ok.
  apply H; clear H; try assumption.
  - chain_lookup. exact Hgreen.
  - chain_lookup. exact Hstart.
  - chain_lookup. exact Hbeep.
  - chain_lookup. exact Hred.
  - chain_lookup. exact Hm1.
  - chain_lookup. exact Hfeed.
  - chain_lookup. rewrite Hoth by discriminate. reflexivity.
Qed.

Lemma rawhid_poll_beeper w pkt tx :
  indicators_ok (g_indicators w) ->
  length pkt = 64%nat ->
  mode_of (exec (rawhid_poll (Some pkt) tx) w) ALERT_BEEPER
  = (if negb (last_run_state (hid w) =? 1) && (default 0 (pkt !! 0%nat) =? 1)
     then Some INDICATOR_ON else mode_of w ALERT_BEEPER).
Proof.
  intros Hg Hpkt. unfold exec, mode_of.
  apply (wp_ok_rawhid_poll pkt tx w
    (fun _ w' _ =>
       state <$> g_indicators w' !! ALERT_BEEPER
       = (if negb (last_run_state (hid w) =? 1) && (default 0 (pkt !! 0%nat) =? 1)
          then Some INDICATOR_ON
          else state <$> g_indicators w !! ALERT_BEEPER)) Hg Hpkt).
  intros g' n' es Hok Hgreen Hstart Hbeep Hred Hm1 Hfeed Hamber Hrfid.
  cbn [g_indicators].
  rewrite Hbeep. unfold run_state_of.
  destruct (default 0 (pkt !! 0%nat) =? 1) eqn:E1; [reflexivity|].
  destruct (default 0 (pkt !! 0%nat) =? 2); rewrite !andb_false_r; reflexivity.
Qed.

(** X12.  In the running sketch, a processed packet sets the indicators as
    follows: the green beacon and the start LED are ON for run-state byte
    0x01, BLINK for 0x02 and OFF otherwise; the red beacon likewise follows
    the alarm-state byte; the M1 and feed LEDs are ON for flag byte 0x01
    and OFF otherwise; the amber beacon is BLINK when the knob maps to 0,
    OFF when it maps to 100 and ON in between; the beeper is ON on an edge
    into RUNNING and as before otherwise; the RFID LED is not touched.  The
    invariant of the indicator array holds again afterwards. *)
Theorem rawhid_poll_display (w : world) (pkt : list Z) (tx : Z) :
  indicators_ok (g_indicators w) ->
  length pkt = 64%nat ->
  let w' := exec (rawhid_poll (Some pkt) tx) w in
  indicators_ok (g_indicators w')
  /\ mode_of w' INDICATOR_BEACON_GREEN = Some (state_mode (default 0 (pkt !! 0%nat)))
  /\ mode_of w' INDICATOR_LED_START = Some (state_mode (default 0 (pkt !! 0%nat)))
  /\ mode_of w' INDICATOR_BEACON_RED = Some (state_mode (default 0 (pkt !! 1%nat)))
  /\ mode_of w' INDICATOR_LED_M1 = Some (flag_mode (default 0 (pkt !! 5%nat)))
  /\ mode_of w' INDICATOR_LED_FEED = Some (flag_mode (default 0 (pkt !! 6%nat)))
  /\ mode_of w' INDICATOR_BEACON_AMBER
     = Some (amber_mode (lut_value (encoder_maxvel w)))
  /\ mode_of w' ALERT_BEEPER
     = (if negb (last_run_state (hid w) =? 1) && (default 0 (pkt !! 0%nat) =? 1)
        then Some INDICATOR_ON else mode_of w ALERT_BEEPER)
  /\ g_indicators w' !! INDICATOR_LED_RFID = g_indicators w !! INDICATOR_LED_RFID.
Proof.
  intros Hg Hpkt w'. subst w'. unfold exec, mode_of.
  apply (wp_ok_rawhid_poll pkt tx w
    (fun _ w' _ =>
       indicators_ok (g_indicators w')
       /\ state <$> g_indicators w' !! INDICATOR_BEACON_GREEN
          = Some (state_mode (default 0 (pkt !! 0%nat)))
       /\ state <$> g_indicators w' !! INDICATOR_LED_START
          = Some (state_mode (default 0 (pkt !! 0%nat)))
       /\ state <$> g_indicators w' !! INDICATOR_BEACON_RED
          = Some (state_mode (default 0 (pkt !! 1%nat)))
       /\ state <$> g_indicators w' !! INDICATOR_LED_M1
          = Some (flag_mode (default 0 (pkt !! 5%nat)))
       /\ state <$> g_indicators w' !! INDICATOR_LED_FEED
          = Some (flag_mode (default 0 (pkt !! 6%nat)))
       /\ state <$> g_indicators w' !! INDICATOR_BEACON_AMBER
          = Some (amber_mode (lut_value (encoder_maxvel w)))
       /\ state <$> g_indicators w' !! ALERT_BEEPER
          = (if negb (last_run_state (hid w) =? 1) && (default 0 (pkt !! 0%nat) =? 1)
             then Some INDICATOR_ON
             else state <$> g_indicators w !! ALERT_BEEPER)
       /\ g_indicators w' !! INDICATOR_LED_RFID
          = g_indicators w !! INDICATOR_LED_RFID) Hg Hpkt).
  intros g' n' es Hok Hgreen Hstart Hbeep Hred Hm1 Hfeed Hamber Hrfid.
  cbn [g_indicators]. split; [exact Hok|].
  do 6 (split; [assumption|]). split; [|exact Hrfid].
  rewrite Hbeep. unfold run_state_of.
  destruct (default 0 (pkt !! 0%nat) =? 1) eqn:E1; [reflexivity|].
  destruct (default 0 (pkt !! 0%nat) =? 2); rewrite !andb_false_r; reflexivity.
Qed.

Lemma rawhid_poll_display_witness :
  let pkt := [2; 1; 0; 0; 0; 0; 1] ++ replicate 57%nat 0 in
  let w := booted (fun _ => 5) in
  let w' := exec (rawhid_poll (Some pkt) 1) w in
  indicators_ok (g_indicators w')
  /\ mode_of w' INDICATOR_BEACON_GREEN = Some (state_mode (default 0 (pkt !! 0%nat)))
  /\ mode_of w' INDICATOR_LED_START = Some (state_mode (default 0 (pkt !! 0%nat)))
  /\ mode_of w' INDICATOR_BEACON_RED = Some (state_mode (default 0 (pkt !! 1%nat)))
  /\ mode_of w' INDICATOR_LED_M1 = Some (flag_mode (default 0 (pkt !! 5%nat)))
  /\ mode_of w' INDICATOR_LED_FEED = Some (flag_mode (default 0 (pkt !! 6%nat)))
  /\ mode_of w' INDICATOR_BEACON_AMBER
     = Some (amber_mode (lut_value (encoder_maxvel w)))
  /\ mode_of w' ALERT_BEEPER
     = (if negb (last_run_state (hid w) =? 1) && (default 0 (pkt !! 0%nat) =? 1)
        then Some INDICATOR_ON else mode_of w ALERT_BEEPER)
  /\ g_indicators w' !! INDICATOR_LED_RFID = g_indicators w !! INDICATOR_LED_RFID.
Proof.
  intros pkt w.
  apply (rawhid_poll_display w pkt 1); [explicit_ok | reflexivity].
Defined.

(** ** The main loop *)

Lemma decoder_untouched_bind {A B} (m : M A) (f : A -> M B) :
  decoder_untouched m -> (forall a, decoder_untouched (f a)) ->
  decoder_untouched (bind m f).
Proof.
  intros Hm Hf w. destruct (Hm w) as [Hr Hs].
  destruct (Hf (val (m w)) (exec m w)) as [Hr' Hs'].
  rewrite exec_bind, calls_bind, serial_out_app, Hr', Hr, Hs, Hs'.
  split; reflexivity.
Qed.

Lemma decoder_untouched_ret {A} (a : A) : decoder_untouched (ret a).
Proof. intros w. split; reflexivity. Qed.

Lemma decoder_untouched_gets {A} (f : world -> A) : decoder_untouched (gets f).
Proof. intros w. split; reflexivity. Qed.

Lemma decoder_untouched_modify f :
  (forall w, rfid (f w) = rfid w) -> decoder_untouched (modify f).
Proof. intros Hf w. split; [apply Hf | reflexivity]. Qed.

Lemma decoder_untouched_if {A} (c : bool) (m1 m2 : M A) :
  decoder_untouched m1 -> decoder_untouched m2 ->
  decoder_untouched (if c then m1 else m2).
Proof. destruct c; auto. Qed.

Lemma decoder_untouched_set_indicator idx s p :
  decoder_untouched (set_indicator idx s p).
Proof.
  intros w. split; [apply set_indicator_rfid|].
  apply indicator_calls_serial_out, set_indicator_calls.
Qed.

Lemma decoder_untouched_for_loop count body : forall first,
  (forall i, decoder_untouched (body i)) ->
  decoder_untouched (for_loop first count body).
Proof.
  induction count as [|c IH]; intros first Hb; cbn [for_loop].
  - apply decoder_untouched_ret.
  - apply decoder_untouched_bind; [apply Hb | intros _; apply IH, Hb].
Qed.

Lemma decoder_untouched_repeat n m :
  decoder_untouched m -> decoder_untouched (repeat_proc n m).
Proof.
  intros Hm. induction n as [|n IH]; cbn [repeat_proc].
  - apply decoder_untouched_ret.
  - apply decoder_untouched_bind; [exact Hm | intros _; exact IH].
Qed.

Ltac untouched :=
  repeat first
    [ apply decoder_untouched_bind; [|intros ?]
    | apply decoder_untouched_if
    | apply decoder_untouched_set_indicator
    | apply decoder_untouched_ret
    | apply decoder_untouched_gets
    | apply decoder_untouched_for_loop; intros ?
    | apply decoder_untouched_modify; intros ?; reflexivity
    | intros ?; split; reflexivity ].

(** [rawhid_poll] leaves the decoder alone and prints nothing on the
    serial line, whatever it receives. *)
Lemma rawhid_poll_decoder_untouched rx tx : decoder_untouched (rawhid_poll rx tx).
Proof.
  unfold rawhid_poll, RawHID_recv, rawhid_state_run, rawhid_state_alarm,
    rawhid_state_m1, rawhid_state_feed_hold, rawhid_send_response,
    buffer_get, buffer_set, set_run_state, encoder_write, emit, skip.
  destruct rx as [pkt|]; untouched.
Qed.

Lemma alert_off_decoder_untouched n :
  decoder_untouched (repeat_proc n (run_callback cb_alert_off)).
Proof.
  apply decoder_untouched_repeat. apply decoder_untouched_set_indicator.
Qed.

Lemma board_calls_app l1 l2 : board_calls (l1 ++ l2) = board_calls l1 ++ board_calls l2.
Proof. apply omap_app. Qed.

Lemma board_calls_inl (l : list effect) : board_calls (inl <$> l) = l.
Proof. induction l as [|e l IH]; [reflexivity|]. cbn. f_equal. exact IH. Qed.

Lemma board_calls_inr (l : list keyboard_call) : board_calls (inr <$> l) = [].
Proof. induction l as [|e l IH]; [reflexivity|]. exact IH. Qed.

Lemma loop_board_calls i w :
  board_calls (loop i w).2
  = calls (loop_before i) w
    ++ calls (rawhid_poll (hid_rx i) (hid_tx i)) (exec (loop_before i) w).
Proof.
  unfold loop. cbn [snd].
  rewrite !board_calls_app, !board_calls_inl, board_calls_inr. reflexivity.
Qed.

Lemma loop_world i w :
  (loop i w).1 = exec (rawhid_poll (hid_rx i) (hid_tx i)) (exec (loop_before i) w).
Proof. reflexivity. Qed.

Lemma loop_before_decoder i w :
  rfid (exec (loop_before i) w)
    = match reader_byte i with
      | Some b => (rfid_switch b (rfid w)).1
      | None => rfid w
      end
  /\ serial_out (calls (loop_before i) w)
    = match reader_byte i with
      | Some b => serial_out (rfid_switch b (rfid w)).2
      | None => []
      end.
Proof.
  unfold loop_before. rewrite !exec_bind, !calls_bind, !serial_out_app.
  set (w1 := exec (modify _) w).
  set (w2 := exec (repeat_proc _ _) w1).
  destruct (rfid_poll_decode (host_byte i) (reader_byte i) w2) as [Hr Hs].
  destruct (alert_off_decoder_untouched (alert_due i) w1) as [Hr2 Hs2].
  fold w2 in Hr2. rewrite Hr, Hs, Hs2, Hr2. split; reflexivity.
Qed.

(** One iteration: only the reader byte moves the decoder, and only the
    decoder prints on the serial line. *)
Lemma loop_decoder i w :
  rfid (loop i w).1
    = match reader_byte i with
      | Some b => (rfid_switch b (rfid w)).1
      | None => rfid w
      end
  /\ serial_out (board_calls (loop i w).2)
    = match reader_byte i with
      | Some b => serial_out (rfid_switch b (rfid w)).2
      | None => []
      end.
Proof.
  rewrite loop_board_calls, loop_world, serial_out_app.
  destruct (loop_before_decoder i w) as [Hr Hs].
  destruct (rawhid_poll_decoder_untouched (hid_rx i) (hid_tx i)
              (exec (loop_before i) w)) as [Hr' Hs'].
  rewrite Hr', Hs', Hr, Hs, app_nil_r. split; reflexivity.
Qed.

Lemma run_loop_decoder ins : forall w,
  rfid (run_loop ins w).1 = (rfid_run (omap reader_byte ins) (rfid w)).1
  /\ serial_out (board_calls (run_loop ins w).2)
     = serial_out (rfid_run (omap reader_byte ins) (rfid w)).2.
Proof.
  induction ins as [|i ins IH]; intros w; [split; reflexivity|].
  cbn [run_loop fst snd]. rewrite board_calls_app, serial_out_app.
  destruct (loop_decoder i w) as [Hr Hs].
  destruct (IH (loop i w).1) as [IHr IHs].
  rewrite IHr, IHs, Hr, Hs.
  change (omap reader_byte (i :: ins))
    with (match reader_byte i with
          | Some b => b :: omap reader_byte ins
          | None => omap reader_byte ins
          end).
  destruct (reader_byte i) as [b|]; cbn [rfid_run fst snd].
  - rewrite serial_out_app. split; reflexivity.
  - split; reflexivity.
Qed.

(** X14.  Over any run of [loop], whatever else happens in it (host-line
    bytes, button edges, host packets, callbacks, knob movement), when the
    bytes the reader delivers form a stream of well-formed frames, each
    preceded by bytes other than STX, what is printed on the host-facing
    serial line is exactly STX, payload, ETX of each frame, in order: no
    other part of the sketch prints there or disturbs the decoder. *)
Theorem loop_forwards_frames (w : world) (ins : list loop_input)
    (fs : list (list Z * list Z * list Z)) :
  rfid_ok (rfid w) ->
  rfid_state (rfid w) = RFID_STATE_WAIT_STX ->
  frames_ok fs ->
  omap reader_byte ins = frame_stream fs ->
  serial_out (board_calls (run_loop ins w).2) = forwarded fs
  /\ rfid_state (rfid (run_loop ins w).1) = RFID_STATE_WAIT_STX.
Proof.
  intros Hr Hst Hfs Hins.
  destruct (run_loop_decoder ins w) as [-> ->]. rewrite Hins.
  apply rfid_run_stream; assumption.
Qed.

Lemma loop_forwards_frames_witness :
  let p := [48; 49; 50; 51; 52; 53; 54; 55; 56; 57] in
  let fs := [([7], p, [13; 10])] in
  let pkt := [1; 0; 0; 0; 0; 1; 0] ++ replicate 57%nat 0 in
  let ins :=
    (fun b => mk_loop_input 1 3 (Some 50) (Some b)
                (mk_edges true false false true) (Some pkt) 1)
      <$> frame_stream fs in
  serial_out (board_calls (run_loop ins (booted (fun _ => 0))).2) = forwarded fs
  /\ rfid_state (rfid (run_loop ins (booted (fun _ => 0))).1)
     = RFID_STATE_WAIT_STX.
Proof.
  intros p fs pkt ins.
  apply (loop_forwards_frames (booted (fun _ => 0)) ins fs).
  - repeat split; auto.
  - reflexivity.
  - repeat constructor; cbn; discriminate.
  - reflexivity.
Defined.

(** X15.  An iteration of [loop] in which nothing arrives (no byte on
    either serial line, no button edge, no host packet, no callback due,
    the knob at rest) makes no call and leaves the machine exactly as it
    was: the loop never waits and never acts on its own. *)
Theorem loop_idle (w : world) : loop idle_input w = (w, []).
Proof.
  unfold loop, idle_input, loop_before. destruct w as [g buf enc rf hd ids n].
  reflexivity.
Qed.

(** ** The invariant of the running sketch *)

Lemma set_indicator_machine_ok idx s p w :
  machine_ok w -> (idx < INDICATOR_COUNT)%nat -> requested_mode s ->
  machine_ok (exec (set_indicator idx s p) w).
Proof.
  intros (Hg & Hr & Hh & Hb) Hidx Hs. unfold machine_ok, exec.
  rewrite set_indicator_rfid, set_indicator_hid, set_indicator_buffer.
  split; [|auto].
  apply set_indicator_keeps_ok; assumption.
Qed.

Lemma alert_off_machine_ok n : forall w,
  machine_ok w ->
  machine_ok (exec (repeat_proc n (run_callback cb_alert_off)) w)
  /\ hid (exec (repeat_proc n (run_callback cb_alert_off)) w) = hid w.
Proof.
  induction n as [|n IH]; intros w Hw; [split; [exact Hw | reflexivity]|].
  cbn [repeat_proc]. rewrite exec_bind.
  assert (H1 : machine_ok (exec (run_callback cb_alert_off) w)).
  { apply set_indicator_machine_ok; [exact Hw | | left; reflexivity].
    unfold ALERT_BEEPER, INDICATOR_COUNT. lia. }
  destruct (IH _ H1) as [H2 H3]. split; [exact H2|].
  rewrite H3. apply set_indicator_hid.
Qed.

Lemma rfid_poll_machine_ok host reader w :
  machine_ok w ->
  machine_ok (exec (rfid_poll host reader) w)
  /\ hid (exec (rfid_poll host reader) w) = hid w.
Proof.
  intros Hw. unfold rfid_poll. rewrite exec_bind.
  set (led := match host with Some b => _ | None => _ end).
  assert (Hled : machine_ok (exec led w) /\ hid (exec led w) = hid w).
  { subst led. destruct host as [b|]; [|split; [exact Hw | reflexivity]].
    assert (Hidx : (INDICATOR_LED_RFID < INDICATOR_COUNT)%nat)
      by (unfold INDICATOR_LED_RFID, INDICATOR_COUNT; lia).
    destruct (b =? 50);
      [split; [apply set_indicator_machine_ok; auto; right; right; reflexivity
              | apply set_indicator_hid]|].
    destruct (b =? 49);
      [split; [apply set_indicator_machine_ok; auto; right; left; reflexivity
              | apply set_indicator_hid]|].
    destruct (b =? 48);
      [split; [apply set_indicator_machine_ok; auto; left; reflexivity
              | apply set_indicator_hid]|].
    split; [exact Hw | reflexivity]. }
  destruct Hled as [Hm Hhid].
  destruct reader as [b|]; [|split; [exact Hm | exact Hhid]].
  destruct Hm as (Hg & Hr & Hh & Hb).
  split; [|exact Hhid].
  destruct (rfid_switch_progress b _ Hr) as (Hr' & _).
  split; [exact Hg|]. split; [exact Hr'|]. split; [exact Hh | exact Hb].
Qed.

Lemma loop_before_machine_ok i w :
  machine_ok w ->
  machine_ok (exec (loop_before i) w)
  /\ hid (exec (loop_before i) w) = hid w.
Proof.
  intros Hw. unfold loop_before. rewrite !exec_bind.
  set (w1 := exec (modify _) w).
  assert (H1 : machine_ok w1 /\ hid w1 = hid w).
  { subst w1. destruct w. split; [exact Hw | reflexivity]. }
  destruct H1 as [H1 Hh1].
  destruct (alert_off_machine_ok (alert_due i) w1 H1) as [H2 Hh2].
  destruct (rfid_poll_machine_ok (host_byte i) (reader_byte i) _ H2) as [H3 Hh3].
  split; [exact H3|]. rewrite Hh3, Hh2, Hh1. reflexivity.
Qed.

Lemma device_packet_length v c : length (device_packet v c) = 64%nat.
Proof. reflexivity. Qed.

Lemma rawhid_poll_machine_ok rx tx w :
  machine_ok w ->
  (forall pkt, rx = Some pkt -> length pkt = 64%nat) ->
  machine_ok (exec (rawhid_poll rx tx) w)
  /\ packetCount (hid (exec (rawhid_poll rx tx) w))
     = match rx with
       | Some _ => if tx >? 0 then u32 (packetCount (hid w) + 1)
                   else packetCount (hid w)
       | None => packetCount (hid w)
       end.
Proof.
  intros Hw Hrx. destruct rx as [pkt|]; [|split; [exact Hw | reflexivity]].
  destruct Hw as (Hg & Hr & (Hpc & Heq & Hrs) & Hb). unfold exec.
  apply (wp_ok_rawhid_poll pkt tx w
           (fun _ w' _ =>
              machine_ok w'
              /\ packetCount (hid w')
                 = (if tx >? 0 then u32 (packetCount (hid w) + 1)
                    else packetCount (hid w))) Hg (Hrx pkt eq_refl)).
  intros g' n' es Hok _ _ _ _ _ _ _ _. split; [|reflexivity].
  unfold machine_ok, hid_ok. cbn [g_indicators rfid hid buffer packetCount
                                  run_state last_run_state].
  split; [exact Hok|]. split; [exact Hr|]. split; [|apply device_packet_length].
  split; [|split; [reflexivity|]].
  - destruct (tx >? 0); [unfold u32; apply Z.mod_pos_bound; lia | exact Hpc].
  - unfold run_state_of. right.
    destruct (_ =? 1); [right; left; reflexivity|].
    destruct (_ =? 2); [right; right; reflexivity | left; reflexivity].
Qed.

Lemma loop_machine_ok i w :
  machine_ok w ->
  (forall pkt, hid_rx i = Some pkt -> length pkt = 64%nat) ->
  machine_ok (loop i w).1
  /\ packetCount (hid (loop i w).1)
     = match hid_rx i with
       | Some _ => if hid_tx i >? 0 then u32 (packetCount (hid w) + 1)
                   else packetCount (hid w)
       | None => packetCount (hid w)
       end.
Proof.
  intros Hw Hrx. rewrite loop_world.
  destruct (loop_before_machine_ok i w Hw) as [H1 Hh].
  destruct (rawhid_poll_machine_ok (hid_rx i) (hid_tx i) _ H1 Hrx) as [H2 Hc].
  split; [exact H2|]. rewrite Hc, Hh. reflexivity.
Qed.

Lemma booted_machine_ok ids : machine_ok (booted ids).
Proof.
  unfold booted.
  split; [exact (setup_indicators_ok (power_on ids) eq_refl)|].
  split; [repeat split; auto|].
  split; [|reflexivity].
  split; [cbn; lia|]. split; [reflexivity | left; reflexivity].
Qed.

(** X13.  The sketch keeps its invariant for ever: after [setup] and any
    number of iterations of [loop], whatever arrives (with [RawHID.recv]
    delivering 64-byte packets), all eight indicators are wired as in
    [setup], active low, in mode OFF, ON or BLINK, and record no handle
    while OFF or ON; the decoder's arrays and byte count are within bounds;
    [buffer] holds 64 bytes; [packetCount] is within the range of an
    [unsigned int]; [last_run_state] equals [run_state]. *)
Theorem sketch_invariant (ids : nat -> Z) (ins : list loop_input) :
  inputs_ok ins -> machine_ok (run_loop ins (booted ids)).1.
Proof.
  intros Hins.
  assert (H : forall w, machine_ok w -> machine_ok (run_loop ins w).1).
  { induction Hins as [|i ins Hi Hins IH]; intros w Hw; [exact Hw|].
    cbn [run_loop fst]. apply IH.
    apply loop_machine_ok; assumption. }
  apply H, booted_machine_ok.
Qed.

Lemma sketch_invariant_witness :
  machine_ok
    (run_loop
       [mk_loop_input 0 (-4) (Some 50) (Some 2) (mk_edges true false false false)
          (Some ([1; 2] ++ replicate 62%nat 0)) 1;
        mk_loop_input 2 40 (Some 48) (Some 65) (mk_edges false false true false)
          None 0]
       (booted (fun k => Z.of_nat k))).1.
Proof.
  apply (sketch_invariant (fun k => Z.of_nat k)).
  repeat constructor; cbn; intros pkt H; try discriminate H.
  injection H as <-. reflexivity.
Defined.

Lemma sends_ok_cons i ins :
  sends_ok (i :: ins)
  = ((match hid_rx i with
      | Some _ => if hid_tx i >? 0 then 1 else 0
      | None => 0
      end) + sends_ok ins)%nat.
Proof.
  unfold sends_ok. cbn [List.filter].
  destruct (hid_rx i); [destruct (hid_tx i >? 0)|]; reflexivity.
Qed.

(** X16.  The send counter counts the successful sends: after any run of
    [loop] from a machine in its invariant, [packetCount] is its value
    before plus the number of iterations in which a packet was received
    and [RawHID.send] returned a positive result, as an [unsigned int].
    From power-on it is that number itself, modulo 2^32. *)
Theorem packet_count_counts_sends (w : world) (ins : list loop_input) :
  machine_ok w -> inputs_ok ins ->
  packetCount (hid (run_loop ins w).1)
    = u32 (packetCount (hid w) + Z.of_nat (sends_ok ins)).
Proof.
  intros Hw Hins. revert w Hw.
  induction Hins as [|i ins Hi Hins IH]; intros w Hw.
  - cbn. destruct Hw as (_ & _ & (Hpc & _) & _).
    rewrite Z.add_0_r. unfold u32. rewrite Z.mod_small by exact Hpc. reflexivity.
  - cbn [run_loop fst].
    destruct (loop_machine_ok i w Hw Hi) as [H1 Hc].
    rewrite (IH _ H1), Hc, sends_ok_cons.
    destruct Hw as (_ & _ & (Hpc & _) & _).
    destruct (hid_rx i); [destruct (hid_tx i >? 0)|];
      unfold u32; rewrite ?Zplus_mod_idemp_l; f_equal; lia.
Qed.

Lemma packet_count_counts_sends_witness :
  let pkt := replicate 64%nat 0 in
  let e := mk_edges false false false false in
  let ins := [mk_loop_input 0 0 None None e (Some pkt) 1;
              mk_loop_input 0 0 None None e (Some pkt) 0;
              mk_loop_input 0 0 None None e None 1;
              mk_loop_input 0 0 None None e (Some pkt) 64] in
  packetCount (hid (run_loop ins (booted (fun _ => 0))).1)
    = u32 (packetCount (hid (booted (fun _ => 0))) + Z.of_nat (sends_ok ins)).
Proof.
  intros pkt e ins.
  apply (packet_count_counts_sends (booted (fun _ => 0)) ins).
  - apply booted_machine_ok.
  - repeat constructor; cbn; intros p H; try discriminate H;
      injection H as <-; reflexivity.
Defined.

(** ** The host-facing serial line: LED commands *)

Lemma rfid_poll_indicators host reader w :
  g_indicators (exec (rfid_poll host reader) w)
  = g_indicators
      (exec (match host with
             | Some b =>
                 if b =? 50 then set_indicator INDICATOR_LED_RFID INDICATOR_BLINK 500
                 else if b =? 49 then set_indicator INDICATOR_LED_RFID INDICATOR_ON 0
                 else if b =? 48 then set_indicator INDICATOR_LED_RFID INDICATOR_OFF 0
                 else skip
             | None => skip
             end) w).
Proof. unfold rfid_poll. rewrite exec_bind. destruct reader; reflexivity. Qed.

(** X17.  A byte on the host-facing serial line commands the RFID LED: in
    the running sketch the LED is in mode BLINK after '2', ON after '1' and
    OFF after '0', and as before after any other byte; no other indicator
    is touched, and with no byte waiting on either line [rfid_poll] does
    nothing at all. *)
Theorem rfid_led_commands (w : world) (b : Z) (reader : option Z) :
  indicators_ok (g_indicators w) ->
  mode_of (exec (rfid_poll (Some b) reader) w) INDICATOR_LED_RFID
    = (if b =? 50 then Some INDICATOR_BLINK
       else if b =? 49 then Some INDICATOR_ON
       else if b =? 48 then Some INDICATOR_OFF
       else mode_of w INDICATOR_LED_RFID)
  /\ (forall j, j <> INDICATOR_LED_RFID ->
        g_indicators (exec (rfid_poll (Some b) reader) w) !! j
        = g_indicators w !! j)
  /\ rfid_poll None None w = mk_outcome tt w [].
Proof.
  intros Hg. unfold mode_of. rewrite rfid_poll_indicators.
  assert (Hidx : (INDICATOR_LED_RFID < INDICATOR_COUNT)%nat)
    by (unfold INDICATOR_LED_RFID, INDICATOR_COUNT; lia).
  split; [|split].
  - destruct (b =? 50);
      [apply (set_indicator_reaches_mode _ INDICATOR_BLINK 500 w Hg Hidx);
       right; right; reflexivity|].
    destruct (b =? 49);
      [apply (set_indicator_reaches_mode _ INDICATOR_ON 0 w Hg Hidx);
       right; left; reflexivity|].
    destruct (b =? 48);
      [apply (set_indicator_reaches_mode _ INDICATOR_OFF 0 w Hg Hidx);
       left; reflexivity|].
    reflexivity.
  - intros j Hj.
    destruct (b =? 50); [apply set_indicator_other; exact Hj|].
    destruct (b =? 49); [apply set_indicator_other; exact Hj|].
    destruct (b =? 48); [apply set_indicator_other; exact Hj|].
    reflexivity.
  - reflexivity.
Qed.

Lemma rfid_led_commands_witness :
  let w := booted (fun _ => 0) in
  mode_of (exec (rfid_poll (Some 50) (Some 2)) w) INDICATOR_LED_RFID
    = (if 50 =? 50 then Some INDICATOR_BLINK
       else if 50 =? 49 then Some INDICATOR_ON
       else if 50 =? 48 then Some INDICATOR_OFF
       else mode_of w INDICATOR_LED_RFID)
  /\ (forall j, j <> INDICATOR_LED_RFID ->
        g_indicators (exec (rfid_poll (Some 50) (Some 2)) w) !! j
        = g_indicators w !! j)
  /\ rfid_poll None None w = mk_outcome tt w [].
Proof.
  intros w. apply (rfid_led_commands w 50 (Some 2)). explicit_ok.
Defined.

(** ** The alert callback *)

Lemma repeat_alert_off_mode n : forall w,
  indicators_ok (g_indicators w) -> (0 < n)%nat ->
  indicators_ok (g_indicators (exec (repeat_proc n (run_callback cb_alert_off)) w))
  /\ mode_of (exec (repeat_proc n (run_callback cb_alert_off)) w) ALERT_BEEPER
     = Some INDICATOR_OFF.
Proof.
  assert (Hidx : (ALERT_BEEPER < INDICATOR_COUNT)%nat)
    by (unfold ALERT_BEEPER, INDICATOR_COUNT; lia).
  induction n as [|n IH]; intros w Hg Hn; [lia|].
  cbn [repeat_proc]. rewrite exec_bind.
  pose proof (set_indicator_keeps_ok ALERT_BEEPER INDICATOR_OFF 0 w Hg Hidx
                (or_introl eq_refl)) as Hg1.
  pose proof (set_indicator_reaches_mode ALERT_BEEPER INDICATOR_OFF 0 w Hg Hidx
                (or_introl eq_refl)) as Hm1.
  destruct n as [|n].
  - split; [exact Hg1 | exact Hm1].
  - apply IH; [exact Hg1 | lia].
Qed.

(** X18.  An [alert_off] callback that falls due ends the alert, however
    recently the beeper was switched on: after an iteration of [loop] in
    which at least one callback is due and no host packet arrives, the
    beeper is in mode OFF.  When in the same iteration a packet arrives
    that takes the machine into RUNNING, the beeper is ON afterwards,
    because [alert_t.update()] runs before [rawhid_poll()]. *)
Theorem alert_callback_ends_alert (w : world) (i : loop_input) :
  machine_ok w ->
  (0 < alert_due i)%nat ->
  (hid_rx i = None -> mode_of (loop i w).1 ALERT_BEEPER = Some INDICATOR_OFF)
  /\ (forall pkt, hid_rx i = Some pkt -> length pkt = 64%nat ->
        pkt !! 0%nat = Some 1 -> last_run_state (hid w) <> 1 ->
        mode_of (loop i w).1 ALERT_BEEPER = Some INDICATOR_ON).
Proof.
  intros Hw Hdue. rewrite loop_world.
  destruct (loop_before_machine_ok i w Hw) as [(Hg1 & _) Hh1].
  split.
  - intros ->.
    change (mode_of (exec (loop_before i) w) ALERT_BEEPER = Some INDICATOR_OFF).
    unfold loop_before. rewrite !exec_bind.
    unfold mode_of. rewrite rfid_poll_indicators.
    set (w1 := exec (modify _) w).
    assert (Hgw1 : indicators_ok (g_indicators w1)) by (destruct w; apply Hw).
    destruct (repeat_alert_off_mode (alert_due i) w1 Hgw1 Hdue) as [Hg2 Hm2].
    assert (Hne : ALERT_BEEPER <> INDICATOR_LED_RFID) by discriminate.
    destruct (host_byte i) as [b|]; [|exact Hm2].
    destruct (b =? 50);
      [unfold exec at 1; rewrite set_indicator_other by exact Hne; exact Hm2|].
    destruct (b =? 49);
      [unfold exec at 1; rewrite set_indicator_other by exact Hne; exact Hm2|].
    destruct (b =? 48);
      [unfold exec at 1; rewrite set_indicator_other by exact Hne; exact Hm2|].
    exact Hm2.
  - intros pkt -> Hlen Hb0 Hlast.
    rewrite (rawhid_poll_beeper (exec (loop_before i) w) pkt (hid_tx i) Hg1 Hlen).
    rewrite Hh1, Hb0. cbn [default Z.eqb Pos.eqb].
    destruct (Z.eqb_spec (last_run_state (hid w)) 1); [contradiction | reflexivity].
Qed.

Lemma alert_callback_ends_alert_witness :
  let pkt := [1; 0; 0; 0; 0; 0; 0] ++ replicate 57%nat 0 in
  let e := mk_edges false false false false in
  let w := (loop (mk_loop_input 0 0 None None e (Some pkt) 1)
                 (booted (fun _ => 0))).1 in
  mode_of w ALERT_BEEPER = Some INDICATOR_ON
  /\ mode_of (loop (mk_loop_input 1 0 None None e None 0) w).1 ALERT_BEEPER
     = Some INDICATOR_OFF.
Proof.
  intros pkt e w. split; [reflexivity|].
  refine (proj1 (alert_callback_ends_alert w
                   (mk_loop_input 1 0 None None e None 0) _ _) eq_refl).
  - apply (loop_machine_ok (mk_loop_input 0 0 None None e (Some pkt) 1)
             (booted (fun _ => 0)) (booted_machine_ok _)).
    intros p H. injection H as <-. reflexivity.
  - cbn. lia.
Defined.

(** ** The bytes of a packet that [rawhid_poll] reads *)

Lemma blind_ret {A} (a : A) : buffer_blind (ret a).
Proof. intros w b. reflexivity. Qed.

Lemma blind_emit e : buffer_blind (emit e).
Proof. intros w b. reflexivity. Qed.

Lemma blind_gets {A} (f : world -> A) :
  (forall w b, f (with_buffer w b) = f w) -> buffer_blind (gets f).
Proof. intros Hf w b. unfold gets. rewrite Hf. reflexivity. Qed.

Lemma blind_modify (f : world -> world) :
  (forall w b, f (with_buffer w b) = with_buffer (f w) b) ->
  buffer_blind (modify f).
Proof. intros Hf w b. unfold modify. rewrite Hf. reflexivity. Qed.

Lemma blind_bind {A B} (m : M A) (k : A -> M B) :
  buffer_blind m -> (forall a, buffer_blind (k a)) -> buffer_blind (bind m k).
Proof.
  intros Hm Hk w b. unfold bind. rewrite (Hm w b). cbn [val wld eff].
  rewrite (Hk (val (m w)) (wld (m w)) b). reflexivity.
Qed.

Lemma blind_set_indicator idx s p : buffer_blind (set_indicator idx s p).
Proof.
  intros [g buf enc rf hd ids n] b. unfold set_indicator, with_buffer.
  cbn [g_indicators timer_ids timer_calls].
  destruct (g !! idx); reflexivity.
Qed.

Ltac blind :=
  unfold encoder_write, set_run_state, skip;
  repeat first
    [ apply blind_set_indicator
    | apply blind_ret
    | apply blind_emit
    | apply blind_bind; [|intros ?]
    | match goal with
      | |- buffer_blind (if ?c then _ else _) => destruct c
      end
    | (apply blind_gets; intros ? ?; reflexivity)
    | (apply blind_modify; intros ? ?; reflexivity) ].

Lemma lockstep_blind {A} (P : nat -> Prop) (m : M A) :
  buffer_blind m -> lockstep P P m.
Proof.
  intros Hm w b1 b2 Hb. rewrite (Hm w b1), (Hm w b2). cbn [val wld eff].
  split; [reflexivity|]. split; [reflexivity|].
  exists (wld (m w)), b1, b2. auto.
Qed.

Lemma lockstep_bind {A B} (P Q R : nat -> Prop) (m : M A) (k : A -> M B) :
  lockstep P Q m -> (forall a, lockstep Q R (k a)) -> lockstep P R (bind m k).
Proof.
  intros Hm Hk w b1 b2 Hb.
  destruct (Hm w b1 b2 Hb) as (Hv & He & w' & c1 & c2 & H1 & H2 & Hc).
  unfold bind. cbn [val wld eff]. rewrite He, Hv, H1, H2.
  destruct (Hk (val (m (with_buffer w b2))) w' c1 c2 Hc)
    as (Hv' & He' & w'' & d1 & d2 & H1' & H2' & Hd).
  rewrite Hv', He'. split; [reflexivity|]. split; [reflexivity|].
  exists w'', d1, d2. auto.
Qed.

(** A value read from the machine and not used afterwards. *)
Lemma lockstep_read_unused {A B} (P Q : nat -> Prop) (f : world -> A) (k : M B) :
  lockstep P Q k -> lockstep P Q (bind (gets f) (fun _ => k)).
Proof. intros Hk w b1 b2 Hb. exact (Hk w b1 b2 Hb). Qed.

Lemma lockstep_weaken {A} (P P0 Q Q0 : nat -> Prop) (m : M A) :
  (forall i, P i -> P0 i) -> (forall i, Q0 i -> Q i) ->
  lockstep P Q m -> lockstep P0 Q0 m.
Proof.
  intros HP HQ Hm w b1 b2 (L1 & L2 & Hb).
  destruct (Hm w b1 b2) as (Hv & He & w' & c1 & c2 & H1 & H2 & M1 & M2 & Hc).
  { split; [exact L1|]. split; [exact L2|]. intros i Hi. apply Hb, HP, Hi. }
  split; [exact Hv|]. split; [exact He|].
  exists w', c1, c2. split; [exact H1|]. split; [exact H2|].
  split; [exact M1|]. split; [exact M2|]. intros i Hi. apply Hc, HQ, Hi.
Qed.

Lemma lockstep_buffer_get (P : nat -> Prop) i :
  P i -> lockstep P P (buffer_get i).
Proof.
  intros Hi w b1 b2 Hb. unfold buffer_get, gets, with_buffer.
  cbn [val wld eff buffer].
  split; [rewrite (proj2 (proj2 Hb) i Hi); reflexivity|].
  split; [reflexivity|]. exists w, b1, b2. auto.
Qed.

Lemma lockstep_buffer_set (P : nat -> Prop) i v :
  lockstep P (fun j => j = i \/ P j) (buffer_set i v).
Proof.
  intros w b1 b2 (L1 & L2 & Hb).
  split; [reflexivity|]. split; [reflexivity|].
  exists w, (<[i := v]> b1), (<[i := v]> b2).
  split; [reflexivity|]. split; [reflexivity|].
  split; [rewrite length_insert; exact L1|].
  split; [rewrite length_insert; exact L2|].
  assert (Hsame : <[i := v]> b1 !! i = <[i := v]> b2 !! i).
  { destruct (Nat.lt_ge_cases i 64) as [Hlt | Hge].
    - rewrite !list_lookup_insert_eq by lia. reflexivity.
    - rewrite !lookup_ge_None_2 by (rewrite length_insert; lia). reflexivity. }
  intros j [-> | Hj]; [exact Hsame|].
  destruct (Nat.eq_dec j i) as [-> | Hne]; [exact Hsame|].
  rewrite !list_lookup_insert_ne by congruence. apply Hb, Hj.
Qed.

Lemma lockstep_zero_loop count : forall (P : nat -> Prop) first,
  lockstep P (fun j => (first <= j < first + count)%nat \/ P j)
    (for_loop first count (fun i => buffer_set i 0)).
Proof.
  induction count as [|c IH]; intros P first; cbn [for_loop].
  - apply (lockstep_weaken P P P); [auto | intros i [H | H]; [lia | exact H] |].
    apply lockstep_blind, blind_ret.
  - apply (lockstep_weaken P P
             (fun j => (S first <= j < S first + c)%nat \/ (j = first \/ P j)));
      [auto | intros i [H | H]; [lia | auto] |].
    apply (lockstep_bind P (fun j => j = first \/ P j)).
    + apply lockstep_buffer_set.
    + intros _. apply IH.
Qed.

Lemma lockstep_send (P : nat -> Prop) timeout tx :
  (forall i, (i < 64)%nat -> P i) ->
  lockstep P P (RawHID_send_buffer timeout tx).
Proof.
  intros HP w b1 b2 Hb. pose proof Hb as (L1 & L2 & Hag).
  assert (E : b1 = b2).
  { apply list_eq. intros i. destruct (Nat.lt_ge_cases i 64) as [Hlt | Hge].
    - apply Hag, HP, Hlt.
    - rewrite !lookup_ge_None_2 by lia. reflexivity. }
  subst b2. split; [reflexivity|]. split; [reflexivity|].
  exists w, b1, b1. auto.
Qed.

Lemma outcome_unit_eq (r1 r2 : outcome unit) :
  wld r1 = wld r2 -> eff r1 = eff r2 -> r1 = r2.
Proof.
  destruct r1 as [[] w1 e1], r2 as [[] w2 e2]. cbn. intros -> ->. reflexivity.
Qed.

Lemma lockstep_rawhid_state_run (P : nat -> Prop) :
  P 0%nat -> lockstep P P rawhid_state_run.
Proof.
  intros H0. unfold rawhid_state_run.
  apply (lockstep_bind P P); [apply lockstep_buffer_get, H0|].
  intros b0. apply lockstep_blind. blind.
Qed.

Lemma lockstep_rawhid_state_alarm (P : nat -> Prop) :
  P 1%nat -> lockstep P P rawhid_state_alarm.
Proof.
  intros H1. unfold rawhid_state_alarm.
  apply (lockstep_bind P P); [apply lockstep_buffer_get, H1|].
  intros b1. apply lockstep_blind. blind.
Qed.

Lemma lockstep_rawhid_state_m1 (P : nat -> Prop) :
  P 5%nat -> lockstep P P rawhid_state_m1.
Proof.
  intros H5. unfold rawhid_state_m1.
  apply (lockstep_bind P P); [apply lockstep_buffer_get, H5|].
  intros b5. apply lockstep_blind. blind.
Qed.

Lemma lockstep_rawhid_state_feed_hold (P : nat -> Prop) :
  P 6%nat -> lockstep P P rawhid_state_feed_hold.
Proof.
  intros H6. unfold rawhid_state_feed_hold.
  apply (lockstep_bind P P); [apply lockstep_buffer_get, H6|].
  intros b6. apply lockstep_blind. blind.
Qed.

Ltac lockstep_seq :=
  lazymatch goal with
  | |- lockstep _ _ (bind (buffer_set _ _) _) =>
      eapply lockstep_bind; [apply lockstep_buffer_set | intros _]
  | |- lockstep _ _ (bind (for_loop _ _ _) _) =>
      eapply lockstep_bind; [apply lockstep_zero_loop | intros _]
  | |- lockstep _ _ (bind (RawHID_send_buffer _ _) _) =>
      eapply lockstep_bind; [apply lockstep_send | intros ?]
  | |- lockstep _ _ (bind _ _) =>
      eapply lockstep_bind; [apply lockstep_blind; solve [blind] | intros ?]
  end.

Lemma lockstep_rawhid_send_response (P : nat -> Prop) tx :
  lockstep P (fun i => (i < 64)%nat) (rawhid_send_response tx).
Proof.
  unfold rawhid_send_response.
  eapply (lockstep_weaken P P _ (fun i => (i < 64)%nat));
    [| |repeat lockstep_seq; [|apply lockstep_blind; blind]].
  - intros i Hi. exact Hi.
  - intros i Hi. cbv beta. lia.
  - intros i Hi. cbv beta. lia.
Qed.

Lemma RawHID_recv_packet pkt w :
  RawHID_recv (Some pkt) w = mk_outcome 64 (with_buffer w pkt) [].
Proof. reflexivity. Qed.

(** With a packet waiting, [rawhid_poll] is its body run on the buffer
    that holds the packet. *)
Lemma rawhid_poll_packet pkt tx w :
  exec (rawhid_poll (Some pkt) tx) w
  = exec (rawhid_state_run ;;;
          rawhid_state_alarm ;;;
          pathpilot_maxvel <- buffer_get 4 ;;
          rawhid_state_m1 ;;;
          rawhid_state_feed_hold ;;;
          rawhid_send_response tx)%fw (with_buffer w pkt)
  /\ calls (rawhid_poll (Some pkt) tx) w
     = calls (rawhid_state_run ;;;
              rawhid_state_alarm ;;;
              pathpilot_maxvel <- buffer_get 4 ;;
              rawhid_state_m1 ;;;
              rawhid_state_feed_hold ;;;
              rawhid_send_response tx)%fw (with_buffer w pkt).
Proof.
  unfold rawhid_poll. rewrite exec_bind, calls_bind.
  unfold exec at 2, calls at 1. rewrite RawHID_recv_packet.
  cbn [val wld eff app]. change (64 =? 64) with true. cbv iota.
  split; reflexivity.
Qed.

(** X19.  Of the 64 bytes of a received packet [rawhid_poll] uses bytes 0,
    1, 5 and 6 only: two packets that agree in these four bytes lead to the
    same calls, with the same arguments and in the same order, to the same
    response packet and to the same machine afterwards, whatever the other
    60 bytes are.  Byte 4, which is read into [pathpilot_maxvel], is among
    the bytes without any influence. *)
Theorem rawhid_poll_reads_four_bytes (w : world) (pkt1 pkt2 : list Z) (tx : Z) :
  length pkt1 = 64%nat ->
  length pkt2 = 64%nat ->
  (forall i, i = 0%nat \/ i = 1%nat \/ i = 5%nat \/ i = 6%nat ->
             pkt1 !! i = pkt2 !! i) ->
  rawhid_poll (Some pkt1) tx w = rawhid_poll (Some pkt2) tx w.
Proof.
  intros L1 L2 Hag.
  pose (body := (rawhid_state_run ;;;
                 rawhid_state_alarm ;;;
                 pathpilot_maxvel <- buffer_get 4 ;;
                 rawhid_state_m1 ;;;
                 rawhid_state_feed_hold ;;;
                 rawhid_send_response tx)%fw).
  pose (P := fun i : nat => i = 0%nat \/ i = 1%nat \/ i = 5%nat \/ i = 6%nat).
  assert (Hbody : lockstep P (fun i => (i < 64)%nat) body).
  { unfold body.
    apply (lockstep_bind P P);
      [apply lockstep_rawhid_state_run; unfold P; auto | intros _].
    apply (lockstep_bind P P);
      [apply lockstep_rawhid_state_alarm; unfold P; auto | intros _].
    apply lockstep_read_unused.
    apply (lockstep_bind P P);
      [apply lockstep_rawhid_state_m1; unfold P; auto | intros _].
    apply (lockstep_bind P P);
      [apply lockstep_rawhid_state_feed_hold; unfold P; auto | intros _].
    apply lockstep_rawhid_send_response. }
  destruct (Hbody w pkt1 pkt2 (conj L1 (conj L2 Hag)))
    as (_ & He & w' & b1 & b2 & H1 & H2 & M1 & M2 & Hb).
  assert (E : b1 = b2).
  { apply list_eq. intros i. destruct (Nat.lt_ge_cases i 64) as [Hlt | Hge].
    - apply Hb, Hlt.
    - rewrite !lookup_ge_None_2 by lia. reflexivity. }
  destruct (rawhid_poll_packet pkt1 tx w) as [Hw1 Hc1].
  destruct (rawhid_poll_packet pkt2 tx w) as [Hw2 Hc2].
  apply outcome_unit_eq.
  - fold (exec (rawhid_poll (Some pkt1) tx) w).
    fold (exec (rawhid_poll (Some pkt2) tx) w).
    rewrite Hw1, Hw2. fold body. unfold exec. rewrite H1, H2, E. reflexivity.
  - fold (calls (rawhid_poll (Some pkt1) tx) w).
    fold (calls (rawhid_poll (Some pkt2) tx) w).
    rewrite Hc1, Hc2. exact He.
Qed.

Lemma rawhid_poll_reads_four_bytes_witness :
  let pkt1 := [1; 2; 0; 0; 0; 1; 0] ++ replicate 57%nat 0 in
  let pkt2 := [1; 2; 9; 8; 100; 1; 0] ++ replicate 57%nat 255 in
  rawhid_poll (Some pkt1) 1 (booted (fun _ => 4))
  = rawhid_poll (Some pkt2) 1 (booted (fun _ => 4)).
Proof.
  intros pkt1 pkt2.
  apply (rawhid_poll_reads_four_bytes (booted (fun _ => 4)) pkt1 pkt2 1).
  - reflexivity.
  - reflexivity.
  - intros i [-> | [-> | [-> | ->]]]; reflexivity.
Defined.

(** ** The timers the sketch holds *)

Lemma set_indicator_steady idx s p w :
  indicators_ok (g_indicators w) ->
  (idx < INDICATOR_COUNT)%nat ->
  s = INDICATOR_OFF \/ s = INDICATOR_ON
  \/ (s = INDICATOR_BLINK /\ ~ never_blinks idx) ->
  steady_only w ->
  steady_only (exec (set_indicator idx s p) w).
Proof.
  intros Hg Hidx Hs Hst j Hj.
  destruct (Nat.eq_dec j idx) as [-> | Hne].
  - assert (Hr : requested_mode s).
    { destruct Hs as [-> | [-> | [-> _]]];
        [left | right; left | right; right]; reflexivity. }
    rewrite (set_indicator_reaches_mode idx s p w Hg Hidx Hr).
    destruct Hs as [-> | [-> | [_ Hn]]]; [left | right | contradiction];
      reflexivity.
  - unfold mode_of, exec. rewrite set_indicator_other by exact Hne.
    apply Hst, Hj.
Qed.

Lemma repeat_alert_off_steady n : forall w,
  indicators_ok (g_indicators w) -> steady_only w ->
  steady_only (exec (repeat_proc n (run_callback cb_alert_off)) w).
Proof.
  assert (Hidx : (ALERT_BEEPER < INDICATOR_COUNT)%nat)
    by (unfold ALERT_BEEPER, INDICATOR_COUNT; lia).
  induction n as [|n IH]; intros w Hg Hst; [exact Hst|].
  cbn [repeat_proc]. rewrite exec_bind. apply IH.
  - exact (set_indicator_keeps_ok ALERT_BEEPER INDICATOR_OFF 0 w Hg Hidx
             (or_introl eq_refl)).
  - apply (set_indicator_steady ALERT_BEEPER INDICATOR_OFF 0 w Hg Hidx);
      [left; reflexivity | exact Hst].
Qed.

Lemma rfid_poll_steady host reader w :
  indicators_ok (g_indicators w) -> steady_only w ->
  steady_only (exec (rfid_poll host reader) w).
Proof.
  intros Hg Hst j Hj. unfold mode_of. rewrite rfid_poll_indicators.
  assert (Hidx : (INDICATOR_LED_RFID < INDICATOR_COUNT)%nat)
    by (unfold INDICATOR_LED_RFID, INDICATOR_COUNT; lia).
  assert (Hn : ~ never_blinks INDICATOR_LED_RFID)
    by (intros [H | [H | H]]; discriminate H).
  destruct host as [b|]; [|exact (Hst j Hj)].
  destruct (b =? 50);
    [apply (set_indicator_steady INDICATOR_LED_RFID INDICATOR_BLINK 500 w);
     auto|].
  destruct (b =? 49);
    [apply (set_indicator_steady INDICATOR_LED_RFID INDICATOR_ON 0 w);
     auto|].
  destruct (b =? 48);
    [apply (set_indicator_steady INDICATOR_LED_RFID INDICATOR_OFF 0 w);
     auto|].
  exact (Hst j Hj).
Qed.

Lemma loop_before_steady i w :
  machine_ok w -> steady_only w -> steady_only (exec (loop_before i) w).
Proof.
  intros Hw Hst. unfold loop_before. rewrite !exec_bind.
  set (w1 := exec (modify _) w).
  assert (H1 : machine_ok w1 /\ steady_only w1).
  { subst w1. destruct w. split; [exact Hw | exact Hst]. }
  destruct H1 as [H1 Hst1].
  destruct (alert_off_machine_ok (alert_due i) w1 H1) as [H2 _].
  apply rfid_poll_steady; [apply H2|].
  apply repeat_alert_off_steady; [apply H1 | exact Hst1].
Qed.

Lemma rawhid_poll_steady rx tx w :
  indicators_ok (g_indicators w) ->
  (forall pkt, rx = Some pkt -> length pkt = 64%nat) ->
  steady_only w ->
  steady_only (exec (rawhid_poll rx tx) w).
Proof.
  intros Hg Hrx Hst. destruct rx as [pkt|]; [|exact Hst].
  unfold steady_only, mode_of, exec.
  apply (wp_ok_rawhid_poll pkt tx w
    (fun _ w' _ =>
       forall idx, never_blinks idx ->
         state <$> g_indicators w' !! idx = Some INDICATOR_OFF
         \/ state <$> g_indicators w' !! idx = Some INDICATOR_ON)
    Hg (Hrx pkt eq_refl)).
  intros g' n' es Hok Hgreen Hstart Hbeep Hred Hm1 Hfeed Hamber Hrfid.
  cbn [g_indicators]. intros idx [-> | [-> | ->]].
  - rewrite Hbeep. destruct (_ && _); [right; reflexivity|].
    apply Hst. left; reflexivity.
  - rewrite Hm1. unfold flag_mode.
    destruct (default 0 (pkt !! 5%nat) =? 1); auto.
  - rewrite Hfeed. unfold flag_mode.
    destruct (default 0 (pkt !! 6%nat) =? 1); auto.
Qed.

Lemma loop_steady i w :
  machine_ok w ->
  (forall pkt, hid_rx i = Some pkt -> length pkt = 64%nat) ->
  steady_only w ->
  steady_only (loop i w).1.
Proof.
  intros Hw Hrx Hst. rewrite loop_world.
  destruct (loop_before_machine_ok i w Hw) as [[Hg _] _].
  apply rawhid_poll_steady; [exact Hg | exact Hrx|].
  apply loop_before_steady; assumption.
Qed.

Lemma booted_steady ids : steady_only (booted ids).
Proof. intros idx [-> | [-> | ->]]; left; reflexivity. Qed.

Lemma recorded_steady i :
  state i = INDICATOR_OFF \/ state i = INDICATOR_ON ->
  (state i = INDICATOR_OFF \/ state i = INDICATOR_ON -> event_id i = -1) ->
  recorded i = [].
Proof. intros Hs Hc. unfold recorded. rewrite (Hc Hs). reflexivity. Qed.

Lemma recorded_length i : (length (recorded i) <= 1)%nat.
Proof. unfold recorded. destruct (_ =? _); cbn; lia. Qed.

(** X20.  Only the five indicators the sketch blinks can hold a timer.
    After [setup] and any number of iterations of [loop], the beeper, the
    M1 LED and the feed LED are in mode OFF or ON and record no handle,
    every indicator that records a handle is in mode BLINK, and the array
    records at most five handles. *)
Theorem blink_timers_bounded (ids : nat -> Z) (ins : list loop_input) :
  inputs_ok ins ->
  let w := (run_loop ins (booted ids)).1 in
  (forall idx i, never_blinks idx -> g_indicators w !! idx = Some i ->
     (state i = INDICATOR_OFF \/ state i = INDICATOR_ON) /\ event_id i = -1)
  /\ (forall idx i, g_indicators w !! idx = Some i -> event_id i <> -1 ->
        state i = INDICATOR_BLINK)
  /\ (length (recorded_handles w) <= 5)%nat.
Proof.
  intros Hins.
  assert (H : forall w0, machine_ok w0 -> steady_only w0 ->
                machine_ok (run_loop ins w0).1 /\ steady_only (run_loop ins w0).1).
  { induction Hins as [|i ins Hi Hins IH]; intros w0 Hw Hst;
      [split; assumption|].
    cbn [run_loop fst]. apply IH.
    - apply loop_machine_ok; assumption.
    - apply loop_steady; assumption. }
  destruct (H (booted ids) (booted_machine_ok ids) (booted_steady ids))
    as [[[Hlen Hok] _] Hst].
  intros w. fold w in Hlen, Hok, Hst. clearbody w. clear H.
  assert (Hnb : forall idx i, never_blinks idx -> g_indicators w !! idx = Some i ->
            (state i = INDICATOR_OFF \/ state i = INDICATOR_ON)
            /\ (state i = INDICATOR_OFF \/ state i = INDICATOR_ON -> event_id i = -1)).
  { intros idx i Hidx Hi. destruct (Hok idx i Hi) as (_ & _ & _ & Hc).
    split; [|exact Hc].
    specialize (Hst idx Hidx). unfold mode_of in Hst. rewrite Hi in Hst.
    cbn in Hst. destruct Hst as [Hs | Hs]; injection Hs as Hs; auto. }
  split; [|split].
  - intros idx i Hidx Hi. destruct (Hnb idx i Hidx Hi) as [Hs Hc]. auto.
  - intros idx i Hi Hev. destruct (Hok idx i Hi) as (_ & _ & Hs & Hc).
    destruct Hs as [Hs | [Hs | Hs]]; [exfalso; auto | exfalso; auto | exact Hs].
  - unfold recorded_handles. unfold INDICATOR_COUNT in Hlen.
    destruct (g_indicators w) as [|i0 [|i1 [|i2 [|i3 [|i4 [|i5 [|i6 [|i7 [|? ?]]]]]]]]];
      try discriminate Hlen.
    cbn [flat_map].
    destruct (Hnb ALERT_BEEPER i0 (or_introl eq_refl) eq_refl) as [Hs0 Hc0].
    destruct (Hnb INDICATOR_LED_FEED i5 (or_intror (or_intror eq_refl)) eq_refl)
      as [Hs5 Hc5].
    destruct (Hnb INDICATOR_LED_M1 i6 (or_intror (or_introl eq_refl)) eq_refl)
      as [Hs6 Hc6].
    rewrite (recorded_steady i0 Hs0 Hc0), (recorded_steady i5 Hs5 Hc5),
      (recorded_steady i6 Hs6 Hc6).
    rewrite !length_app. cbn [length].
    pose proof (recorded_length i1). pose proof (recorded_length i2).
    pose proof (recorded_length i3). pose proof (recorded_length i4).
    pose proof (recorded_length i7). lia.
Qed.

Lemma blink_timers_bounded_witness :
  let ins := [mk_loop_input 0 (-4) (Some 50) None (mk_edges false false false false)
                (Some ([2; 2; 0; 0; 0; 1; 1] ++ replicate 57%nat 0)) 1] in
  let w := (run_loop ins (booted (fun k => Z.of_nat k))).1 in
  (forall idx i, never_blinks idx -> g_indicators w !! idx = Some i ->
     (state i = INDICATOR_OFF \/ state i = INDICATOR_ON) /\ event_id i = -1)
  /\ (forall idx i, g_indicators w !! idx = Some i -> event_id i <> -1 ->
        state i = INDICATOR_BLINK)
  /\ (length (recorded_handles w) <= 5)%nat.
Proof.
  intros ins.
  apply (blink_timers_bounded (fun k => Z.of_nat k) ins).
  repeat constructor; cbn; intros pkt H.
  injection H as <-. reflexivity.
Defined.

(** ** The knob over a run *)

Lemma repeat_alert_off_encoder n : forall w,
  encoder_maxvel (exec (repeat_proc n (run_callback cb_alert_off)) w)
  = encoder_maxvel w.
Proof.
  induction n as [|n IH]; intros w; [reflexivity|].
  cbn [repeat_proc]. rewrite exec_bind, IH. apply set_indicator_encoder.
Qed.

Lemma rfid_poll_encoder host reader w :
  encoder_maxvel (exec (rfid_poll host reader) w) = encoder_maxvel w.
Proof.
  unfold rfid_poll. rewrite exec_bind.
  set (led := match host with Some b => _ | None => _ end).
  assert (Hled : encoder_maxvel (exec led w) = encoder_maxvel w).
  { subst led. destruct host as [b|]; [|reflexivity].
    destruct (b =? 50); [apply set_indicator_encoder|].
    destruct (b =? 49); [apply set_indicator_encoder|].
    destruct (b =? 48); [apply set_indicator_encoder|].
    reflexivity. }
  destruct reader as [b|]; exact Hled.
Qed.

Lemma loop_before_encoder i w :
  encoder_maxvel (exec (loop_before i) w)
  = encoder_moved (encoder_maxvel w) (knob_steps i).
Proof.
  unfold loop_before. rewrite !exec_bind.
  rewrite rfid_poll_encoder, repeat_alert_off_encoder. reflexivity.
Qed.

Lemma rawhid_poll_encoder rx tx w :
  (forall pkt, rx = Some pkt -> length pkt = 64%nat) ->
  encoder_maxvel (exec (rawhid_poll rx tx) w)
  = match rx with
    | Some _ => clamp15 (encoder_maxvel w)
    | None => encoder_maxvel w
    end.
Proof.
  intros Hrx. destruct rx as [pkt|]; [|reflexivity].
  unfold exec.
  apply (wp_rawhid_poll pkt tx w
           (fun _ w' _ => encoder_maxvel w' = clamp15 (encoder_maxvel w))
           (Hrx pkt eq_refl)).
  intros g' n' es _ _ _ _ _ _ _. reflexivity.
Qed.

Lemma loop_encoder i w :
  (forall pkt, hid_rx i = Some pkt -> length pkt = 64%nat) ->
  encoder_maxvel (loop i w).1 = knob_step (encoder_maxvel w) i.
Proof.
  intros Hrx. rewrite loop_world, (rawhid_poll_encoder _ _ _ Hrx).
  rewrite loop_before_encoder. unfold knob_step.
  destruct (hid_rx i); reflexivity.
Qed.

(** X21.  The knob over a run of [loop]: in every iteration the movement
    of the knob is added to the position in the library's 32-bit counter,
    which wraps around at the ends of the [int32_t] range, and the position
    is clamped to 0..15 only in the iterations that process a packet; while
    the host sends none, the movement accumulates unclamped: as long as the
    sum stays within the [int32_t] range the position is the plain sum,
    and one step past [INT32_MAX] it is [INT32_MIN].  After a run whose
    last iteration processed a packet the position is within 0..15. *)
Theorem knob_position_over_run (ins : list loop_input) (w : world) :
  inputs_ok ins ->
  encoder_maxvel (run_loop ins w).1 = fold_left knob_step ins (encoder_maxvel w)
  /\ (forall ins' i pkt, ins = ins' ++ [i] -> hid_rx i = Some pkt ->
        0 <= encoder_maxvel (run_loop ins w).1 <= 15)
  /\ (forall pos steps, -2147483648 <= pos + steps <= 2147483647 ->
        encoder_moved pos steps = pos + steps)
  /\ encoder_moved 2147483647 1 = -2147483648.
Proof.
  intros Hins.
  assert (H : forall w0, encoder_maxvel (run_loop ins w0).1
                         = fold_left knob_step ins (encoder_maxvel w0)).
  { induction Hins as [|i ins Hi Hins IH]; intros w0; [reflexivity|].
    cbn [run_loop fst fold_left]. rewrite IH, (loop_encoder i w0 Hi).
    reflexivity. }
  split; [apply H|]. split; [|split; [|reflexivity]].
  - intros ins' i pkt -> Hpkt. rewrite H, fold_left_app. cbn [fold_left].
    set (pos := fold_left knob_step ins' (encoder_maxvel w)).
    unfold knob_step. rewrite Hpkt. unfold clamp15. lia.
  - intros pos steps Hrange. unfold encoder_moved, s32.
    destruct (Z.eqb_spec steps 0) as [-> | _]; [lia|].
    rewrite Z.mod_small by lia. lia.
Qed.

Lemma knob_position_over_run_witness :
  let e := mk_edges false false false false in
  let pkt := replicate 64%nat 0 in
  let ins := [mk_loop_input 0 40 None None e None 0;
              mk_loop_input 0 2147483647 None None e None 0;
              mk_loop_input 0 (-3) None None e (Some pkt) 1] in
  let w := booted (fun _ => 0) in
  encoder_maxvel (run_loop ins w).1 = fold_left knob_step ins (encoder_maxvel w)
  /\ (forall ins' i pkt, ins = ins' ++ [i] -> hid_rx i = Some pkt ->
        0 <= encoder_maxvel (run_loop ins w).1 <= 15)
  /\ (forall pos steps, -2147483648 <= pos + steps <= 2147483647 ->
        encoder_moved pos steps = pos + steps)
  /\ encoder_moved 2147483647 1 = -2147483648.
Proof.
  intros e pkt ins w.
  apply (knob_position_over_run ins w).
  repeat constructor; cbn; intros p H; try discriminate H.
  injection H as <-. reflexivity.
Defined.

(** ** The alerts over a run *)

Lemma rfid_switch_no_alert b r :
  List.filter is_alert_after (rfid_switch b r).2 = [].
Proof.
  unfold rfid_switch.
  repeat match goal with
         | |- context [if ?c then _ else _] => destruct c
         end; reflexivity.
Qed.

Lemma repeat_alert_off_host_link n : forall w,
  hid (exec (repeat_proc n (run_callback cb_alert_off)) w) = hid w
  /\ List.filter is_alert_after
       (calls (repeat_proc n (run_callback cb_alert_off)) w) = [].
Proof.
  induction n as [|n IH]; intros w; [split; reflexivity|].
  cbn [repeat_proc]. rewrite exec_bind, calls_bind, alert_filter_app.
  destruct (IH (exec (run_callback cb_alert_off) w)) as [Hh Ha].
  rewrite Hh, Ha. split; [apply set_indicator_hid|].
  rewrite app_nil_r. apply indicator_calls_alert, set_indicator_calls.
Qed.

Lemma rfid_poll_host_link host reader w :
  hid (exec (rfid_poll host reader) w) = hid w
  /\ List.filter is_alert_after (calls (rfid_poll host reader) w) = [].
Proof.
  unfold rfid_poll. rewrite exec_bind, calls_bind, alert_filter_app.
  set (led := match host with Some b => _ | None => _ end).
  assert (Hled : hid (exec led w) = hid w
                 /\ List.filter is_alert_after (calls led w) = []).
  { subst led. destruct host as [b|]; [|split; reflexivity].
    destruct (b =? 50);
      [split; [apply set_indicator_hid
              | apply indicator_calls_alert, set_indicator_calls]|].
    destruct (b =? 49);
      [split; [apply set_indicator_hid
              | apply indicator_calls_alert, set_indicator_calls]|].
    destruct (b =? 48);
      [split; [apply set_indicator_hid
              | apply indicator_calls_alert, set_indicator_calls]|].
    split; reflexivity. }
  destruct Hled as [Hh Ha]. rewrite Ha.
  destruct reader as [b|]; [|split; [exact Hh | reflexivity]].
  split; [exact Hh|]. apply rfid_switch_no_alert.
Qed.

Lemma loop_before_host_link i w :
  hid (exec (loop_before i) w) = hid w
  /\ List.filter is_alert_after (calls (loop_before i) w) = [].
Proof.
  unfold loop_before. rewrite !exec_bind, !calls_bind, !alert_filter_app.
  set (w1 := exec (modify _) w).
  set (w2 := exec (repeat_proc _ _) w1).
  destruct (rfid_poll_host_link (host_byte i) (reader_byte i) w2) as [Hh2 Ha2].
  destruct (repeat_alert_off_host_link (alert_due i) w1) as [Hh1 Ha1].
  fold w2 in Hh1. rewrite Hh2, Ha2, Hh1, Ha1. split; reflexivity.
Qed.

Lemma rawhid_poll_alerts rx tx w :
  (forall pkt, rx = Some pkt -> length pkt = 64%nat) ->
  List.filter is_alert_after (calls (rawhid_poll rx tx) w)
  = match rx with
    | Some pkt =>
        if negb (last_run_state (hid w) =? 1)
           && (run_state_of (default 0 (pkt !! 0%nat)) =? 1)
        then [alert_t_after 5000 cb_alert_off] else []
    | None => []
    end
  /\ last_run_state (hid (exec (rawhid_poll rx tx) w))
     = match rx with
       | Some pkt => run_state_of (default 0 (pkt !! 0%nat))
       | None => last_run_state (hid w)
       end.
Proof.
  intros Hrx. destruct rx as [pkt|]; [|split; reflexivity].
  unfold exec, calls.
  apply (wp_rawhid_poll pkt tx w
           (fun _ w' log =>
              List.filter is_alert_after log
              = (if negb (last_run_state (hid w) =? 1)
                    && (run_state_of (default 0 (pkt !! 0%nat)) =? 1)
                 then [alert_t_after 5000 cb_alert_off] else [])
              /\ last_run_state (hid w')
                 = run_state_of (default 0 (pkt !! 0%nat)))
           (Hrx pkt eq_refl)).
  intros g' n' es _ _ Halert _ _ _ _. split; [exact Halert | reflexivity].
Qed.

Lemma loop_alerts i w :
  (forall pkt, hid_rx i = Some pkt -> length pkt = 64%nat) ->
  List.filter is_alert_after (board_calls (loop i w).2)
  = replicate (edges_into_running (last_run_state (hid w)) [i])
              (alert_t_after 5000 cb_alert_off)
  /\ forall ins,
       edges_into_running (last_run_state (hid w)) (i :: ins)
       = (edges_into_running (last_run_state (hid w)) [i]
          + edges_into_running (last_run_state (hid (loop i w).1)) ins)%nat.
Proof.
  intros Hrx. rewrite loop_board_calls, loop_world, alert_filter_app.
  destruct (loop_before_host_link i w) as [Hh Ha].
  destruct (rawhid_poll_alerts (hid_rx i) (hid_tx i) (exec (loop_before i) w) Hrx)
    as [Hal Hlast].
  rewrite Ha, Hal, Hlast, Hh. cbn [app edges_into_running].
  destruct (hid_rx i) as [pkt|]; [|split; reflexivity].
  rewrite Nat.add_0_r.
  destruct (negb (last_run_state (hid w) =? 1)
            && (run_state_of (default 0 (pkt !! 0%nat)) =? 1));
    split; reflexivity.
Qed.

(** X22.  One alert for each start: over any run of [loop], the alerts
    registered with [alert_t.after] are all [after(5000, alert_off)], and
    there is one for each processed packet that takes the run state to
    RUNNING from another state; packets received while RUNNING register
    none.  [last_run_state] starts as [(unsigned int) -1], so the first
    RUNNING packet after power-on registers one. *)
Theorem alert_once_per_start (ins : list loop_input) (w : world) :
  inputs_ok ins ->
  List.filter is_alert_after (board_calls (run_loop ins w).2)
  = replicate (edges_into_running (last_run_state (hid w)) ins)
              (alert_t_after 5000 cb_alert_off).
Proof.
  intros Hins. revert w.
  induction Hins as [|i ins Hi Hins IH]; intros w; [reflexivity|].
  cbn [run_loop snd]. rewrite board_calls_app, alert_filter_app.
  destruct (loop_alerts i w Hi) as [Ha Hsplit].
  rewrite Ha, IH, (Hsplit ins), replicate_add. reflexivity.
Qed.

Lemma alert_once_per_start_witness :
  let e := mk_edges false false false false in
  let running := [1] ++ replicate 63%nat 0 in
  let paused := [2] ++ replicate 63%nat 0 in
  let ins := [mk_loop_input 0 0 None None e (Some running) 1;
              mk_loop_input 0 0 None None e (Some running) 1;
              mk_loop_input 0 0 None None e None 0;
              mk_loop_input 0 0 None None e (Some paused) 1;
              mk_loop_input 0 0 None None e (Some running) 1] in
  List.filter is_alert_after (board_calls (run_loop ins (booted (fun _ => 0))).2)
  = replicate (edges_into_running
                 (last_run_state (hid (booted (fun _ => 0)))) ins)
              (alert_t_after 5000 cb_alert_off).
Proof.
  intros e running paused ins.
  apply (alert_once_per_start ins (booted (fun _ => 0))).
  repeat constructor; cbn; intros p H; try discriminate H;
    injection H as <-; reflexivity.
Defined.

(** ** The decoder always finishes the frame it is in *)

Lemma rfid_switch_inside b r :
  rfid_ok r -> 1 <= rfid_pos r <= 12 ->
  rfid_ok (rfid_switch b r).1
  /\ rfid_pos (rfid_switch b r).1 = rfid_pos r + 1
  /\ (rfid_switch b r).2 = [].
Proof.
  destruct r as [st cnt buf ck]. unfold rfid_ok, rfid_pos, rfid_switch.
  cbn [rfid_state rfid_byte_count rfid_buffer rfid_cksum].
  unfold RFID_STATE_WAIT_STX, RFID_STATE_GET_BYTES, RFID_STATE_GET_CKSUM,
    RFID_STATE_WAIT_ETX, u8.
  intros (Hb & Hc & [-> | [[-> Hr] | [[-> Hr] | ->]]]); cbn [Z.eqb Pos.eqb];
    intros Hpos; try lia.
  - rewrite Z.mod_small by lia.
    destruct (Z.eqb_spec (cnt - 1) 0);
      cbn [fst snd rfid_state rfid_byte_count rfid_buffer rfid_cksum Z.eqb Pos.eqb];
      rewrite ?array_set_length;
      (split; [repeat split; auto; lia|]); (split; [lia | reflexivity]).
  - rewrite Z.mod_small by lia.
    destruct (Z.eqb_spec (cnt - 1) 0);
      cbn [fst snd rfid_state rfid_byte_count rfid_buffer rfid_cksum Z.eqb Pos.eqb];
      rewrite ?array_set_length;
      (split; [repeat split; auto; lia|]); (split; [lia | reflexivity]).
Qed.

Lemma rfid_pos_inside r :
  rfid_ok r ->
  (rfid_state r <> RFID_STATE_WAIT_STX <-> 1 <= rfid_pos r)
  /\ rfid_pos r <= 13
  /\ (rfid_pos r = 13 -> rfid_state r = RFID_STATE_WAIT_ETX).
Proof.
  destruct r as [st cnt buf ck]. unfold rfid_ok, rfid_pos.
  cbn [rfid_state rfid_byte_count rfid_buffer rfid_cksum].
  unfold RFID_STATE_WAIT_STX, RFID_STATE_GET_BYTES, RFID_STATE_GET_CKSUM,
    RFID_STATE_WAIT_ETX.
  intros (Hb & Hc & [-> | [[-> Hr] | [[-> Hr] | ->]]]); cbn [Z.eqb Pos.eqb];
    (split; [split; intros; (lia || discriminate || contradiction)|]);
    split; intros; (lia || reflexivity).
Qed.

Lemma rfid_run_inside bs : forall r,
  rfid_ok r -> 1 <= rfid_pos r -> rfid_pos r + Z.of_nat (length bs) <= 13 ->
  rfid_ok (rfid_run bs r).1
  /\ rfid_pos (rfid_run bs r).1 = rfid_pos r + Z.of_nat (length bs)
  /\ (rfid_run bs r).2 = [].
Proof.
  induction bs as [|b bs IH]; intros r Hr Hp Hlen.
  - cbn. split; [exact Hr|]. split; [lia | reflexivity].
  - cbn [length] in Hlen. cbn [rfid_run fst snd length].
    destruct (rfid_switch_inside b r Hr) as (Hr1 & Hp1 & Ho1); [lia|].
    destruct (IH _ Hr1) as (Hr2 & Hp2 & Ho2); [lia | lia |].
    split; [exact Hr2|]. rewrite Ho1, Ho2, Hp2, Hp1. split; [lia | reflexivity].
Qed.

Lemma rfid_switch_leaves_etx b r :
  rfid_state r = RFID_STATE_WAIT_ETX ->
  rfid_state (rfid_switch b r).1 = RFID_STATE_WAIT_STX.
Proof. intros H. unfold rfid_switch. rewrite H. reflexivity. Qed.

Lemma reader_bytes_app ins1 ins2 :
  reader_bytes (ins1 ++ ins2) = reader_bytes ins1 ++ reader_bytes ins2.
Proof. apply omap_app. Qed.

(** X23.  The decoder always finishes the frame it is in.  From any state
    inside a frame, having taken [pos] of the 14 bytes, it is back in
    WAIT_STX after exactly [14 - pos] more bytes from the reader, whatever
    they are, STX bytes included; until then it stays inside the frame and
    prints nothing. *)
Theorem rfid_decoder_recovers (w : world) (ins : list (option Z * option Z)) :
  rfid_ok (rfid w) ->
  rfid_state (rfid w) <> RFID_STATE_WAIT_STX ->
  Z.of_nat (length (reader_bytes ins)) = 14 - rfid_pos (rfid w) ->
  rfid_state (rfid (exec (rfid_polls ins) w)) = RFID_STATE_WAIT_STX
  /\ (forall ins1 ins2, ins = ins1 ++ ins2 -> reader_bytes ins2 <> [] ->
        rfid_state (rfid (exec (rfid_polls ins1) w)) <> RFID_STATE_WAIT_STX
        /\ serial_out (calls (rfid_polls ins1) w) = []).
Proof.
  intros Hr Hst Hlen.
  destruct (rfid_pos_inside _ Hr) as (Hin & Hle & _).
  apply Hin in Hst. split.
  - destruct (rfid_polls_decode ins w) as [-> _].
    destruct (reader_bytes ins) as [|b0 bs0 _] using rev_ind;
      [cbn [length] in Hlen; lia|].
    rewrite length_app in Hlen. cbn [length] in Hlen.
    rewrite rfid_run_app. cbn [fst rfid_run].
    destruct (rfid_run_inside bs0 (rfid w) Hr Hst) as (Hr1 & Hp1 & _); [lia|].
    apply rfid_switch_leaves_etx.
    apply (rfid_pos_inside _ Hr1). lia.
  - intros ins1 ins2 -> Hne.
    rewrite reader_bytes_app, length_app in Hlen.
    destruct (reader_bytes ins2) as [|b2 bs2]; [contradiction|].
    cbn [length] in Hlen.
    destruct (rfid_polls_decode ins1 w) as [-> ->].
    destruct (rfid_run_inside (reader_bytes ins1) (rfid w) Hr Hst)
      as (Hr1 & Hp1 & Ho1); [lia|].
    split; [|rewrite Ho1; reflexivity].
    apply (rfid_pos_inside _ Hr1). lia.
Qed.

Lemma rfid_decoder_recovers_witness :
  let w := exec (rfid_polls [(None, Some 2); (None, Some 65)]) (booted (fun _ => 0)) in
  let ins := (None, Some 2) :: replicate 11%nat (Some 49, Some 2) in
  rfid_state (rfid (exec (rfid_polls ins) w)) = RFID_STATE_WAIT_STX
  /\ (forall ins1 ins2, ins = ins1 ++ ins2 -> reader_bytes ins2 <> [] ->
        rfid_state (rfid (exec (rfid_polls ins1) w)) <> RFID_STATE_WAIT_STX
        /\ serial_out (calls (rfid_polls ins1) w) = []).
Proof.
  intros w ins.
  apply (rfid_decoder_recovers w ins).
  - split; [reflexivity|]. split; [reflexivity|]. right; left.
    split; [reflexivity | vm_compute; split; discriminate].
  - discriminate.
  - reflexivity.
Defined.
